(** * Khatma: the claim-coordination server, embedded in Rocq

    A shallow embedding of [server/src/index.ts]: the users, weeks and parts
    tables, the SQL statements the handlers send, the transaction bracket
    (BEGIN / COMMIT / ROLLBACK) and the socket.io broadcasts, followed by the
    properties of the claim / release / reset state machine.

    Conventions.
    - A JavaScript string is the list of its UTF-16 code units.
    - A JavaScript number is NaN, an infinity or a finite value kept as an
      exact rational.
    - A table is the list of its rows, in insertion order.
    - An [await]ed statement is a step of the monad [M]; a rejected promise
      is the outcome [Throw]. *)

From Stdlib Require Import List ZArith NArith Bool Lia String Ascii.
From Stdlib Require Import QArith_base.
From Stdlib Require Import Permutation Sorted.
Import ListNotations.
Local Close Scope Q_scope.
Local Open Scope Z_scope.

Set Implicit Arguments.

(* ================================================================== *)
(** ** JavaScript values *)
(* ================================================================== *)

Module Js.

(** A string, as its UTF-16 code units. *)
Definition jsstring := list N.

(** An ASCII literal as a JavaScript string. *)
Fixpoint str (s : string) : jsstring :=
  match s with
  | EmptyString => []
  | String c r => N_of_ascii c :: str r
  end.

Fixpoint eqb (a b : jsstring) : bool :=
  match a, b with
  | [], [] => true
  | x :: a', y :: b' => N.eqb x y && eqb a' b'
  | _, _ => false
  end.

(** [a === b] on [string | null]. *)
Definition opt_eqb (a b : option jsstring) : bool :=
  match a, b with
  | None, None => true
  | Some x, Some y => eqb x y
  | _, _ => false
  end.

(** Truthiness of a [string | null | undefined]: [!!s]. *)
Definition truthy (s : option jsstring) : bool :=
  match s with
  | Some (_ :: _) => true
  | _ => false
  end.

(** [a || b] on possibly absent strings. *)
Definition or_else (a b : option jsstring) : option jsstring :=
  if truthy a then a else b.

(** [a || null]. *)
Definition or_null (a : option jsstring) : option jsstring :=
  or_else a None.

(** WhiteSpace and LineTerminator code units: what [String.prototype.trim]
    strips and what the regular expression class [\s] matches. *)
Definition is_space (c : N) : bool :=
  let c := Z.of_N c in
  ((9 <=? c) && (c <=? 13)) || (c =? 32) || (c =? 160) || (c =? 5760)
  || ((8192 <=? c) && (c <=? 8202)) || (c =? 8232) || (c =? 8233)
  || (c =? 8239) || (c =? 8287) || (c =? 12288) || (c =? 65279).

Fixpoint drop_space (s : jsstring) : jsstring :=
  match s with
  | c :: r => if is_space c then drop_space r else s
  | [] => []
  end.

(** [s.trim()]. *)
Definition trim (s : jsstring) : jsstring :=
  rev (drop_space (rev (drop_space s))).

(** [s.replace(/\s+/g, "")]. *)
Definition remove_spaces (s : jsstring) : jsstring :=
  filter (fun c => negb (is_space c)) s.

Definition plus_sign : N := 43.
Definition comma : N := 44.

(** [s.startsWith("+")]. *)
Definition starts_with_plus (s : jsstring) : bool :=
  match s with
  | c :: _ => N.eqb c plus_sign
  | [] => false
  end.

(** [s.replace(/^\+/, "")]. *)
Definition strip_leading_plus (s : jsstring) : jsstring :=
  match s with
  | c :: r => if N.eqb c plus_sign then r else s
  | [] => []
  end.

(** [s.split(",")]: never empty, the empty string gives one empty piece. *)
Fixpoint split_comma (s : jsstring) : list jsstring :=
  match s with
  | [] => [[]]
  | c :: r =>
      if N.eqb c comma then [] :: split_comma r
      else match split_comma r with
           | p :: ps => (c :: p) :: ps
           | [] => [[c]]
           end
  end.

(** A number: the result of [Number(text)]. *)
Inductive jsnumber : Type :=
| NaN
| Infinity (negative : bool)
| Finite (q : Q).

(** [Number.isNaN(n)]. *)
Definition isNaN (n : jsnumber) : bool :=
  match n with
  | NaN => true
  | _ => false
  end.

(** [Number.isInteger(n)]. *)
Definition isInteger (n : jsnumber) : bool :=
  match n with
  | Finite q => Z.eqb (Z.modulo (Qnum q) (Z.pos (Qden q))) 0
  | _ => false
  end.

(** The integer [z] as a number. *)
Definition of_Z (z : Z) : jsnumber := Finite (inject_Z z).

(** Numeric equality of a number with an integer. *)
Definition num_eqb (n : jsnumber) (z : Z) : bool :=
  match n with
  | Finite q => Qeq_bool q (inject_Z z)
  | _ => false
  end.

End Js.

Import Js.

(* ================================================================== *)
(** ** The store: tables and rows *)
(* ================================================================== *)

(** Table [users]; the row type is [DbUserRow] of the source. *)
Module Users.
Record row : Type := mk {
  id : jsstring;
  firebase_uid : jsstring;
  name : option jsstring;
  phone : option jsstring;
  is_admin : bool
}.
End Users.

(** Table [weeks]. *)
Module Weeks.
Record row : Type := mk {
  id : jsstring;
  week_key : jsstring
}.
End Weeks.

(** Table [parts]. [number] is filled by [generate_series(1,30)]. *)
Module Parts.
Record row : Type := mk {
  week_id : jsstring;
  number : Z;
  claimed_by : option jsstring;
  claimed_name : option jsstring;
  claimed_at : option Z
}.
End Parts.

(** [PartRow] of the source: a part as the API and the broadcasts show it. *)
Module PartRow.
Record t : Type := mk {
  number : jsnumber;
  claimed_by : option jsstring;
  claimed_name : option jsstring;
  claimed_is_admin : option bool
}.
End PartRow.

Record Db : Type := mkDb {
  users : list Users.row;
  weeks : list Weeks.row;
  parts : list Parts.row
}.

Definition empty_db : Db := mkDb [] [] [].

(** A write of the open transaction: it reaches the committed store at
    COMMIT and is dropped at ROLLBACK. *)
Inductive Write : Type :=
| InsertWeek (id week_key : jsstring)
| InsertParts (week_id : jsstring)
| UpdateClaim (week_id : jsstring) (number : jsnumber)
              (claimed_by : jsstring) (claimed_name : option jsstring) (claimed_at : Z)
| UpdateRelease (week_id : jsstring) (number : jsnumber)
| UpdateReset (week_id : jsstring).

(** [generate_series(1,30)]. *)
Definition generate_series_1_30 : list Z := map Z.of_nat (seq 1 30).

(** Modelled from the spec: the declaration of [parts] is not among the
    sources, so the defaults of its columns are not known; the spec has a
    new part free. The row [insert into parts (week_id, number)] adds for the
    number [n]. *)
Definition new_part (week_id : jsstring) (n : Z) : Parts.row :=
  Parts.mk week_id n None None None.

(** Modelled from the spec: the declaration of [parts] is not among the
    sources, so the type of the column [number] is not known; the spec
    looks a part up by its key (week, number). [number=$2], for a
    parameter the store can read as a value of the column: it holds when
    the column and the parameter are equal as numbers. Whether the store
    can read a parameter depends on the type of the column; a statement
    whose parameter it cannot read fails (see [lookup_hazard]). *)
Definition number_matches (n : jsnumber) (number : Z) : bool :=
  num_eqb n number.

(** [where week_id=$1 and number=$2]. *)
Definition part_matches (week_id : jsstring) (n : jsnumber) (p : Parts.row) : bool :=
  eqb (Parts.week_id p) week_id && number_matches n (Parts.number p).

(** [where week_id=$1]. *)
Definition in_week (week_id : jsstring) (p : Parts.row) : bool :=
  eqb (Parts.week_id p) week_id.

(** [set claimed_by=null, claimed_name=null, claimed_at=null]. *)
Definition clear_part (p : Parts.row) : Parts.row :=
  Parts.mk (Parts.week_id p) (Parts.number p) None None None.

(** [set claimed_by=$3, claimed_name=$4, claimed_at=now()]. *)
Definition claim_part (by_ : jsstring) (nm : option jsstring) (at_ : Z)
    (p : Parts.row) : Parts.row :=
  Parts.mk (Parts.week_id p) (Parts.number p) (Some by_) nm (Some at_).

Definition update_where (cond : Parts.row -> bool) (f : Parts.row -> Parts.row)
    (l : list Parts.row) : list Parts.row :=
  map (fun p => if cond p then f p else p) l.

Definition apply_write (d : Db) (wr : Write) : Db :=
  match wr with
  | InsertWeek id key =>
      mkDb (users d) (weeks d ++ [Weeks.mk id key]) (parts d)
  | InsertParts wid =>
      mkDb (users d) (weeks d)
           (parts d ++ map (new_part wid) generate_series_1_30)
  | UpdateClaim wid n by_ nm at_ =>
      mkDb (users d) (weeks d)
           (update_where (part_matches wid n) (claim_part by_ nm at_) (parts d))
  | UpdateRelease wid n =>
      mkDb (users d) (weeks d) (update_where (part_matches wid n) clear_part (parts d))
  | UpdateReset wid =>
      mkDb (users d) (weeks d) (update_where (in_week wid) clear_part (parts d))
  end.

(* ================================================================== *)
(** ** The world a handler runs in, and the monad of awaited steps *)
(* ================================================================== *)

(** What a rejected promise carries. *)
Inductive Error : Type :=
| JsError (message : string)
| TypeError
| UniqueViolation (constraint : string)
| StoreFault.

Inductive Outcome (A : Type) : Type :=
| Ok (a : A)
| Throw (e : Error).
Arguments Throw {A} e.

(** What can happen to a statement on its way to the store: nothing, another
    connection commits first, or the statement fails (lost connection, lock
    timeout). *)
Inductive Hazard : Type :=
| Quiet
| Concurrent (f : Db -> Db)
| Fault.

Inductive Event : Type :=
| PartUpdate (payload : PartRow.t)
| WeekReset (weekId : jsstring) (parts : list PartRow.t).

(** The transaction bracket and the broadcasts, in the order they happen. *)
Inductive Obs : Type :=
| ObsBegin
| ObsCommit
| ObsRollback
| ObsEmit (room : jsstring) (ev : Event).

Record World : Type := mkWorld {
  db : Db;                (* the committed store *)
  tx : list Write;        (* writes of the handler's open transaction *)
  sched : list Hazard;    (* one entry per statement still to come *)
  trace : list Obs;       (* newest last *)
  clock : Z               (* the time of the request: what now() returns *)
}.

Definition set_db (d : Db) (w : World) : World :=
  mkWorld d (tx w) (sched w) (trace w) (clock w).
Definition set_tx (t : list Write) (w : World) : World :=
  mkWorld (db w) t (sched w) (trace w) (clock w).
Definition set_sched (s : list Hazard) (w : World) : World :=
  mkWorld (db w) (tx w) s (trace w) (clock w).
Definition log (o : Obs) (w : World) : World :=
  mkWorld (db w) (tx w) (sched w) (trace w ++ [o]) (clock w).

(** The store as the handler's own connection sees it inside its
    transaction. *)
Definition view (w : World) : Db := fold_left apply_write (tx w) (db w).

(** A world with no transaction open and nothing else going on. *)
Definition idle (d : Db) (now : Z) : World := mkWorld d [] [] [] now.

Definition M (A : Type) : Type := World -> Outcome A * World.

Definition ret {A} (a : A) : M A := fun w => (Ok a, w).

Definition throw {A} (e : Error) : M A := fun w => (Throw e, w).

Definition bind {A B} (m : M A) (k : A -> M B) : M B :=
  fun w =>
    match m w with
    | (Ok a, w') => k a w'
    | (Throw e, w') => (Throw e, w')
    end.

(** [try { body } catch (error) { handler }]. *)
Definition try_catch {A} (body : M A) (handler : Error -> M A) : M A :=
  fun w =>
    match body w with
    | (Ok a, w') => (Ok a, w')
    | (Throw e, w') => handler e w'
    end.

Declare Scope khatma_scope.
Delimit Scope khatma_scope with khatma.
Notation "x <- m ;; k" := (bind m (fun x => k))
  (at level 61, m at next level, right associativity) : khatma_scope.
Notation "m ;; k" := (bind m (fun _ => k))
  (at level 61, right associativity) : khatma_scope.
Local Open Scope khatma_scope.

(** Every statement sent to the store first meets its hazard. *)
Definition hazard : M unit :=
  fun w =>
    match sched w with
    | [] => (Ok tt, w)
    | Quiet :: s => (Ok tt, set_sched s w)
    | Concurrent f :: s => (Ok tt, set_sched s (set_db (f (db w)) w))
    | Fault :: s => (Throw StoreFault, set_sched s w)
    end.

(** [pool.query]: a statement on a connection of its own, committed at
    once. *)
Definition pool_query {A} (q : Db -> Outcome (A * Db)) : M A :=
  hazard ;;
  fun w =>
    match q (db w) with
    | Ok (a, d) => (Ok a, set_db d w)
    | Throw e => (Throw e, w)
    end.

(** [client.query] of a select: reads the transaction's view. *)
Definition client_select {A} (q : Db -> A) : M A :=
  hazard ;; fun w => (Ok (q (view w)), w).

(** [client.query] of an insert or update: joins the open transaction. *)
Definition client_write (wr : Write) : M unit :=
  hazard ;; fun w => (Ok tt, set_tx (tx w ++ [wr]) w).

Definition BEGIN : M unit :=
  hazard ;; fun w => (Ok tt, log ObsBegin w).

Definition COMMIT : M unit :=
  hazard ;; fun w => (Ok tt, log ObsCommit (set_tx [] (set_db (view w) w))).

(** The store drops the open transaction, also when the statement itself
    is lost with the connection. *)
Definition ROLLBACK : M unit :=
  fun w =>
    match hazard w with
    | (Ok _, w') => (Ok tt, log ObsRollback (set_tx [] w'))
    | (Throw e, w') => (Throw e, set_tx [] w')
    end.

(** [now()]. *)
Definition now : M Z := fun w => (Ok (clock w), w).

(** [io.to(room).emit(...)]. *)
Definition emit (room : jsstring) (ev : Event) : M unit :=
  fun w => (Ok tt, log (ObsEmit room ev) w).

(** [rows[0].field]: a TypeError when the row is undefined. *)
Definition field {R A} (r : option R) (f : R -> A) : M A :=
  match r with
  | Some x => ret (f x)
  | None => throw TypeError
  end.

(* ================================================================== *)
(** ** Requests and responses *)
(* ================================================================== *)

(** [{ name?: string; phone?: string }]. *)
Module Profile.
Record t : Type := mk {
  name : option jsstring;
  phone : option jsstring
}.
Definition none : t := mk None None.
End Profile.

(** The error codes of the JSON bodies. *)
Inductive ErrorCode : Type :=
| NAME_AND_PHONE_REQUIRED | LOGIN_FAILED | PROFILE_FAILED
| WEEK_REQUIRED | WEEK_FETCH_FAILED
| BAD_REQUEST | PART_NOT_FOUND | ALREADY_CLAIMED | CLAIM_FAILED
| NOT_OWNER | RELEASE_FAILED
| NOT_ADMIN | RESET_FAILED
| INVALID_BODY | USER_NOT_FOUND | ADMIN_TOGGLE_FAILED.

(** [SessionPayload]. *)
Record SessionPayload : Type := mkSession {
  userId : jsstring;
  session_name : option jsstring;
  session_phone : option jsstring;
  isAdmin : bool
}.

(** What [jwt.sign(payload, AUTH_SECRET, { expiresIn: TOKEN_TTL })] signs:
    the payload and the time of signing ([iat]; [exp] is [iat] plus the
    configured life time). The signature itself is left out. *)
Record Token : Type := mkToken {
  claims : SessionPayload;
  iat : Z
}.

Inductive Body : Type :=
| ErrorBody (error : ErrorCode)
| LoginBody (token : Token) (user : SessionPayload)
| ProfileBody (token : Token) (user : SessionPayload)
| WeekBody (weekId weekKey : jsstring) (parts : list PartRow.t)
| PartBody (part : PartRow.t)
| ResetBody (weekId : jsstring) (parts : list PartRow.t)
| AdminBody (userId : jsstring) (isAdmin : bool).

Record Response : Type := mkResponse {
  status : Z;
  body : Body
}.

(** [res.status(code).json({ error })]. *)
Definition fail (code : Z) (e : ErrorCode) : Response := mkResponse code (ErrorBody e).

(** [res.json(body)]. *)
Definition json (b : Body) : Response := mkResponse 200 b.

(** The requests, after routing, body parsing and [verify]: the session's
    [userId] stands for the verified caller. *)
Inductive Request : Type :=
| Login (name phone : option jsstring) (authKey : jsstring)
| PostProfile (caller : jsstring) (profile : Profile.t)
| GetWeek (weekKey : jsstring)
| ClaimPart (caller : jsstring) (weekId : jsstring) (number : jsnumber) (profile : Profile.t)
| ReleasePart (caller : jsstring) (weekId : jsstring) (number : jsnumber)
| ResetWeek (caller : jsstring) (weekKey : jsstring) (profile : Profile.t)
| SetAdmin (caller : jsstring) (userId : jsstring) (makeAdmin : option bool)
           (weekId : option jsstring) (partNumber : option jsnumber).

(** [process.env], as far as the handlers read it. *)
Record Env : Type := mkEnv {
  env_DEFAULT_ADMIN_NAME : option jsstring;
  env_ADMIN_PHONES : option jsstring
}.

(* ================================================================== *)
(** ** SQL statements *)
(* ================================================================== *)

Module Sql.

(** [select ... from users where phone=$1]. *)
Definition users_by_phone (phone : jsstring) (d : Db) : list Users.row :=
  filter (fun u => opt_eqb (Users.phone u) (Some phone)) (users d).

(** [select ... from users where id=$1]. *)
Definition users_by_id (id : jsstring) (d : Db) : list Users.row :=
  filter (fun u => eqb (Users.id u) id) (users d).

(** Modelled from the spec: the declaration of [users] is not among the
    sources; the spec makes [phone] unique when present. The value [phone]
    is taken when a row other than [id] already holds it. *)
Definition phone_taken (id : jsstring) (phone : option jsstring) (d : Db) : bool :=
  match phone with
  | None => false
  | Some p =>
      existsb (fun u => negb (eqb (Users.id u) id) && opt_eqb (Users.phone u) (Some p))
              (users d)
  end.

(** [update users set name=$2, phone=$3, is_admin=$4 where id=$1
     returning ...]. *)
Definition update_user (id : jsstring) (name phone : option jsstring) (is_admin : bool)
    (d : Db) : Outcome (list Users.row * Db) :=
  let hit u := eqb (Users.id u) id in
  let set u := Users.mk (Users.id u) (Users.firebase_uid u) name phone is_admin in
  if existsb hit (users d) && phone_taken id phone d
  then Throw (UniqueViolation "users.phone")
  else
    Ok (map set (filter hit (users d)),
        mkDb (map (fun u => if hit u then set u else u) (users d)) (weeks d) (parts d)).

(** [update users set is_admin=$2 where id=$1 returning ...]. *)
Definition update_user_admin (id : jsstring) (is_admin : bool) (d : Db)
    : Outcome (list Users.row * Db) :=
  let hit u := eqb (Users.id u) id in
  let set u :=
    Users.mk (Users.id u) (Users.firebase_uid u) (Users.name u) (Users.phone u) is_admin in
  Ok (map set (filter hit (users d)),
      mkDb (map (fun u => if hit u then set u else u) (users d)) (weeks d) (parts d)).

(** Modelled from the spec: the declaration of [weeks] is not among the
    sources; the spec puts a uniqueness constraint on the week key. The key
    is taken when a week already has it. *)
Definition week_key_taken (key : jsstring) (d : Db) : bool :=
  existsb (fun k => eqb (Weeks.week_key k) key) (weeks d).

(** [select id from weeks where week_key=$1]. *)
Definition weeks_by_key (key : jsstring) (d : Db) : list Weeks.row :=
  filter (fun k => eqb (Weeks.week_key k) key) (weeks d).

(** [select claimed_by from parts where week_id=$1 and number=$2 for
    update]. *)
Definition parts_by_key (week_id : jsstring) (n : jsnumber) (d : Db) : list Parts.row :=
  filter (part_matches week_id n) (parts d).

(** [order by p.number asc]. *)
Fixpoint insert_by_number (p : Parts.row) (l : list Parts.row) : list Parts.row :=
  match l with
  | [] => [p]
  | q :: r =>
      if Z.leb (Parts.number p) (Parts.number q) then p :: l
      else q :: insert_by_number p r
  end.

Definition order_by_number (l : list Parts.row) : list Parts.row :=
  fold_right insert_by_number [] l.

(** [from parts p left join users u on u.id = p.claimed_by]: one row per
    matching user, and one row with a null [claimed_is_admin] when there
    is none. *)
Definition left_join_users (d : Db) (p : Parts.row) : list PartRow.t :=
  let out adm :=
    PartRow.mk (of_Z (Parts.number p)) (Parts.claimed_by p) (Parts.claimed_name p) adm in
  match filter (fun u => opt_eqb (Some (Users.id u)) (Parts.claimed_by p)) (users d) with
  | [] => [out None]
  | us => map (fun u => out (Some (Users.is_admin u))) us
  end.

(** The select of [fetchParts]. *)
Definition parts_of_week (week_id : jsstring) (d : Db) : list PartRow.t :=
  flat_map (left_join_users d) (order_by_number (filter (in_week week_id) (parts d))).

(** The select of the admin toggle: one part, joined with its claimant. *)
Definition part_with_claimant (week_id : jsstring) (n : jsnumber) (d : Db)
    : list PartRow.t :=
  flat_map (left_join_users d) (parts_by_key week_id n d).

End Sql.

(* ================================================================== *)
(** ** The server *)
(* ================================================================== *)

(** The name the source falls back to when DEFAULT_ADMIN_NAME is unset. *)
Definition builtin_admin_name : jsstring :=
  [1605; 1581; 1605; 1583; 32; 1593; 1586; 32; 1575; 1604; 1583; 1610; 1606]%N.

Definition builtin_admin_phones : jsstring := str "+971523783612".

Section Server.

(** The environment the process starts with. *)
Variable env : Env.

(** The store's default for an [id] column, given the ids already in the
    table. *)
Variable gen_id : list jsstring -> jsstring.

Definition normalizePhone (raw : option jsstring) : option jsstring :=
  match raw with
  | Some (c :: r) =>
      let cleaned := remove_spaces (c :: r) in
      if negb (starts_with_plus cleaned)
      then Some (plus_sign :: strip_leading_plus cleaned)
      else Some cleaned
  | _ => None
  end.

Definition DEFAULT_ADMIN_NAME : jsstring :=
  match or_else (env_DEFAULT_ADMIN_NAME env) (Some builtin_admin_name) with
  | Some s => trim s
  | None => []
  end.

Definition ADMIN_PHONE_LIST : list (option jsstring) :=
  match or_else (env_ADMIN_PHONES env) (Some builtin_admin_phones) with
  | Some s => filter truthy (map (fun v => normalizePhone (Some v)) (split_comma s))
  | None => []
  end.

Definition computeAdminFlag (name phone : option jsstring) (current : bool) : bool :=
  let matchName :=
    truthy (Some DEFAULT_ADMIN_NAME) && truthy name
    && opt_eqb name (Some DEFAULT_ADMIN_NAME) in
  let matchPhone :=
    truthy phone && existsb (opt_eqb phone) ADMIN_PHONE_LIST in
  current || matchName || matchPhone.

(** [insert into users (...) values (...) returning ...]; see
    [Sql.phone_taken] for the constraint. *)
Definition insert_user (firebase_uid : jsstring) (name phone : option jsstring)
    (is_admin : bool) (d : Db) : Outcome (list Users.row * Db) :=
  let id := gen_id (map Users.id (users d)) in
  if Sql.phone_taken id phone d
  then Throw (UniqueViolation "users.phone")
  else
    let u := Users.mk id firebase_uid name phone is_admin in
    Ok ([u], mkDb (users d ++ [u]) (weeks d) (parts d)).

Definition loginUser (nameInput phoneInput authKey : jsstring) : M (option Users.row) :=
  let name := or_null (Some (trim nameInput)) in
  let phone := normalizePhone (Some phoneInput) in
  match phone with
  | Some (c :: r) =>
      let phone_ := c :: r in
      existing <- pool_query (fun d => Ok (Sql.users_by_phone phone_ d, d)) ;;
      match existing with
      | current :: _ =>
          let updatedAdmin :=
            computeAdminFlag (or_else name (Users.name current)) phone
                             (Users.is_admin current) in
          rows <- pool_query (Sql.update_user (Users.id current)
                                (or_else name (Users.name current)) phone updatedAdmin) ;;
          ret (hd_error rows)
      | [] =>
          let isAdmin := computeAdminFlag name phone false in
          rows <- pool_query (insert_user authKey name phone isAdmin) ;;
          ret (hd_error rows)
      end
  | _ => throw (JsError "PHONE_REQUIRED")
  end.

Definition getUserById (id : jsstring) : M Users.row :=
  rows <- pool_query (fun d => Ok (Sql.users_by_id id d, d)) ;;
  match rows with
  | u :: _ => ret u
  | [] => throw (JsError "USER_NOT_FOUND")
  end.

Definition updateUserProfile (userId : jsstring) (profile : Profile.t)
    : M (option Users.row) :=
  existing <- getUserById userId ;;
  let name := or_else (option_map trim (Profile.name profile)) (Users.name existing) in
  let phone := normalizePhone (or_else (Profile.phone profile) (Users.phone existing)) in
  let isAdmin := computeAdminFlag name phone (Users.is_admin existing) in
  rows <- pool_query (Sql.update_user userId name phone isAdmin) ;;
  ret (hd_error rows).

(** [insert into weeks (week_key) values ($1) returning id]; see
    [Sql.week_key_taken] for the constraint. *)
Definition insert_week (weekKey : jsstring) : M jsstring :=
  hazard ;;
  fun w =>
    let v := view w in
    if Sql.week_key_taken weekKey v
    then (Throw (UniqueViolation "weeks.week_key"), w)
    else
      let id := gen_id (map Weeks.id (weeks v)) in
      (Ok id, set_tx (tx w ++ [InsertWeek id weekKey]) w).

Definition ensureWeek (weekKey : jsstring) : M jsstring :=
  existing <- client_select (Sql.weeks_by_key weekKey) ;;
  match existing with
  | k :: _ => ret (Weeks.id k)
  | [] =>
      weekId <- insert_week weekKey ;;
      client_write (InsertParts weekId) ;;
      ret weekId
  end.

(** The result is [{ id, key }]. *)
Definition getWeek (weekKey : jsstring) : M (jsstring * jsstring) :=
  week <- client_select (Sql.weeks_by_key weekKey) ;;
  match week with
  | k :: _ => ret (Weeks.id k, Weeks.week_key k)
  | [] =>
      id <- ensureWeek weekKey ;;
      ret (id, weekKey)
  end.

Definition fetchParts (weekId : jsstring) : M (list PartRow.t) :=
  pool_query (fun d => Ok (Sql.parts_of_week weekId d, d)).

Definition broadcastPartUpdate (weekId : jsstring) (payload : PartRow.t) : M unit :=
  emit weekId (PartUpdate payload).

Definition session_of (u : Users.row) : SessionPayload :=
  mkSession (Users.id u) (Users.name u) (Users.phone u) (Users.is_admin u).

(** [signSession(payload)], of auth.ts: the token is signed at the time of
    the request. *)
Definition signSession (payload : SessionPayload) : M Token :=
  at_ <- now ;;
  ret (mkToken payload at_).

(** The route handlers. [verify] has run: the caller is the [userId] of
    the session. [pool.connect()] and [client.release()] are left out: the
    handler's connection is the world's [tx]. *)

(** POST /api/auth/login *)
Definition post_auth_login (name phone : option jsstring) (authKey : jsstring)
    : M Response :=
  match name, phone with
  | Some (c :: r), Some (c' :: r') =>
      try_catch
        (user <- loginUser (c :: r) (c' :: r') authKey ;;
         s <- field user session_of ;;
         token <- signSession s ;;
         ret (json (LoginBody token s)))
        (fun _ => ret (fail 500 LOGIN_FAILED))
  | _, _ => ret (fail 400 NAME_AND_PHONE_REQUIRED)
  end.

(** POST /api/profile *)
Definition post_profile (caller : jsstring) (profile : Profile.t) : M Response :=
  try_catch
    (user <- updateUserProfile caller profile ;;
     s <- field user session_of ;;
     token <- signSession s ;;
     ret (json (ProfileBody token s)))
    (fun _ => ret (fail 500 PROFILE_FAILED)).

(** GET /api/weeks/:weekKey *)
Definition get_week (weekKey : jsstring) : M Response :=
  if negb (truthy (Some weekKey)) then ret (fail 400 WEEK_REQUIRED)
  else
    try_catch
      (BEGIN ;;
       week <- getWeek weekKey ;;
       COMMIT ;;
       parts <- fetchParts (fst week) ;;
       ret (json (WeekBody (fst week) (snd week) parts)))
      (fun _ => ROLLBACK ;; ret (fail 500 WEEK_FETCH_FAILED)).

(** The caller's row, after the profile sent with the request, if any, was
    merged into it: the first statements of the claim and reset handlers. *)
Definition resolve_caller (caller : jsstring) (profile : Profile.t)
    : M (option Users.row) :=
  user <- getUserById caller ;;
  if truthy (Profile.name profile) || truthy (Profile.phone profile)
  then updateUserProfile (Users.id user) profile
  else ret (Some user).

(** POST /api/weeks/:weekId/parts/:number/claim; [n] is [Number(number)]. *)
Definition post_claim (caller weekId : jsstring) (n : jsnumber) (profile : Profile.t)
    : M Response :=
  if negb (truthy (Some weekId)) || isNaN n then ret (fail 400 BAD_REQUEST)
  else
    try_catch
      (user <- resolve_caller caller profile ;;
       BEGIN ;;
       existing <- client_select (Sql.parts_by_key weekId n) ;;
       match existing with
       | [] => ROLLBACK ;; ret (fail 404 PART_NOT_FOUND)
       | row :: _ =>
           if truthy (Parts.claimed_by row)
           then ROLLBACK ;; ret (fail 409 ALREADY_CLAIMED)
           else
             user_name <- field user Users.name ;;
             let claimedName :=
               or_null (or_else (option_map trim (Profile.name profile)) user_name) in
             user_id <- field user Users.id ;;
             at_ <- now ;;
             client_write (UpdateClaim weekId n user_id claimedName at_) ;;
             COMMIT ;;
             user_is_admin <- field user Users.is_admin ;;
             let payload :=
               PartRow.mk n (Some user_id) claimedName (Some user_is_admin) in
             broadcastPartUpdate weekId payload ;;
             ret (json (PartBody payload))
       end)
      (fun _ => ROLLBACK ;; ret (fail 500 CLAIM_FAILED)).

(** POST /api/weeks/:weekId/parts/:number/release *)
Definition post_release (caller weekId : jsstring) (n : jsnumber) : M Response :=
  if negb (truthy (Some weekId)) || isNaN n then ret (fail 400 BAD_REQUEST)
  else
    try_catch
      (user <- getUserById caller ;;
       BEGIN ;;
       existing <- client_select (Sql.parts_by_key weekId n) ;;
       match existing with
       | [] => ROLLBACK ;; ret (fail 404 PART_NOT_FOUND)
       | row :: _ =>
           if negb (truthy (Parts.claimed_by row))
              || negb (opt_eqb (Parts.claimed_by row) (Some (Users.id user)))
           then ROLLBACK ;; ret (fail 403 NOT_OWNER)
           else
             client_write (UpdateRelease weekId n) ;;
             COMMIT ;;
             let payload := PartRow.mk n None None None in
             broadcastPartUpdate weekId payload ;;
             ret (json (PartBody payload))
       end)
      (fun _ => ROLLBACK ;; ret (fail 500 RELEASE_FAILED)).

(** POST /api/weeks/:weekKey/reset *)
Definition post_reset (caller weekKey : jsstring) (profile : Profile.t) : M Response :=
  if negb (truthy (Some weekKey)) then ret (fail 400 WEEK_REQUIRED)
  else
    try_catch
      (user <- resolve_caller caller profile ;;
       BEGIN ;;
       user_is_admin <- field user Users.is_admin ;;
       if negb user_is_admin
       then ROLLBACK ;; ret (fail 403 NOT_ADMIN)
       else
         week <- getWeek weekKey ;;
         client_write (UpdateReset (fst week)) ;;
         COMMIT ;;
         freshParts <- fetchParts (fst week) ;;
         emit (fst week) (WeekReset (fst week) freshParts) ;;
         ret (json (ResetBody (fst week) freshParts)))
      (fun _ => ROLLBACK ;; ret (fail 500 RESET_FAILED)).

(** PATCH /api/users/:userId/admin *)
Definition patch_admin (caller userId : jsstring) (makeAdmin : option bool)
    (weekId : option jsstring) (partNumber : option jsnumber) : M Response :=
  match makeAdmin with
  | None => ret (fail 400 INVALID_BODY)
  | Some makeAdmin_ =>
      try_catch
        (actor <- getUserById caller ;;
         if negb (Users.is_admin actor) then ret (fail 403 NOT_ADMIN)
         else
           update <- pool_query (Sql.update_user_admin userId makeAdmin_) ;;
           match update with
           | [] => ret (fail 404 USER_NOT_FOUND)
           | updated :: _ =>
               (match weekId, partNumber with
                | Some (c :: r), Some pn =>
                    if isInteger pn then
                      part <- pool_query
                                (fun d => Ok (Sql.part_with_claimant (c :: r) pn d, d)) ;;
                      match part with
                      | p :: _ => broadcastPartUpdate (c :: r) p
                      | [] => ret tt
                      end
                    else ret tt
                | _, _ => ret tt
                end) ;;
               ret (json (AdminBody userId (Users.is_admin updated)))
           end)
        (fun _ => ret (fail 500 ADMIN_TOGGLE_FAILED))
  end.

(** One request, served. *)
Definition handle (r : Request) : M Response :=
  match r with
  | Login name phone authKey => post_auth_login name phone authKey
  | PostProfile caller profile => post_profile caller profile
  | GetWeek weekKey => get_week weekKey
  | ClaimPart caller weekId n profile => post_claim caller weekId n profile
  | ReleasePart caller weekId n => post_release caller weekId n
  | ResetWeek caller weekKey profile => post_reset caller weekKey profile
  | SetAdmin caller userId makeAdmin weekId partNumber =>
      patch_admin caller userId makeAdmin weekId partNumber
  end.

(** The store after a request served with no transaction open and nothing
    else going on. *)
Definition serve (now : Z) (d : Db) (r : Request) : Outcome Response * Db :=
  let (o, w) := handle r (idle d now) in (o, db w).

(** The store after a list of requests, served one after the other. *)
Fixpoint serve_all (d : Db) (rs : list (Z * Request)) : Db :=
  match rs with
  | [] => d
  | (now, r) :: rest => serve_all (snd (serve now d r)) rest
  end.

(** The same when statements may fail or be overtaken: the request meets
    the schedule [s]. *)
Definition serve_under (s : list Hazard) (now : Z) (d : Db) (r : Request)
    : Outcome Response * Db :=
  let (o, w) := handle r (mkWorld d [] s [] now) in (o, db w).

Fixpoint serve_all_under (d : Db) (rs : list (list Hazard * Z * Request)) : Db :=
  match rs with
  | [] => d
  | (s, now, r) :: rest => serve_all_under (snd (serve_under s now d r)) rest
  end.

End Server.

(* ================================================================== *)
(** ** The spec's reading of the admin policy *)
(* ================================================================== *)

Section AdminPolicy.

Variable env : Env.

(** "name matches the configured admin name": a name is given and is the
    configured one. *)
Definition name_matches (name : option jsstring) : bool :=
  truthy name && opt_eqb name (Some (DEFAULT_ADMIN_NAME env)).

(** "phone is in the configured admin phone list". *)
Definition phone_listed (phone : option jsstring) : bool :=
  existsb (opt_eqb phone) (ADMIN_PHONE_LIST env).

(** The flag as the spec words it. *)
Definition spec_computeAdminFlag (name phone : option jsstring) (currentFlag : bool)
    : bool :=
  currentFlag || name_matches name || phone_listed phone.

End AdminPolicy.

(* ================================================================== *)
(** ** Predicates on stores and traces *)
(* ================================================================== *)

(** A part is free. *)
Definition free (p : Parts.row) : Prop :=
  Parts.claimed_by p = None /\ Parts.claimed_name p = None /\ Parts.claimed_at p = None.

(** The invariant as the spec words it: the three claim fields are null
    together. *)
Definition claim_fields_together (p : Parts.row) : Prop :=
  (Parts.claimed_by p = None <-> Parts.claimed_name p = None)
  /\ (Parts.claimed_name p = None <-> Parts.claimed_at p = None).

(** What the handlers keep: the claimant and the claim time are null
    together, and a free part has no claimant name. *)
Definition claim_fields_consistent (p : Parts.row) : Prop :=
  (Parts.claimed_by p = None <-> Parts.claimed_at p = None)
  /\ (Parts.claimed_by p = None -> Parts.claimed_name p = None).

(** The part numbers of a week, in table order. *)
Definition numbers_of (week_id : jsstring) (d : Db) : list Z :=
  map Parts.number (filter (in_week week_id) (parts d)).

(** Every week has the parts 1 to 30 and no other, and every part belongs
    to a week. *)
Definition weeks_complete (d : Db) : Prop :=
  NoDup (map Weeks.id (weeks d))
  /\ (forall k, In k (weeks d) -> numbers_of (Weeks.id k) d = generate_series_1_30)
  /\ (forall p, In p (parts d) -> In (Parts.week_id p) (map Weeks.id (weeks d))).

(** The broadcasts of a trace. *)
Fixpoint emits (t : list Obs) : list (jsstring * Event) :=
  match t with
  | [] => []
  | ObsEmit room ev :: r => (room, ev) :: emits r
  | _ :: r => emits r
  end.

(** The response is a success. *)
Definition succeeded (o : Outcome Response) : Prop :=
  exists b, o = Ok (json b).

(** The three operations that change parts. *)
Definition mutating (r : Request) : bool :=
  match r with
  | ClaimPart _ _ _ _ | ReleasePart _ _ _ | ResetWeek _ _ _ => true
  | _ => false
  end.

(** A free part row of the API. *)
Definition free_row (n : Z) : PartRow.t := PartRow.mk (of_Z n) None None None.

(** The name a claim records. *)
Definition claimed_name_of (profile : Profile.t) (u : Users.row) : option jsstring :=
  or_null (or_else (option_map trim (Profile.name profile)) (Users.name u)).

(** The writes one request can commit on the store [d]. *)
Inductive commits (gen_id : list jsstring -> jsstring) (d : Db) : list Write -> Prop :=
| commits_nothing :
    commits gen_id d []
| commits_claim wid n by_ nm at_ :
    commits gen_id d [UpdateClaim wid n by_ nm at_]
| commits_release wid n :
    commits gen_id d [UpdateRelease wid n]
| commits_reset wid :
    commits gen_id d [UpdateReset wid]
| commits_week key :
    commits gen_id d [InsertWeek (gen_id (map Weeks.id (weeks d))) key;
                      InsertParts (gen_id (map Weeks.id (weeks d)))]
| commits_week_reset key :
    commits gen_id d [InsertWeek (gen_id (map Weeks.id (weeks d))) key;
                      InsertParts (gen_id (map Weeks.id (weeks d)));
                      UpdateReset (gen_id (map Weeks.id (weeks d)))].

(** The world of a week lookup that loses a race: its BEGIN and its two
    selects go through, and before its insert reaches the store another
    connection commits [other]. *)
Definition overtaken_at_insert (other : Db -> Db) (d : Db) (now : Z) : World :=
  mkWorld d [] [Quiet; Quiet; Quiet; Concurrent other] [] now.

(** The trace [t'] continues [t] with no broadcast. *)
Definition quiet_from (t t' : list Obs) : Prop :=
  exists ext, t' = t ++ ext /\ emits ext = [].

(** The trace [t'] continues [t] with one broadcast, the last entry, right
    after a COMMIT. *)
Definition committed_then_emitted (t t' : list Obs) : Prop :=
  exists ext room ev,
    t' = t ++ ext ++ [ObsCommit; ObsEmit room ev] /\ emits ext = [].

(** A computation that never broadcasts. *)
Definition silent {A} (m : M A) : Prop :=
  forall w, quiet_from (trace w) (trace (snd (m w))).

(** A computation that leaves the trace alone. *)
Definition traceless {A} (m : M A) : Prop :=
  forall w, trace (snd (m w)) = trace w.

(** A computation that at most ends on one broadcast and a success. *)
Definition emits_last (m : M Response) : Prop :=
  forall w,
    trace (snd (m w)) = trace w
    \/ (succeeded (fst (m w))
        /\ exists room ev, trace (snd (m w)) = trace w ++ [ObsEmit room ev]).

(** A handler that broadcasts only when it succeeds, once, right after its
    COMMIT. *)
Definition emits_only_after_commit (m : M Response) : Prop :=
  forall w,
    quiet_from (trace w) (trace (snd (m w)))
    \/ (succeeded (fst (m w))
        /\ committed_then_emitted (trace w) (trace (snd (m w)))).

(** A schedule on which no other connection commits: every statement goes
    through or fails. *)
Definition calm (s : list Hazard) : Prop :=
  Forall (fun h => match h with Concurrent _ => False | _ => True end) s.

(** [hoare P m Q X]: started in a world of [P], [m] ends in a world of
    [Q] when it returns and in a world of [X] when it throws. *)
Definition hoare {A} (P : World -> Prop) (m : M A)
    (Q : A -> World -> Prop) (X : World -> Prop) : Prop :=
  forall w, P w ->
    match m w with
    | (Ok a, w') => Q a w'
    | (Throw _, w') => X w'
    end.

(** Inside a request that started on the store [d0]: weeks and parts are
    still those of [d0] and the open transaction holds a write list of
    [L]. *)
Definition during (d0 : Db) (L : list Write -> Prop) (w : World) : Prop :=
  calm (sched w) /\ weeks (db w) = weeks d0 /\ parts (db w) = parts d0 /\ L (tx w).

(** After a throw: the store is good, the transaction may hold
    anything. *)
Definition failed (Good : Db -> Prop) (w : World) : Prop :=
  calm (sched w) /\ Good (db w).

(** At the end of a request: the store is good and no transaction is
    open. *)
Definition after (Good : Db -> Prop) (w : World) : Prop :=
  calm (sched w) /\ Good (db w) /\ tx w = [].

(** A statement of [pool.query] that touches neither weeks nor parts. *)
Definition keeps_weeks_parts {A} (q : Db -> Outcome (A * Db)) : Prop :=
  forall d,
    match q d with
    | Ok (_, d') => weeks d' = weeks d /\ parts d' = parts d
    | Throw _ => True
    end.

(* ================================================================== *)
(** ** Sample data *)
(* ================================================================== *)

Module Sample.

Definition env : Env := mkEnv None None.

(** Ids "i", "ii", "iii", ...: one unit longer than the longest id in
    use. *)
Definition gen_id (l : list jsstring) : jsstring :=
  repeat 105%N (S (list_max (map (@List.length N) l))).

Definition i1 : jsstring := str "i".
Definition i2 : jsstring := str "ii".

Definition W1 : jsstring := str "W1".

(** A login with a blank name: the stored name is null. *)
Definition login_blank : Request :=
  Login (Some (str "  ")) (Some (str "0501")) (str "key-1").

Definition login_ali : Request :=
  Login (Some (str "Ali")) (Some (str "0502")) (str "key-2").

(** A login under the built-in admin name. *)
Definition login_admin : Request :=
  Login (Some builtin_admin_name) (Some (str "0503")) (str "key-3").

Definition five : jsnumber := of_Z 5.

(** One user with no name, one week. *)
Definition story_blank : list (Z * Request) :=
  [(1, login_blank); (2, GetWeek W1); (3, ClaimPart i1 i1 five Profile.none)].

Definition db_blank : Db := serve_all env gen_id empty_db story_blank.

(** Ali ("i") holds part 5 of week "i"; a second user ("ii") is plain. *)
Definition story_two : list (Z * Request) :=
  [(1, login_ali); (2, login_blank); (3, GetWeek W1);
   (4, ClaimPart i1 i1 five Profile.none)].

Definition db_two : Db := serve_all env gen_id empty_db story_two.

(** An admin ("i") and a plain user ("ii") who holds part 5 of week "i". *)
Definition story_admin : list (Z * Request) :=
  [(1, login_admin); (2, login_ali); (3, GetWeek W1);
   (4, ClaimPart i2 i1 five Profile.none)].

Definition db_admin : Db := serve_all env gen_id empty_db story_admin.

(** The story of [db_two] again, with a week lookup that loses its
    connection between the insert of the week and the insert of its parts,
    and is then repeated. *)
Definition story_faulty : list (list Hazard * Z * Request) :=
  [([], 1, login_ali); ([], 2, login_blank);
   ([Quiet; Quiet; Quiet; Quiet; Fault], 3, GetWeek W1);
   ([], 3, GetWeek W1);
   ([], 4, ClaimPart i1 i1 five Profile.none)].

End Sample.

(** More sample data: requests and the stores they meet. *)
Module Scene.

Import Sample.

Definition seven : jsnumber := of_Z 7.

(** 2.5 *)
Definition two_and_a_half : jsnumber := Finite (Qmake 5 2).

(** A column [number] that holds integers, which is what the sources
    point to: [generate_series(1,30)] fills it, and the admin toggle looks
    a part up only after [Number.isInteger(partNumber)]. It reads whole
    numbers and no other. *)
Definition integer_column (n : jsnumber) : bool := isInteger n.

(** A profile that renames its sender. *)
Definition zed : Profile.t := Profile.mk (Some (str " Zed ")) None.

(** A profile under the built-in admin name. *)
Definition boss : Profile.t := Profile.mk (Some builtin_admin_name) None.

(** The second user of [db_two], renamed by [zed]. *)
Definition user_zed : Users.row :=
  Users.mk i2 (str "key-1") (Some (str "Zed")) (Some (str "+0501")) false.

(** [db_two] after the second user sent [zed]. *)
Definition db_two_zed : Db :=
  db (snd (resolve_caller env i2 zed (idle db_two 9))).

Definition user_ali : Users.row :=
  Users.mk i1 (str "key-2") (Some (str "Ali")) (Some (str "+0502")) false.

Definition user_admin : Users.row :=
  Users.mk i1 (str "key-3") (Some builtin_admin_name) (Some (str "+0503")) true.

(** The plain user of [db_admin]. *)
Definition user_ali_2 : Users.row :=
  Users.mk i2 (str "key-2") (Some (str "Ali")) (Some (str "+0502")) false.

Definition W2 : jsstring := str "W2".

(** Another connection looks the same week up, to the end. *)
Definition other_lookup (d : Db) : Db := snd (serve env gen_id 1 d (GetWeek W1)).

(** Another connection serves the admin toggle by which the admin "i" of
    [db_admin] makes the user "ii" an admin, to the end. *)
Definition grant (d : Db) : Db :=
  snd (serve env gen_id 5 d (SetAdmin i1 i2 (Some true) None None)).

(** The schedule of a profile update that is overtaken by [grant] between
    its read of the row and its write. *)
Definition overtaken_at_update : list Hazard := [Quiet; Concurrent grant].

End Scene.

(* ================================================================== *)
(** ** Well-formed user tables *)
(* ================================================================== *)

(** A phone as [normalizePhone] leaves it: a "+" first and no white
    space. *)
Definition is_normalized_phone (p : jsstring) : bool :=
  starts_with_plus p && forallb (fun c => negb (is_space c)) p.

(** A user row as the handlers write it: an id, a name that is null or not
    empty, a phone that is null or normalized. *)
Definition user_ok (u : Users.row) : Prop :=
  Users.id u <> []
  /\ Users.name u <> Some []
  /\ (forall p, Users.phone u = Some p -> is_normalized_phone p = true).

(** No two users share a phone. *)
Definition phones_unique (l : list Users.row) : Prop :=
  forall u v, In u l -> In v l ->
    Users.phone u <> None -> Users.phone u = Users.phone v -> Users.id u = Users.id v.

Definition users_ok (d : Db) : Prop :=
  NoDup (map Users.id (users d))
  /\ Forall user_ok (users d)
  /\ phones_unique (users d).

(** A schedule whose concurrent commits keep [I]. *)
Definition respects (I : Db -> Prop) (s : list Hazard) : Prop :=
  Forall (fun h => match h with
                   | Concurrent f => forall d, I d -> I (f d)
                   | _ => True
                   end) s.

(** A world whose users are well formed and stay so under the commits of
    other connections. *)
Definition settled (w : World) : Prop :=
  users_ok (db w) /\ respects users_ok (sched w).

(** A computation that keeps a settled world settled, whether it returns
    or throws. *)
Definition steady {A} (m : M A) : Prop :=
  hoare settled m (fun _ => settled) settled.

(** A step that at most ends on one broadcast, and returns when it
    broadcasts. *)
Definition emits_at_end (m : M unit) : Prop :=
  forall w,
    trace (snd (m w)) = trace w
    \/ (fst (m w) = Ok tt
        /\ exists room ev, trace (snd (m w)) = trace w ++ [ObsEmit room ev]).

(** The requests that never broadcast. *)
Definition reads_or_signs_in (r : Request) : bool :=
  match r with
  | Login _ _ _ | PostProfile _ _ | GetWeek _ => true
  | _ => false
  end.

(** No two parts share a week and a number. *)
Definition part_keys_unique (d : Db) : Prop :=
  forall p q, In p (parts d) -> In q (parts d) ->
    Parts.week_id p = Parts.week_id q -> Parts.number p = Parts.number q -> p = q.

(** Inside a request that started on the store [d0] and has committed
    nothing: weeks and parts are those of [d0]. *)
Definition untouched (d0 : Db) (w : World) : Prop :=
  during d0 (fun _ => True) w.

(** The response is a success, or nothing was committed. *)
Definition answered_or_untouched (d0 : Db) (r : Response) (w : World) : Prop :=
  succeeded (Ok r) \/ untouched d0 w.

(** The statements of a reset of a week that exists go through up to its
    COMMIT, and the snapshot query that follows is lost. *)
Definition lost_at_snapshot : list Hazard := [Quiet; Quiet; Quiet; Quiet; Quiet; Fault].

(** The declaration of [parts] is not among the sources, so the type of
    the column [number] is a parameter: [reads n] tells whether the store
    can read the parameter [n] as a value of that column. The lookup of a
    part by a number the store cannot read is a statement that fails. *)
Definition lookup_hazard (reads : jsnumber -> bool) (n : jsnumber) : Hazard :=
  if reads n then Quiet else Fault.

(** The schedule of a claim or a release on which nothing goes on but the
    store's reading of the part number: [before] statements go through
    before the part is looked up. *)
Definition until_lookup (before : nat) (reads : jsnumber -> bool) (n : jsnumber)
    : list Hazard :=
  repeat Quiet before ++ [lookup_hazard reads n].

(** The statements a claim sends before it looks the part up: the select
    of the caller, the select and the update of [updateUserProfile] when
    the request carries a profile, and BEGIN. A release sends two: the
    select of the caller and BEGIN. *)
Definition statements_before_lookup (profile : Profile.t) : nat :=
  if truthy (Profile.name profile) || truthy (Profile.phone profile) then 4 else 2.

(** Any world. *)
Definition anywhere (w : World) : Prop := True.

(** The key of a part. *)
Definition part_key (p : Parts.row) : jsstring * Z := (Parts.week_id p, Parts.number p).

(** The store [d'] has the weeks of [d] and parts of the same keys, in the
    same order: only users and claim fields may differ. *)
Definition same_shape (d d' : Db) : Prop :=
  weeks d' = weeks d /\ map part_key (parts d') = map part_key (parts d).

(** What another connection commits keeps the weeks and the keys of the
    parts: a login, a profile update, an admin toggle, a claim, a release,
    a reset of a week that exists, but no new week. *)
Definition keeps_shape (f : Db -> Db) : Prop := forall d, same_shape d (f d).

(** A schedule on which the other connections create no week. *)
Definition tame (s : list Hazard) : Prop :=
  Forall (fun h => match h with Concurrent f => keeps_shape f | _ => True end) s.




(* ================================================================== *)
(** ** The web client *)
(* ================================================================== *)

(** [web/src/components/Login.tsx]: what the form checks and sends. *)
Module LoginForm.

(** [\d] *)
Definition is_digit (c : N) : bool := N.leb 48 c && N.leb c 57.

(** [phoneRegex.test(s)], for [/^\+\d{6,15}$/]. *)
Definition phoneRegex_test (s : jsstring) : bool :=
  match s with
  | c :: ds =>
      N.eqb c plus_sign && forallb is_digit ds
      && Nat.leb 6 (List.length ds) && Nat.leb (List.length ds) 15
  | [] => false
  end.

(** [phone.trim().startsWith("+") ? phone.trim()
     : `+${phone.trim().replace(/^\+/, "")}`]. *)
Definition normalizedPhone (phone : jsstring) : jsstring :=
  if starts_with_plus (trim phone) then trim phone
  else plus_sign :: strip_leading_plus (trim phone).

(** How [submit] leaves the form: with one of its two messages, or with
    the body it posts to /api/auth/login. *)
Inductive Submitted : Type :=
| NameMissing
| PhoneInvalid
| Posted (name phone : jsstring).

Definition submit (name phone : jsstring) : Submitted :=
  let trimmedName := trim name in
  let normalizedPhone_ := normalizedPhone phone in
  if negb (truthy (Some trimmedName)) then NameMissing
  else if negb (phoneRegex_test normalizedPhone_) then PhoneInvalid
  else Posted trimmedName normalizedPhone_.

(** The profile [submit] keeps under "khatma_profile" once the server has
    answered; the app sends it with the profile sync, the claims and the
    reset. *)
Definition profile (name phone : jsstring) : Profile.t :=
  Profile.mk (Some name) (Some phone).

End LoginForm.

(** [web/src/components/Board.tsx]: the parts the board shows and how the
    socket events and the clicks change them. *)
Module Board.

(** [Part]. The keys [claimed_name] and [claimed_is_admin] are optional:
    [None] is a key that is absent, [Some None] is null. *)
Record Part : Type := mk {
  number : jsnumber;
  claimed_by : option jsstring;
  claimed_name : option (option jsstring);
  claimed_is_admin : option (option bool)
}.

(** [a === b] on numbers. *)
Definition num_strict_eq (a b : jsnumber) : bool :=
  match a, b with
  | Finite p, Finite q => Qeq_bool p q
  | Infinity s, Infinity t => Bool.eqb s t
  | _, _ => false
  end.

(** [{ ...existing, ...part }]: the keys of [part] win. *)
Definition spread (existing part : Part) : Part :=
  mk (number part) (claimed_by part)
     (match claimed_name part with
      | Some v => Some v
      | None => claimed_name existing
      end)
     (match claimed_is_admin part with
      | Some v => Some v
      | None => claimed_is_admin existing
      end).

(** The handler of "part:update". *)
Definition part_update (part : Part) (prev : list Part) : list Part :=
  map (fun existing =>
         if num_strict_eq (number existing) (number part)
         then spread existing part
         else existing) prev.

(** The handler of "week:reset"; [weekId] is the week the board loaded. *)
Definition week_reset (weekId payload_weekId : jsstring) (payload_parts prev : list Part)
    : list Part :=
  if eqb payload_weekId weekId then payload_parts else prev.

(** [reservedCount]. *)
Definition reservedCount (parts : list Part) : Z :=
  fold_left (fun acc part => if truthy (claimed_by part) then acc + 1 else acc) parts 0.

Definition isMine (userId : jsstring) (part : Part) : bool :=
  truthy (claimed_by part) && opt_eqb (claimed_by part) (Some userId).

Definition isTaken (part : Part) : bool := truthy (claimed_by part).

(** The [disabled] attribute of a part's button. *)
Definition disabled (userId : jsstring) (part : Part) : bool :=
  negb (isMine userId part) && isTaken part.

(** What a click on a part's button does. *)
Inductive Click : Type :=
| Ignored
| LoginFirst
| PostClaim (weekId : jsstring) (number : jsnumber) (profile : option Profile.t)
| PostRelease (weekId : jsstring) (number : jsnumber).

(** [toggle(number, part)], up to the request it sends. *)
Definition toggle (weekId userId : jsstring) (profile : option Profile.t)
    (number : jsnumber) (part : Part) : Click :=
  if negb (truthy (Some weekId)) then Ignored
  else if negb (truthy (Some userId)) then LoginFirst
  else if negb (truthy (claimed_by part)) then PostClaim weekId number profile
  else PostRelease weekId number.

(** The request the server routes for a click of the user [userId]: the
    number travels in the path and the profile, if any, in the body. *)
Definition request_of (userId : jsstring) (c : Click) : option Request :=
  match c with
  | PostClaim weekId n profile =>
      Some (ClaimPart userId weekId n
              match profile with
              | Some p => p
              | None => Profile.none
              end)
  | PostRelease weekId n => Some (ReleasePart userId weekId n)
  | _ => None
  end.

(** A row of the server as the board receives it: the server sends the
    four keys, null when there is nothing to show. *)
Definition received (r : PartRow.t) : Part :=
  mk (PartRow.number r) (PartRow.claimed_by r)
     (Some (PartRow.claimed_name r)) (Some (PartRow.claimed_is_admin r)).

End Board.

(** [web/src/lib/api.ts] and [server/src/auth.ts]: the session token, from
    the browser's storage to the server's [verify]. *)
Module Api.

(** [localStorage]: the items it holds, and whether the browser lets the
    page use it; every call throws when it does not. *)
Record Storage : Type := mkStorage {
  items : list (jsstring * jsstring);
  usable : bool
}.

Definition getItem (key : jsstring) (l : list (jsstring * jsstring)) : option jsstring :=
  option_map snd (find (fun kv => eqb (fst kv) key) l).

Definition removeItem (key : jsstring) (l : list (jsstring * jsstring))
    : list (jsstring * jsstring) :=
  filter (fun kv => negb (eqb (fst kv) key)) l.

Definition setItem (key value : jsstring) (l : list (jsstring * jsstring))
    : list (jsstring * jsstring) :=
  (key, value) :: removeItem key l.

Definition TOKEN_KEY : jsstring := str "khatma_token".

Definition getSessionToken (s : Storage) : option jsstring :=
  if usable s then getItem TOKEN_KEY (items s) else None.

Definition setSessionToken (token : option jsstring) (s : Storage) : Storage :=
  if usable s then
    match token with
    | Some (c :: r) => mkStorage (setItem TOKEN_KEY (c :: r) (items s)) true
    | _ => mkStorage (removeItem TOKEN_KEY (items s)) true
    end
  else s.

Definition clearSession (s : Storage) : Storage :=
  let s1 := setSessionToken None s in
  if usable s1 then
    mkStorage (removeItem (str "khatma_isAdmin")
                 (removeItem (str "khatma_myDbUserId") (items s1))) true
  else s1.

(** An object used as a record of strings, its keys in insertion order. *)
Definition Headers : Type := list (jsstring * jsstring).

Definition header (name : jsstring) (h : Headers) : option jsstring := getItem name h.

(** [{ ...target, ...source }]. *)
Definition spread (target source : Headers) : Headers :=
  fold_left (fun o kv =>
               if existsb (fun x => eqb (fst x) (fst kv)) o
               then map (fun x => if eqb (fst x) (fst kv) then kv else x) o
               else o ++ [kv])
            source target.

Definition Bearer : jsstring := str "Bearer ".

(** The headers [authed] sends: [init_headers] is [init?.headers], a plain
    object when present. *)
Definition authed_headers (init_headers : option Headers) (s : Storage) : Headers :=
  let token := getSessionToken s in
  spread
    (spread [(str "Content-Type", str "application/json")]
            (match init_headers with Some h => h | None => [] end))
    (match token with
     | Some (c :: r) => [(str "Authorization", Bearer ++ (c :: r))]
     | _ => []
     end).

(** [header.startsWith(prefix)]. *)
Fixpoint starts_with (prefix s : jsstring) : bool :=
  match prefix, s with
  | [], _ => true
  | p :: prefix', c :: s' => N.eqb p c && starts_with prefix' s'
  | _ :: _, [] => false
  end.

(** How [verify] leaves the request: answered with 401, or passed on with
    its session. *)
Inductive Verified : Type :=
| Refused (status : Z) (text : string)
| Next (session : SessionPayload).

Section Verify.

(** [jwt.verify(token, AUTH_SECRET)], of the library jsonwebtoken. *)
Variable jwt_verify : jsstring -> Outcome SessionPayload.

(** [verify], given [req.headers.authorization]. *)
Definition verify (authorization : option jsstring) : Verified :=
  let header := match or_else authorization (Some []) with
                | Some h => h
                | None => []
                end in
  if negb (starts_with Bearer header) then Refused 401 "NO_TOKEN"
  else
    match jwt_verify (skipn 7 header) with
    | Ok decoded => Next decoded
    | Throw _ => Refused 401 "BAD_TOKEN"
    end.

End Verify.

End Api.

(* ================================================================== *)
(** ** The earlier build *)
(* ================================================================== *)

(** The compiled server of an earlier build: users are keyed by the uid
    of their verified token and made on first use. *)
Module Legacy.

(** [coalesce(a, b)]. *)
Definition coalesce (a b : option jsstring) : option jsstring :=
  match a with
  | Some _ => a
  | None => b
  end.

Section EnsureUser.

(** [process.env.ADMIN_UIDS]. *)
Variable ADMIN_UIDS : option jsstring.

Variable gen_id : list jsstring -> jsstring.

(** The table's declaration is not among the sources: [refused] stands for
    the constraints a written row may break besides the uniqueness of
    [firebase_uid], which the statement itself names. *)
Variable refused : Users.row -> Db -> bool.

(** [(process.env.ADMIN_UIDS || "").split(",").map((x) => x.trim())
     .filter(Boolean)]. *)
Definition adminUids : list jsstring :=
  match or_else ADMIN_UIDS (Some []) with
  | Some s => filter (fun x => truthy (Some x)) (map trim (split_comma s))
  | None => []
  end.

(** [insert into users (firebase_uid, name, phone, is_admin)
     values ($1, $2, $3, $4)
     on conflict (firebase_uid) do update set
       name = coalesce(excluded.name, users.name),
       phone = coalesce(excluded.phone, users.phone),
       is_admin = users.is_admin or excluded.is_admin
     returning id, name, phone, is_admin]. *)
Definition upsert_user (uid : jsstring) (name phone : option jsstring) (is_admin : bool)
    (d : Db) : Outcome (list Users.row * Db) :=
  let hit u := eqb (Users.firebase_uid u) uid in
  let set u :=
    Users.mk (Users.id u) (Users.firebase_uid u)
             (coalesce name (Users.name u)) (coalesce phone (Users.phone u))
             (Users.is_admin u || is_admin) in
  if existsb hit (users d) then
    if existsb (fun u => refused (set u) d) (filter hit (users d))
    then Throw (UniqueViolation "users")
    else
      Ok (map set (filter hit (users d)),
          mkDb (map (fun u => if hit u then set u else u) (users d)) (weeks d) (parts d))
  else
    let u := Users.mk (gen_id (map Users.id (users d))) uid name phone is_admin in
    if refused u d then Throw (UniqueViolation "users")
    else Ok ([u], mkDb (users d ++ [u]) (weeks d) (parts d)).

Definition ensureUser (firebaseUid : jsstring) (profile : Profile.t)
    : M (option Users.row) :=
  let wantsAdmin := existsb (eqb firebaseUid) adminUids in
  let name := or_null (option_map trim (Profile.name profile)) in
  let phone := or_null (option_map trim (Profile.phone profile)) in
  rows <- pool_query (upsert_user firebaseUid name phone wantsAdmin) ;;
  ret (hd_error rows).

End EnsureUser.

End Legacy.

(** Sample data for the login, the board and the session token. *)
Module Tour.

Import Sample Scene.

Definition omar : jsstring := str "Omar".

(** A login under a phone no user of [db_two] has. *)
Definition login_omar : Request := Login (Some omar) (Some (str "0599")) (str "key-9").

(** The same name and phone, sent from another device. *)
Definition login_omar_again : Request :=
  Login (Some omar) (Some (str "0599")) (str "key-10").

Definition session_omar : SessionPayload :=
  mkSession (str "iii") (Some omar) (Some (str "+0599")) false.

(** The built-in admin phone as one may type it. *)
Definition admin_phone_typed : jsstring := str "+971 52 378 3612".

(** A profile with the phone of Ali. *)
Definition phone_of_ali : Profile.t := Profile.mk None (Some (str "0502")).

(** The second user of [db_two]. *)
Definition user_blank : Users.row :=
  Users.mk i2 (str "key-1") None (Some (str "+0501")) false.

(** Part 5 of week "i" as Ali holds it in [db_two]. *)
Definition part5_of_ali : Parts.row :=
  Parts.mk i1 5 (Some i1) (Some (str "Ali")) (Some 4).

(** Part 5 of week "i" as the plain user holds it in [db_admin]. *)
Definition part5_of_plain : Parts.row :=
  Parts.mk i1 5 (Some i2) (Some (str "Ali")) (Some 4).

Definition part7_free : Parts.row := Parts.mk i1 7 None None None.

(** What the form is given, blanks around the name and no "+". *)
Definition typed_name : jsstring := str " Omar ".
Definition typed_phone : jsstring := str " 963123456 ".
Definition sent_phone : jsstring := str "+963123456".

(** The second user claims part 7 and sends the profile [zed] along. *)
Definition zed_claims_seven : Request := ClaimPart i2 i1 seven zed.

Definition payload_seven : PartRow.t :=
  PartRow.mk seven (Some i2) (Some (str "Zed")) (Some false).

Definition db_seven : Db := snd (serve env gen_id 9 db_two zed_claims_seven).

(** The admin of [db_admin] resets the week. *)
Definition admin_resets : Request := ResetWeek i1 W1 Profile.none.

Definition db_reset : Db := snd (serve env gen_id 9 db_admin admin_resets).

Definition token : jsstring := str "t0k3n".

Definition storage : Api.Storage :=
  Api.mkStorage [(str "khatma_profile", str "{}"); (Api.TOKEN_KEY, token)] true.

Definition session_ali : SessionPayload :=
  mkSession i1 (Some (str "Ali")) (Some (str "+0502")) false.

(** A [jwt.verify] that knows one token. *)
Definition jwt_verify (t : jsstring) : Outcome SessionPayload :=
  if eqb t token then Ok session_ali else Throw (JsError "invalid token").

(** ADMIN_UIDS of the earlier build. *)
Definition admin_uids : option jsstring := Some (str "key-1, key-7").

Definition no_other_constraint (u : Users.row) (d : Db) : bool := false.

Definition user_zed_admin : Users.row :=
  Users.mk i2 (str "key-1") (Some (str "Zed")) (Some (str "+0501")) true.

End Tour.

(* ================================================================== *)
(** * Properties *)
(* ================================================================== *)

Unset Implicit Arguments.

(* ================================================================== *)
(** ** Strings and lists *)
(* ================================================================== *)

Lemma eqb_refl (a : jsstring) : eqb a a = true.
Proof.
  induction a as [|x a IH]; simpl; [reflexivity|].
  now rewrite N.eqb_refl, IH.
Qed.

Lemma eqb_eq (a b : jsstring) : eqb a b = true <-> a = b.
Proof.
  split.
  - revert b. induction a as [|x a IH]; destruct b as [|y b]; simpl;
      try discriminate; [reflexivity|].
    intros H. apply andb_true_iff in H as [Hx Hr].
    apply N.eqb_eq in Hx. apply IH in Hr. now subst.
  - intros ->. apply eqb_refl.
Qed.

Lemma eqb_neq (a b : jsstring) : eqb a b = false <-> a <> b.
Proof.
  split.
  - intros H E. apply eqb_eq in E. congruence.
  - intros H. destruct (eqb a b) eqn:E; [|reflexivity].
    apply eqb_eq in E. contradiction.
Qed.

Lemma opt_eqb_eq (a b : option jsstring) : opt_eqb a b = true <-> a = b.
Proof.
  destruct a as [x|], b as [y|]; simpl; try (split; congruence).
  rewrite eqb_eq. split; congruence.
Qed.

Lemma num_eqb_of_Z (a b : Z) : num_eqb (of_Z a) b = Z.eqb a b.
Proof.
  unfold num_eqb, of_Z, Qeq_bool, inject_Z. simpl.
  now rewrite !Z.mul_1_r.
Qed.

Lemma filter_nil_existsb {A} (f : A -> bool) (l : list A) :
  filter f l = [] -> existsb f l = false.
Proof.
  induction l as [|x l IH]; simpl; [reflexivity|].
  destruct (f x); [discriminate|]. exact IH.
Qed.

Lemma filter_cons_existsb {A} (f : A -> bool) (l : list A) x r :
  filter f l = x :: r -> existsb f l = true.
Proof.
  intros H. apply existsb_exists. exists x.
  assert (In x (filter f l)) as Hin by (rewrite H; now left).
  now apply filter_In in Hin.
Qed.

Lemma filter_head {A} (f : A -> bool) (l : list A) x r :
  filter f l = x :: r -> In x l /\ f x = true.
Proof.
  intros H. apply filter_In. rewrite H. now left.
Qed.

(* ================================================================== *)
(** ** The admin policy *)
(* ================================================================== *)

Section AdminPolicyFacts.

Variable env : Env.

Lemma ADMIN_PHONE_LIST_truthy (p : option jsstring) :
  In p (ADMIN_PHONE_LIST env) -> truthy p = true.
Proof.
  unfold ADMIN_PHONE_LIST.
  destruct (or_else _ _); [|intros []].
  intros H. now apply filter_In in H.
Qed.

Lemma phone_listed_truthy (phone : option jsstring) :
  phone_listed env phone = true -> truthy phone = true.
Proof.
  unfold phone_listed. intros H.
  apply existsb_exists in H as [p [Hin Heq]].
  apply opt_eqb_eq in Heq. subst. now apply ADMIN_PHONE_LIST_truthy.
Qed.

Lemma computeAdminFlag_spec (name phone : option jsstring) (current : bool) :
  computeAdminFlag env name phone current = spec_computeAdminFlag env name phone current.
Proof.
  unfold computeAdminFlag, spec_computeAdminFlag, name_matches.
  f_equal; [f_equal|].
  - destruct (truthy name) eqn:Hn; [|now rewrite andb_false_r].
    destruct (opt_eqb name (Some (DEFAULT_ADMIN_NAME env))) eqn:He;
      [|now rewrite andb_false_r].
    apply opt_eqb_eq in He. subst. now rewrite Hn.
  - fold (phone_listed env phone).
    destruct (phone_listed env phone) eqn:Hp; [|apply andb_false_r].
    now rewrite (phone_listed_truthy _ Hp).
Qed.

End AdminPolicyFacts.

(* ================================================================== *)
(** ** Statements and helpers on a quiet connection *)
(* ================================================================== *)

Section QuietRuns.

Variable env : Env.
Variable gen_id : list jsstring -> jsstring.

Lemma update_user_keeps id name phone adm d rows d' :
  Sql.update_user id name phone adm d = Ok (rows, d') ->
  weeks d' = weeks d /\ parts d' = parts d.
Proof.
  unfold Sql.update_user. destruct (_ && _); [discriminate|].
  intros H. inversion H; subst. now split.
Qed.

Lemma getUserById_quiet id d tr c :
  getUserById id (mkWorld d [] [] tr c) =
  match Sql.users_by_id id d with
  | u :: _ => (Ok u, mkWorld d [] [] tr c)
  | [] => (Throw (JsError "USER_NOT_FOUND"), mkWorld d [] [] tr c)
  end.
Proof.
  unfold getUserById, pool_query, bind, hazard. cbn.
  destruct (Sql.users_by_id id d); reflexivity.
Qed.

Lemma updateUserProfile_quiet id p d tr c :
  updateUserProfile env id p (mkWorld d [] [] tr c) =
  match Sql.users_by_id id d with
  | existing :: _ =>
      let name := or_else (option_map trim (Profile.name p)) (Users.name existing) in
      let phone := normalizePhone (or_else (Profile.phone p) (Users.phone existing)) in
      let isAdmin := computeAdminFlag env name phone (Users.is_admin existing) in
      match Sql.update_user id name phone isAdmin d with
      | Ok (rows, d') => (Ok (hd_error rows), mkWorld d' [] [] tr c)
      | Throw e => (Throw e, mkWorld d [] [] tr c)
      end
  | [] => (Throw (JsError "USER_NOT_FOUND"), mkWorld d [] [] tr c)
  end.
Proof.
  unfold updateUserProfile. unfold bind at 1. rewrite getUserById_quiet.
  destruct (Sql.users_by_id id d) as [|u us]; [reflexivity|].
  unfold pool_query, bind, hazard. cbn.
  destruct (Sql.update_user _ _ _ _ _) as [[rows d']|e]; reflexivity.
Qed.

(** Resolving the caller leaves a quiet world quiet and touches neither
    weeks nor parts. *)
Lemma resolve_caller_quiet caller p d tr c :
  exists o d',
    resolve_caller env caller p (mkWorld d [] [] tr c) = (o, mkWorld d' [] [] tr c)
    /\ weeks d' = weeks d /\ parts d' = parts d
    /\ (truthy (Profile.name p) || truthy (Profile.phone p) = false -> d' = d).
Proof.
  unfold resolve_caller. unfold bind at 1. rewrite getUserById_quiet.
  destruct (Sql.users_by_id caller d) as [|u us];
    [do 2 eexists; repeat split; reflexivity|].
  destruct (truthy (Profile.name p) || truthy (Profile.phone p));
    [|do 2 eexists; repeat split; reflexivity].
  rewrite updateUserProfile_quiet.
  destruct (Sql.users_by_id (Users.id u) d) as [|u' us'];
    [do 2 eexists; repeat split; (reflexivity || discriminate)|].
  cbv zeta.
  destruct (Sql.update_user _ _ _ _ _) as [[rows d']|e] eqn:E.
  - apply update_user_keeps in E as [? ?].
    do 2 eexists; repeat split; (reflexivity || discriminate || assumption).
  - do 2 eexists; repeat split; (reflexivity || discriminate).
Qed.

(** The shape of a resolution that succeeded. *)
Lemma resolve_caller_ok caller p d now u d1 :
  resolve_caller env caller p (idle d now) = (Ok (Some u), idle d1 now) ->
  weeks d1 = weeks d /\ parts d1 = parts d
  /\ (truthy (Profile.name p) || truthy (Profile.phone p) = false -> d1 = d).
Proof.
  intros H.
  destruct (resolve_caller_quiet caller p d [] now) as (o & d' & Hr & Hw & Hp & Hd).
  unfold idle in H. rewrite Hr in H. inversion H; subst. auto.
Qed.

(** On a quiet connection with no write pending, [getWeek] either finds the
    week or leaves both inserts of a new one in the transaction. *)
Lemma getWeek_quiet key d tr c :
  getWeek gen_id key (mkWorld d [] [] tr c) =
  match Sql.weeks_by_key key d with
  | k :: _ => (Ok (Weeks.id k, Weeks.week_key k), mkWorld d [] [] tr c)
  | [] =>
      let id := gen_id (map Weeks.id (weeks d)) in
      (Ok (id, key), mkWorld d [InsertWeek id key; InsertParts id] [] tr c)
  end.
Proof.
  unfold getWeek, ensureWeek, insert_week, client_select, client_write, bind, hazard.
  cbn. unfold view. cbn.
  destruct (Sql.weeks_by_key key d) as [|k ks] eqn:E; [|reflexivity].
  cbn. unfold view. cbn. rewrite E. cbn. unfold view; cbn.
  unfold Sql.weeks_by_key in E. unfold Sql.week_key_taken.
  rewrite (filter_nil_existsb _ _ E). reflexivity.
Qed.

End QuietRuns.

(* ================================================================== *)
(** ** Release *)
(* ================================================================== *)

Section Release.

Variable env : Env.
Variable gen_id : list jsstring -> jsstring.

Lemma update_where_In cond f (l : list Parts.row) p :
  In p (update_where cond f l) ->
  exists q, In q l /\ p = (if cond q then f q else q).
Proof.
  unfold update_where. intros H. apply in_map_iff in H as [q [Hq Hin]].
  exists q. now split.
Qed.

Lemma release_quiet caller weekId n d now :
  weekId <> [] -> isNaN n = false ->
  handle env gen_id (ReleasePart caller weekId n) (idle d now) =
  match Sql.users_by_id caller d with
  | [] => (Ok (fail 500 RELEASE_FAILED), mkWorld d [] [] [ObsRollback] now)
  | u :: _ =>
      match Sql.parts_by_key weekId n d with
      | [] => (Ok (fail 404 PART_NOT_FOUND), mkWorld d [] [] [ObsBegin; ObsRollback] now)
      | row :: _ =>
          if negb (truthy (Parts.claimed_by row))
             || negb (opt_eqb (Parts.claimed_by row) (Some (Users.id u)))
          then (Ok (fail 403 NOT_OWNER), mkWorld d [] [] [ObsBegin; ObsRollback] now)
          else
            let payload := PartRow.mk n None None None in
            (Ok (json (PartBody payload)),
             mkWorld (apply_write d (UpdateRelease weekId n)) [] []
                     [ObsBegin; ObsCommit; ObsEmit weekId (PartUpdate payload)] now)
      end
  end.
Proof.
  intros Hw Hn.
  unfold handle, post_release, idle.
  destruct weekId as [|c0 r0]; [contradiction|]. cbn [truthy negb orb]. rewrite Hn.
  unfold try_catch. unfold bind at 1. rewrite getUserById_quiet.
  destruct (Sql.users_by_id caller d) as [|u others]; [reflexivity|].
  unfold BEGIN, client_select, bind, hazard; cbn. unfold view; cbn.
  destruct (Sql.parts_by_key (c0 :: r0) n d) as [|row rest]; [reflexivity|].
  destruct (negb (truthy (Parts.claimed_by row))
            || negb (opt_eqb (Parts.claimed_by row) (Some (Users.id u))));
    reflexivity.
Qed.


End Release.

(* ================================================================== *)
(** ** Claim, reset and week lookup on a quiet connection *)
(* ================================================================== *)

Section QuietHandlers.

Variable env : Env.
Variable gen_id : list jsstring -> jsstring.

Lemma claim_quiet caller weekId n profile d now o d1 :
  weekId <> [] -> isNaN n = false ->
  resolve_caller env caller profile (idle d now) = (o, idle d1 now) ->
  handle env gen_id (ClaimPart caller weekId n profile) (idle d now) =
  match o with
  | Throw _ => (Ok (fail 500 CLAIM_FAILED), mkWorld d1 [] [] [ObsRollback] now)
  | Ok user =>
      match Sql.parts_by_key weekId n d1 with
      | [] => (Ok (fail 404 PART_NOT_FOUND), mkWorld d1 [] [] [ObsBegin; ObsRollback] now)
      | row :: _ =>
          if truthy (Parts.claimed_by row)
          then (Ok (fail 409 ALREADY_CLAIMED),
                mkWorld d1 [] [] [ObsBegin; ObsRollback] now)
          else
            match user with
            | None => (Ok (fail 500 CLAIM_FAILED),
                       mkWorld d1 [] [] [ObsBegin; ObsRollback] now)
            | Some u =>
                let claimedName := claimed_name_of profile u in
                let payload :=
                  PartRow.mk n (Some (Users.id u)) claimedName (Some (Users.is_admin u)) in
                (Ok (json (PartBody payload)),
                 mkWorld (apply_write d1 (UpdateClaim weekId n (Users.id u) claimedName now))
                         [] [] [ObsBegin; ObsCommit; ObsEmit weekId (PartUpdate payload)] now)
            end
      end
  end.
Proof.
  intros Hw Hn Hres.
  unfold handle, post_claim.
  destruct weekId as [|c0 r0]; [contradiction|]. cbn [truthy negb orb]. rewrite Hn.
  unfold try_catch. unfold bind at 1. rewrite Hres.
  destruct o as [user|e]; [|reflexivity].
  unfold BEGIN, client_select, bind, hazard, idle; cbn. unfold view; cbn.
  destruct (Sql.parts_by_key (c0 :: r0) n d1) as [|row rest]; [reflexivity|].
  destruct (truthy (Parts.claimed_by row)); [reflexivity|].
  destruct user as [u|]; reflexivity.
Qed.

Lemma reset_quiet caller weekKey profile d now o d1 :
  weekKey <> [] ->
  resolve_caller env caller profile (idle d now) = (o, idle d1 now) ->
  handle env gen_id (ResetWeek caller weekKey profile) (idle d now) =
  match o with
  | Throw _ => (Ok (fail 500 RESET_FAILED), mkWorld d1 [] [] [ObsRollback] now)
  | Ok None => (Ok (fail 500 RESET_FAILED), mkWorld d1 [] [] [ObsBegin; ObsRollback] now)
  | Ok (Some u) =>
      if negb (Users.is_admin u)
      then (Ok (fail 403 NOT_ADMIN), mkWorld d1 [] [] [ObsBegin; ObsRollback] now)
      else
        let finish id log :=
          let d' := fold_left apply_write log d1 in
          let freshParts := Sql.parts_of_week id d' in
          (Ok (json (ResetBody id freshParts)),
           mkWorld d' [] [] [ObsBegin; ObsCommit; ObsEmit id (WeekReset id freshParts)] now) in
        match Sql.weeks_by_key weekKey d1 with
        | k :: _ => finish (Weeks.id k) [UpdateReset (Weeks.id k)]
        | [] =>
            let id := gen_id (map Weeks.id (weeks d1)) in
            finish id [InsertWeek id weekKey; InsertParts id; UpdateReset id]
        end
  end.
Proof.
  intros Hw Hres.
  unfold handle, post_reset.
  destruct weekKey as [|c0 r0]; [contradiction|]. cbn [truthy negb].
  unfold try_catch. unfold bind at 1. rewrite Hres.
  destruct o as [user|e]; [|reflexivity].
  unfold BEGIN. unfold bind at 1 2. unfold hazard, idle, log. cbn [sched db tx trace clock app].
  destruct user as [u|]; [|reflexivity].
  unfold field, ret. unfold bind at 1.
  destruct (negb (Users.is_admin u)); [reflexivity|].
  unfold bind at 1. rewrite getWeek_quiet.
  destruct (Sql.weeks_by_key (c0 :: r0) d1) as [|k ks]; reflexivity.
Qed.

Lemma get_week_quiet weekKey d now :
  weekKey <> [] ->
  handle env gen_id (GetWeek weekKey) (idle d now) =
  let finish id key log :=
    let d' := fold_left apply_write log d in
    (Ok (json (WeekBody id key (Sql.parts_of_week id d'))),
     mkWorld d' [] [] [ObsBegin; ObsCommit] now) in
  match Sql.weeks_by_key weekKey d with
  | k :: _ => finish (Weeks.id k) (Weeks.week_key k) []
  | [] =>
      let id := gen_id (map Weeks.id (weeks d)) in
      finish id weekKey [InsertWeek id weekKey; InsertParts id]
  end.
Proof.
  intros Hw.
  unfold handle, get_week.
  destruct weekKey as [|c0 r0]; [contradiction|]. cbn [truthy negb].
  unfold try_catch, BEGIN. unfold bind at 1 2. unfold hazard, idle, log.
  cbn [sched db tx trace clock app].
  unfold bind at 1. rewrite getWeek_quiet.
  destruct (Sql.weeks_by_key (c0 :: r0) d) as [|k ks]; reflexivity.
Qed.

End QuietHandlers.

(* ================================================================== *)
(** ** Claim and reset *)
(* ================================================================== *)

Section ClaimReset.

Variable env : Env.
Variable gen_id : list jsstring -> jsstring.

Lemma update_user_returns id name phone adm d rows d' u :
  Sql.update_user id name phone adm d = Ok (rows, d') ->
  hd_error rows = Some u ->
  Users.id u = id /\ Users.name u = name /\ Users.phone u = phone
  /\ Users.is_admin u = adm.
Proof.
  unfold Sql.update_user. destruct (_ && _); [discriminate|].
  intros H Hu. inversion H; subst. clear H.
  destruct (filter _ (users d)) as [|u0 r] eqn:E; [discriminate|].
  apply filter_head in E as [_ E]. apply eqb_eq in E.
  cbn in Hu. inversion Hu; subst. cbn. auto.
Qed.

(** The resolved row is the caller's. *)
Lemma resolve_caller_id caller p d now u d1 :
  resolve_caller env caller p (idle d now) = (Ok (Some u), idle d1 now) ->
  Users.id u = caller.
Proof.
  unfold resolve_caller, idle. unfold bind at 1. rewrite getUserById_quiet.
  destruct (Sql.users_by_id caller d) as [|u0 us] eqn:E0; [discriminate|].
  apply filter_head in E0 as [_ E0]. apply eqb_eq in E0.
  destruct (truthy (Profile.name p) || truthy (Profile.phone p)).
  - rewrite updateUserProfile_quiet.
    destruct (Sql.users_by_id (Users.id u0) d) as [|u1 us1]; [discriminate|].
    cbv zeta.
    destruct (Sql.update_user _ _ _ _ _) as [[rows d']|e] eqn:E; [|discriminate].
    intros H. inversion H; subst.
    eapply update_user_returns in E as [E _]; [|eassumption]. congruence.
  - intros H. inversion H; subst. reflexivity.
Qed.

Lemma claimed_name_of_override profile u o :
  Profile.name profile = Some o -> trim o <> [] ->
  claimed_name_of profile u = Some (trim o).
Proof.
  unfold claimed_name_of. intros -> H. cbn.
  destruct (trim o); [contradiction|reflexivity].
Qed.

Lemma claimed_name_of_stored profile u :
  (forall o, Profile.name profile = Some o -> trim o = []) ->
  claimed_name_of profile u = or_null (Users.name u).
Proof.
  unfold claimed_name_of. intros H.
  destruct (Profile.name profile) as [o|]; [|reflexivity].
  cbn. now rewrite (H o eq_refl).
Qed.

(** C2, as amended. Claiming a part that exists, by a caller who resolves
    to the row [u]: if the part is held, the answer is ALREADY_CLAIMED and
    no week and no part changes (the store is the one the resolution of the
    caller left, which is the old one when the request carries no profile);
    if the part is free, the claim succeeds and sets claimed_by to the
    caller's id, claimed_name to the trimmed name of the profile when that
    is not empty and else to the caller's stored name, and claimed_at to
    the current time. *)
Theorem claim_spec (d : Db) (now : Z) (caller weekId : jsstring) (n : jsnumber)
    (profile : Profile.t) (u : Users.row) (d1 : Db) :
  weekId <> [] -> isNaN n = false ->
  resolve_caller env caller profile (idle d now) = (Ok (Some u), idle d1 now) ->
  let result := serve env gen_id now d (ClaimPart caller weekId n profile) in
  Users.id u = caller /\ weeks d1 = weeks d /\ parts d1 = parts d
  /\ (truthy (Profile.name profile) || truthy (Profile.phone profile) = false -> d1 = d)
  /\ (forall row rest,
        Sql.parts_by_key weekId n d = row :: rest ->
        truthy (Parts.claimed_by row) = true ->
        result = (Ok (fail 409 ALREADY_CLAIMED), d1))
  /\ (forall row rest,
        Sql.parts_by_key weekId n d = row :: rest ->
        truthy (Parts.claimed_by row) = false ->
        exists d' nm,
          result = (Ok (json (PartBody (PartRow.mk n (Some caller) nm
                                          (Some (Users.is_admin u))))), d')
          /\ (forall o, Profile.name profile = Some o -> trim o <> [] ->
                        nm = Some (trim o))
          /\ ((forall o, Profile.name profile = Some o -> trim o = []) ->
              nm = or_null (Users.name u))
          /\ users d' = users d1 /\ weeks d' = weeks d
          /\ parts d' = update_where (part_matches weekId n)
                                     (claim_part caller nm now) (parts d)
          /\ (forall p, In p (parts d') -> part_matches weekId n p = true ->
                Parts.claimed_by p = Some caller /\ Parts.claimed_name p = nm
                /\ Parts.claimed_at p = Some now)
          /\ (forall p, In p (parts d) -> part_matches weekId n p = false ->
                        In p (parts d'))).
Proof.
  intros Hw Hn Hres result.
  pose proof Hres as Hid. apply resolve_caller_id in Hid.
  pose proof Hres as Hok. apply resolve_caller_ok in Hok as (Hwk & Hpt & Hsame).
  split; [exact Hid|]. split; [exact Hwk|]. split; [exact Hpt|].
  split; [exact Hsame|].
  subst result. unfold serve. erewrite claim_quiet by eassumption.
  unfold Sql.parts_by_key. rewrite Hpt. fold (Sql.parts_by_key weekId n d).
  split.
  - intros row rest -> Hby. now rewrite Hby.
  - intros row rest -> Hby. rewrite Hby. cbv zeta.
    exists (apply_write d1 (UpdateClaim weekId n (Users.id u)
                              (claimed_name_of profile u) now)).
    exists (claimed_name_of profile u).
    rewrite Hid. cbn [db apply_write users weeks parts]. rewrite Hpt.
    split; [reflexivity|].
    split; [intros o Ho Ht; now apply claimed_name_of_override|].
    split; [apply claimed_name_of_stored|].
    split; [reflexivity|]. split; [exact Hwk|]. split; [reflexivity|]. split.
    + intros p Hin Hm. apply update_where_In in Hin as [q [Hq ->]].
      destruct (part_matches weekId n q) eqn:Eq; [now repeat split|congruence].
    + intros p Hin Hm. unfold update_where. apply in_map_iff.
      exists p. rewrite Hm. now split.
Qed.

End ClaimReset.

(* ================================================================== *)
(** ** Snapshots and reset *)
(* ================================================================== *)

Lemma filter_none {A} (f : A -> bool) (l : list A) :
  (forall x, In x l -> f x = false) -> filter f l = [].
Proof.
  induction l as [|x l IH]; intros H; simpl; [reflexivity|].
  rewrite (H x (or_introl eq_refl)). apply IH. intros y Hy. apply H. now right.
Qed.

Lemma filter_all {A} (f : A -> bool) (l : list A) :
  (forall x, In x l -> f x = true) -> filter f l = l.
Proof.
  induction l as [|x l IH]; intros H; simpl; [reflexivity|].
  rewrite (H x (or_introl eq_refl)). f_equal. apply IH. intros y Hy. apply H. now right.
Qed.

Lemma map_unchanged {A} (f : A -> A) (l : list A) :
  (forall x, In x l -> f x = x) -> map f l = l.
Proof.
  induction l as [|x l IH]; intros H; simpl; [reflexivity|].
  rewrite (H x (or_introl eq_refl)). f_equal. apply IH. intros y Hy. apply H. now right.
Qed.

Lemma flat_map_singletons {A B} (f : A -> list B) (g : A -> B) (l : list A) :
  (forall x, In x l -> f x = [g x]) -> flat_map f l = map g l.
Proof.
  induction l as [|x l IH]; intros H; simpl; [reflexivity|].
  rewrite (H x (or_introl eq_refl)). simpl. f_equal. apply IH.
  intros y Hy. apply H. now right.
Qed.

Lemma insert_by_number_In p q l :
  In q (Sql.insert_by_number p l) <-> q = p \/ In q l.
Proof.
  induction l as [|x l IH]; simpl.
  - split; intros [H|H]; auto.
  - destruct (Parts.number p <=? Parts.number x); simpl.
    + split; intros [H|H]; auto.
    + rewrite IH. split; intros H; tauto.
Qed.

Lemma order_by_number_In q l :
  In q (Sql.order_by_number l) <-> In q l.
Proof.
  induction l as [|x l IH]; simpl; [tauto|].
  rewrite insert_by_number_In, IH. split; intros [H|H]; auto.
Qed.

Lemma left_join_users_fields d p row :
  In row (Sql.left_join_users d p) ->
  PartRow.number row = of_Z (Parts.number p)
  /\ PartRow.claimed_by row = Parts.claimed_by p
  /\ PartRow.claimed_name row = Parts.claimed_name p.
Proof.
  unfold Sql.left_join_users.
  destruct (filter _ (users d)) as [|u0 us].
  - intros [<-|[]]. now repeat split.
  - intros H. apply in_map_iff in H as [u1 [<- _]]. now repeat split.
Qed.

Lemma left_join_users_free d p :
  Parts.claimed_by p = None ->
  Sql.left_join_users d p =
  [PartRow.mk (of_Z (Parts.number p)) None (Parts.claimed_name p) None].
Proof.
  unfold Sql.left_join_users. intros ->.
  rewrite filter_none; [reflexivity|]. intros u _. reflexivity.
Qed.

(** Every row of a week's snapshot shows a part of that week. *)
Lemma parts_of_week_row id d row :
  In row (Sql.parts_of_week id d) ->
  exists p, In p (parts d) /\ in_week id p = true
            /\ PartRow.claimed_by row = Parts.claimed_by p
            /\ PartRow.claimed_name row = Parts.claimed_name p.
Proof.
  unfold Sql.parts_of_week. intros H.
  apply in_flat_map in H as [p [Hp Hrow]].
  apply (proj1 (order_by_number_In _ _)) in Hp. apply filter_In in Hp as [Hp Hw].
  apply left_join_users_fields in Hrow as (_ & Hb & Hn).
  exists p. auto.
Qed.

(** [generate_series(1,30)] has thirty numbers: the [i]-th, counted from
    0, is [i + 1]. *)
Lemma generate_series_1_30_length : List.length generate_series_1_30 = 30%nat.
Proof. reflexivity. Qed.

Lemma generate_series_1_30_nth i :
  (i < 30)%nat -> nth_error generate_series_1_30 i = Some (Z.of_nat i + 1).
Proof.
  intros Hi. unfold generate_series_1_30. rewrite nth_error_map.
  rewrite (nth_error_nth' _ 0%nat) by (rewrite length_seq; exact Hi).
  rewrite seq_nth by exact Hi. cbn [option_map]. f_equal. lia.
Qed.

Lemma generate_series_1_30_NoDup : NoDup generate_series_1_30.
Proof.
  unfold generate_series_1_30. apply Finite.Injective_map_NoDup; [|apply seq_NoDup].
  intros a b. apply Nat2Z.inj.
Qed.

Lemma generate_series_1_30_In z : In z generate_series_1_30 <-> 1 <= z <= 30.
Proof.
  unfold generate_series_1_30. rewrite in_map_iff. split.
  - intros [k [<- Hk]]. apply in_seq in Hk. lia.
  - intros Hz. exists (Z.to_nat z). split; [lia|]. apply in_seq. lia.
Qed.

Section Reset.

Variable env : Env.
Variable gen_id : list jsstring -> jsstring.

(** C4, as amended. Resetting a week that exists, by a caller who resolves
    to the row [u] (the caller's row after the profile of the request was
    merged into it): if [u] is no admin the answer is NOT_ADMIN and no week
    and no part changes; if [u] is an admin, claimed_by, claimed_name and
    claimed_at are cleared on every part of the week and on no other part,
    and no row of the returned snapshot is claimed. *)
Theorem reset_spec (d : Db) (now : Z) (caller weekKey : jsstring)
    (profile : Profile.t) (u : Users.row) (d1 : Db) :
  weekKey <> [] ->
  resolve_caller env caller profile (idle d now) = (Ok (Some u), idle d1 now) ->
  let result := serve env gen_id now d (ResetWeek caller weekKey profile) in
  weeks d1 = weeks d /\ parts d1 = parts d
  /\ (truthy (Profile.name profile) || truthy (Profile.phone profile) = false -> d1 = d)
  /\ (Users.is_admin u = false -> result = (Ok (fail 403 NOT_ADMIN), d1))
  /\ (Users.is_admin u = true ->
      forall k rest, Sql.weeks_by_key weekKey d = k :: rest ->
      exists d' snapshot,
        result = (Ok (json (ResetBody (Weeks.id k) snapshot)), d')
        /\ users d' = users d1 /\ weeks d' = weeks d
        /\ parts d' = update_where (in_week (Weeks.id k)) clear_part (parts d)
        /\ (forall p, In p (parts d') -> in_week (Weeks.id k) p = true -> free p)
        /\ (forall p, In p (parts d) -> in_week (Weeks.id k) p = false ->
                      In p (parts d'))
        /\ snapshot = Sql.parts_of_week (Weeks.id k) d'
        /\ (forall row, In row snapshot ->
              PartRow.claimed_by row = None /\ PartRow.claimed_name row = None)).
Proof.
  intros Hw Hres result.
  pose proof Hres as Hok. apply resolve_caller_ok in Hok as (Hwk & Hpt & Hsame).
  split; [exact Hwk|]. split; [exact Hpt|]. split; [exact Hsame|].
  subst result. unfold serve. erewrite reset_quiet by eassumption.
  unfold Sql.weeks_by_key. rewrite Hwk. fold (Sql.weeks_by_key weekKey d).
  split.
  - intros ->. reflexivity.
  - intros -> k rest ->. cbn [negb]. cbv zeta.
    cbn [fold_left apply_write db users weeks parts]. rewrite Hpt.
    do 2 eexists. split; [reflexivity|].
    cbn [users weeks parts].
    assert (forall p, In p (update_where (in_week (Weeks.id k)) clear_part (parts d)) ->
                      in_week (Weeks.id k) p = true -> free p) as Hfree.
    { intros p Hin Hm. apply update_where_In in Hin as [q [Hq ->]].
      destruct (in_week (Weeks.id k) q) eqn:Eq; [now repeat split|congruence]. }
    split; [reflexivity|]. split; [exact Hwk|]. split; [reflexivity|].
    split; [exact Hfree|]. split; [|split; [reflexivity|]].
    + intros p Hin Hm. unfold update_where. apply in_map_iff.
      exists p. rewrite Hm. now split.
    + intros row Hrow. apply parts_of_week_row in Hrow as (p & Hp & Hin & -> & ->).
      cbn [parts] in Hp. destruct (Hfree p Hp Hin) as (? & ? & ?). now split.
Qed.

Hypothesis gen_id_fresh : forall l, ~ In (gen_id l) l.

Lemma new_parts_sorted id :
  Sql.order_by_number (map (new_part id) generate_series_1_30)
  = map (new_part id) generate_series_1_30.
Proof. reflexivity. Qed.

(** The parts of a week that was just inserted, after the bulk clear. *)
Lemma reset_new_week_parts id (l : list Parts.row) :
  (forall p, In p l -> Parts.week_id p <> id) ->
  update_where (in_week id) clear_part
    (l ++ map (new_part id) generate_series_1_30)
  = l ++ map (new_part id) generate_series_1_30.
Proof.
  intros Hold. unfold update_where. rewrite map_app. f_equal.
  - apply map_unchanged. intros p Hp. unfold in_week.
    destruct (eqb (Parts.week_id p) id) eqn:E; [|reflexivity].
    apply eqb_eq in E. now apply Hold in Hp.
  - apply map_unchanged. intros p Hp. apply in_map_iff in Hp as [n [<- _]].
    unfold in_week. cbn. now rewrite eqb_refl.
Qed.

(** The snapshot of a week that holds the thirty new parts and no other. *)
Lemma snapshot_new_week id us ws (l : list Parts.row) :
  (forall p, In p l -> Parts.week_id p <> id) ->
  Sql.parts_of_week id
    (mkDb us ws (l ++ map (new_part id) generate_series_1_30))
  = map free_row generate_series_1_30.
Proof.
  intros Hold. unfold Sql.parts_of_week. cbn [parts].
  rewrite filter_app, filter_none, filter_all.
  - cbn [app]. rewrite new_parts_sorted.
    rewrite (flat_map_singletons _
               (fun p => PartRow.mk (of_Z (Parts.number p)) None (Parts.claimed_name p) None)).
    + rewrite map_map. reflexivity.
    + intros p Hp. apply in_map_iff in Hp as [n [<- _]].
      now apply left_join_users_free.
  - intros p Hp. apply in_map_iff in Hp as [n [<- _]].
    unfold in_week. cbn. apply eqb_refl.
  - intros p Hp. unfold in_week. apply eqb_neq. now apply Hold.
Qed.

(** C9. Resetting a week key that does not exist yet, by an admin: no
    not-found error; the week is created with thirty parts, numbered 1 to
    30 and all free, and the answer is 200 with the snapshot of the new
    week: thirty free rows, numbered 1 to 30 in this order. *)
Theorem reset_creates_week (d : Db) (now : Z) (caller weekKey : jsstring)
    (profile : Profile.t) (u : Users.row) (d1 : Db) :
  weekKey <> [] ->
  resolve_caller env caller profile (idle d now) = (Ok (Some u), idle d1 now) ->
  Users.is_admin u = true ->
  Sql.weeks_by_key weekKey d = [] ->
  (forall p, In p (parts d) -> In (Parts.week_id p) (map Weeks.id (weeks d))) ->
  let id := gen_id (map Weeks.id (weeks d)) in
  exists d' rows created,
    serve env gen_id now d (ResetWeek caller weekKey profile)
    = (Ok (json (ResetBody id rows)), d')
    /\ List.length rows = 30%nat
    /\ (forall i, (i < 30)%nat ->
          nth_error rows i = Some (PartRow.mk (of_Z (Z.of_nat i + 1)) None None None))
    /\ rows = Sql.parts_of_week id d'
    /\ users d' = users d1
    /\ weeks d' = weeks d ++ [Weeks.mk id weekKey]
    /\ parts d' = parts d ++ created
    /\ List.length created = 30%nat
    /\ (forall i, (i < 30)%nat ->
          nth_error created i = Some (Parts.mk id (Z.of_nat i + 1) None None None))
    /\ (forall p, In p (parts d') -> Parts.week_id p = id -> In p created /\ free p).
Proof.
  intros Hw Hres Hadm Hnew Howned id.
  pose proof Hres as Hok. apply resolve_caller_ok in Hok as (Hwk & Hpt & _).
  assert (forall p, In p (parts d) -> Parts.week_id p <> id) as Hold.
  { intros p Hp E. apply Howned in Hp. rewrite E in Hp.
    exact (gen_id_fresh _ Hp). }
  unfold serve. erewrite reset_quiet by eassumption.
  unfold Sql.weeks_by_key. rewrite Hwk. fold (Sql.weeks_by_key weekKey d).
  rewrite Hadm, Hnew. cbn [negb]. cbv zeta.
  cbn [fold_left apply_write db users weeks parts]. rewrite Hwk, Hpt. fold id.
  rewrite (reset_new_week_parts id (parts d) Hold).
  pose proof (snapshot_new_week id (users d1) (weeks d ++ [Weeks.mk id weekKey])
                (parts d) Hold) as Hsnap.
  rewrite Hsnap.
  exists (mkDb (users d1) (weeks d ++ [Weeks.mk id weekKey])
               (parts d ++ map (new_part id) generate_series_1_30)),
         (map free_row generate_series_1_30),
         (map (new_part id) generate_series_1_30).
  split; [reflexivity|]. cbn [users weeks parts].
  split; [reflexivity|]. split.
  { intros i Hi. rewrite nth_error_map, generate_series_1_30_nth by exact Hi.
    reflexivity. }
  split; [now rewrite Hsnap|].
  split; [reflexivity|]. split; [reflexivity|]. split; [reflexivity|].
  split; [reflexivity|]. split.
  { intros i Hi. rewrite nth_error_map, generate_series_1_30_nth by exact Hi.
    reflexivity. }
  intros p Hp Hid. apply in_app_or in Hp as [Hp|Hp]; [now apply Hold in Hp|].
  split; [exact Hp|]. apply in_map_iff in Hp as [n [<- _]]. now repeat split.
Qed.

End Reset.

(* ================================================================== *)
(** ** Inserts into users *)
(* ================================================================== *)

Lemma insert_user_keeps gen_id key name phone adm d rows d' :
  insert_user gen_id key name phone adm d = Ok (rows, d') ->
  weeks d' = weeks d /\ parts d' = parts d.
Proof.
  unfold insert_user. destruct (Sql.phone_taken _ _ _); [discriminate|].
  intros H. inversion H; subst. now split.
Qed.

(* ================================================================== *)
(** ** Invariants of the parts table *)
(* ================================================================== *)

Lemma clear_part_consistent p : claim_fields_consistent (clear_part p).
Proof. split; cbn; tauto. Qed.

Lemma claim_part_consistent by_ nm at_ p :
  claim_fields_consistent (claim_part by_ nm at_ p).
Proof. split; cbn; [split|]; discriminate. Qed.

Lemma update_where_Forall (P : Parts.row -> Prop) cond f l :
  (forall p, P (f p)) -> Forall P l -> Forall P (update_where cond f l).
Proof.
  intros Hf Hl. unfold update_where. apply Forall_map.
  apply Forall_impl with (P := P); [|exact Hl].
  intros p Hp. destruct (cond p); auto.
Qed.

Lemma apply_write_consistent d wr :
  Forall claim_fields_consistent (parts d) ->
  Forall claim_fields_consistent (parts (apply_write d wr)).
Proof.
  intros H. destruct wr; cbn [apply_write parts]; try assumption.
  - apply Forall_app. split; [assumption|].
    apply Forall_map. apply Forall_forall. intros n _. split; cbn; tauto.
  - apply update_where_Forall; [apply claim_part_consistent|assumption].
  - apply update_where_Forall; [apply clear_part_consistent|assumption].
  - apply update_where_Forall; [apply clear_part_consistent|assumption].
Qed.

Lemma fold_write_consistent log d :
  Forall claim_fields_consistent (parts d) ->
  Forall claim_fields_consistent (parts (fold_left apply_write log d)).
Proof.
  revert d. induction log as [|wr log IH]; intros d H; cbn; [assumption|].
  apply IH. now apply apply_write_consistent.
Qed.


(* ================================================================== *)
(** ** Requests whose statements may fail *)
(* ================================================================== *)

Section HoareRules.

Context {A B : Type}.

Lemma hoare_ret (a : A) (Q : A -> World -> Prop) X : hoare (Q a) (ret a) Q X.
Proof. intros w H. exact H. Qed.

Lemma hoare_throw e (Q : A -> World -> Prop) (X : World -> Prop) :
  hoare X (throw e) Q X.
Proof. intros w H. exact H. Qed.

Lemma hoare_bind (P : World -> Prop) (m : M A) (Q : A -> World -> Prop)
    (k : A -> M B) (R : B -> World -> Prop) (X : World -> Prop) :
  hoare P m Q X -> (forall a, hoare (Q a) (k a) R X) -> hoare P (bind m k) R X.
Proof.
  intros Hm Hk w Hw. unfold bind. specialize (Hm w Hw).
  destruct (m w) as [[a|e] w1]; [now apply Hk|exact Hm].
Qed.

Lemma hoare_try_catch (P : World -> Prop) (body : M A) (handler : Error -> M A)
    (Q : A -> World -> Prop) (X X' : World -> Prop) :
  hoare P body Q X -> (forall e, hoare X (handler e) Q X') ->
  hoare P (try_catch body handler) Q X'.
Proof.
  intros Hb Hh w Hw. unfold try_catch. specialize (Hb w Hw).
  destruct (body w) as [[a|e] w1]; [exact Hb|now apply Hh].
Qed.

Lemma hoare_weaken (P P' : World -> Prop) (m : M A) (Q Q' : A -> World -> Prop)
    (X X' : World -> Prop) :
  hoare P' m Q' X' ->
  (forall w, P w -> P' w) -> (forall a w, Q' a w -> Q a w) ->
  (forall w, X' w -> X w) ->
  hoare P m Q X.
Proof.
  intros H HP HQ HX w Hw. specialize (H w (HP w Hw)).
  destruct (m w) as [[a|e] w1]; auto.
Qed.

End HoareRules.

Lemma calm_tail h s : calm (h :: s) -> calm s.
Proof. intros H. now inversion H. Qed.

Lemma calm_concurrent f s : ~ calm (Concurrent f :: s).
Proof. intros H. inversion H as [|? ? Hbad]. exact Hbad. Qed.

Lemma fold_write_weeks_parts log d d' :
  weeks d' = weeks d -> parts d' = parts d ->
  weeks (fold_left apply_write log d') = weeks (fold_left apply_write log d)
  /\ parts (fold_left apply_write log d') = parts (fold_left apply_write log d).
Proof.
  revert d d'. induction log as [|wr log IH]; intros d d' Hw Hp; cbn; [now split|].
  apply IH; destruct wr; cbn; congruence.
Qed.

Section UnderFaults.

Variable env : Env.
Variable gen_id : list jsstring -> jsstring.

(** The store the request started on, and what has to hold of the store
    all along. *)
Variable d0 : Db.
Variable Good : Db -> Prop.

Hypothesis Good_weeks_parts :
  forall d d', weeks d' = weeks d -> parts d' = parts d -> Good d -> Good d'.
Hypothesis Good_start : Good d0.
Hypothesis Good_commit :
  forall log, commits gen_id d0 log -> Good (fold_left apply_write log d0).

Lemma during_failed L w : during d0 L w -> failed Good w.
Proof.
  intros (Hc & Hw & Hp & _). split; [exact Hc|].
  now apply (Good_weeks_parts d0).
Qed.

Lemma during_after w : during d0 (eq []) w -> after Good w.
Proof.
  intros H. pose proof (during_failed _ _ H) as [Hc Hg].
  destruct H as (_ & _ & _ & Ht). now repeat split.
Qed.

Lemma after_failed w : after Good w -> failed Good w.
Proof. intros (Hc & Hg & _). now split. Qed.

(** *** Statements *)

Section Statements.

(** Where a throw may land. *)
Variable X : World -> Prop.

Lemma hazard_during L :
  (forall w, during d0 L w -> X w) ->
  hoare (during d0 L) hazard (fun _ => during d0 L) X.
Proof.
  intros HX w H. unfold hazard.
  destruct (sched w) as [|[|f|] s] eqn:E; cbn.
  - exact H.
  - destruct H as (Hc & Hw & Hp & Ht). rewrite E in Hc. apply calm_tail in Hc.
    now repeat split.
  - destruct H as (Hc & _). rewrite E in Hc. now apply calm_concurrent in Hc.
  - apply HX. destruct H as (Hc & Hw & Hp & Ht). rewrite E in Hc.
    apply calm_tail in Hc. now repeat split.
Qed.

Lemma hazard_after :
  (forall w, after Good w -> X w) ->
  hoare (after Good) hazard (fun _ => after Good) X.
Proof.
  intros HX w H. unfold hazard.
  destruct (sched w) as [|[|f|] s] eqn:E; cbn.
  - exact H.
  - destruct H as (Hc & Hg & Ht). rewrite E in Hc. apply calm_tail in Hc.
    now repeat split.
  - destruct H as (Hc & _). rewrite E in Hc. now apply calm_concurrent in Hc.
  - apply HX. destruct H as (Hc & Hg & Ht). rewrite E in Hc.
    apply calm_tail in Hc. now repeat split.
Qed.

Lemma pool_query_during {A} (q : Db -> Outcome (A * Db)) L :
  (forall w, during d0 L w -> X w) ->
  keeps_weeks_parts q ->
  hoare (during d0 L) (pool_query q) (fun _ => during d0 L) X.
Proof.
  intros HX Hq. unfold pool_query.
  eapply hoare_bind; [now apply hazard_during|]. intros done w H.
  specialize (Hq (db w)).
  destruct (q (db w)) as [[a d']|e]; [|now apply HX].
  destruct H as (Hc & Hw & Hp & Ht). destruct Hq as [Hw' Hp'].
  unfold during. cbn. repeat split; try assumption; congruence.
Qed.

Lemma pool_query_after {A} (q : Db -> Outcome (A * Db)) :
  (forall w, after Good w -> X w) ->
  keeps_weeks_parts q ->
  hoare (after Good) (pool_query q) (fun _ => after Good) X.
Proof.
  intros HX Hq. unfold pool_query.
  eapply hoare_bind; [now apply hazard_after|]. intros done w H.
  specialize (Hq (db w)).
  destruct (q (db w)) as [[a d']|e]; [|now apply HX].
  destruct H as (Hc & Hg & Ht). destruct Hq as [Hw' Hp'].
  unfold after. cbn. repeat split; try assumption.
  now apply (Good_weeks_parts (db w)).
Qed.

Lemma client_select_during {A} (q : Db -> A) L :
  (forall w, during d0 L w -> X w) ->
  hoare (during d0 L) (client_select q) (fun _ => during d0 L) X.
Proof.
  intros HX. unfold client_select.
  eapply hoare_bind; [now apply hazard_during|].
  intros done w H. exact H.
Qed.

Lemma client_write_during wr L :
  (forall w, during d0 L w -> X w) ->
  hoare (during d0 L) (client_write wr)
        (fun _ => during d0 (fun l => exists l0, L l0 /\ l = l0 ++ [wr])) X.
Proof.
  intros HX. unfold client_write.
  eapply hoare_bind; [now apply hazard_during|].
  intros done w (Hc & Hw & Hp & Ht). unfold during. cbn.
  repeat split; try assumption. now exists (tx w).
Qed.

Lemma insert_week_during key :
  (forall w, during d0 (eq []) w -> X w) ->
  hoare (during d0 (eq [])) (insert_week gen_id key)
        (fun id => during d0 (fun l => id = gen_id (map Weeks.id (weeks d0))
                                      /\ l = [InsertWeek id key])) X.
Proof.
  intros HX. unfold insert_week.
  eapply hoare_bind; [now apply hazard_during|].
  intros done w H. pose proof (HX _ H) as Hf.
  destruct H as (Hc & Hw & Hp & Ht). unfold view. rewrite <- Ht. cbn.
  destruct (Sql.week_key_taken _ _); [exact Hf|].
  unfold during. cbn. repeat split; try assumption; now rewrite Hw.
Qed.

Lemma BEGIN_during L :
  (forall w, during d0 L w -> X w) ->
  hoare (during d0 L) BEGIN (fun _ => during d0 L) X.
Proof.
  intros HX. unfold BEGIN. eapply hoare_bind; [now apply hazard_during|].
  intros done w H. exact H.
Qed.

Lemma COMMIT_during L :
  (forall w, during d0 L w -> X w) ->
  (forall l, L l -> commits gen_id d0 l) ->
  hoare (during d0 L) COMMIT (fun _ => after Good) X.
Proof.
  intros HX HL. unfold COMMIT. eapply hoare_bind; [now apply hazard_during|].
  intros done w (Hc & Hw & Hp & Ht). unfold after. cbn.
  repeat split; try assumption. unfold view.
  destruct (fold_write_weeks_parts (tx w) d0 (db w) Hw Hp) as [Hw' Hp'].
  apply (Good_weeks_parts (fold_left apply_write (tx w) d0)); try assumption.
  now apply Good_commit, HL.
Qed.

Lemma field_during {R A} (r : option R) (f : R -> A) L :
  (forall w, during d0 L w -> X w) ->
  hoare (during d0 L) (field r f) (fun _ => during d0 L) X.
Proof.
  intros HX w H. destruct r; cbn; [exact H|now apply HX].
Qed.

Lemma field_after {R A} (r : option R) (f : R -> A) :
  (forall w, after Good w -> X w) ->
  hoare (after Good) (field r f) (fun _ => after Good) X.
Proof.
  intros HX w H. destruct r; cbn; [exact H|now apply HX].
Qed.

Lemma emit_during room ev L :
  hoare (during d0 L) (emit room ev) (fun _ => during d0 L) X.
Proof. intros w (Hc & Hw & Hp & Ht). unfold during. cbn. now repeat split. Qed.

Lemma emit_after room ev :
  hoare (after Good) (emit room ev) (fun _ => after Good) X.
Proof. intros w (Hc & Hg & Ht). unfold after. cbn. now repeat split. Qed.

Lemma now_during L :
  hoare (during d0 L) now (fun _ => during d0 L) X.
Proof. intros w H. exact H. Qed.

Lemma getUserById_during id L :
  (forall w, during d0 L w -> X w) ->
  hoare (during d0 L) (getUserById id) (fun _ => during d0 L) X.
Proof.
  intros HX. unfold getUserById.
  eapply hoare_bind; [now apply pool_query_during|].
  intros [|u us] w H; cbn; [now apply HX|exact H].
Qed.

Lemma update_user_keeps_weeks_parts id name phone adm :
  keeps_weeks_parts (Sql.update_user id name phone adm).
Proof.
  intros d. destruct (Sql.update_user id name phone adm d) as [[rows d']|e] eqn:E;
    [|exact I].
  now apply update_user_keeps in E.
Qed.

Lemma updateUserProfile_during id p L :
  (forall w, during d0 L w -> X w) ->
  hoare (during d0 L) (updateUserProfile env id p) (fun _ => during d0 L) X.
Proof.
  intros HX. unfold updateUserProfile.
  eapply hoare_bind; [now apply getUserById_during|]. intros u.
  eapply hoare_bind;
    [apply pool_query_during; [exact HX|apply update_user_keeps_weeks_parts]|].
  intros rows w H. exact H.
Qed.

Lemma resolve_caller_during caller p L :
  (forall w, during d0 L w -> X w) ->
  hoare (during d0 L) (resolve_caller env caller p) (fun _ => during d0 L) X.
Proof.
  intros HX. unfold resolve_caller.
  eapply hoare_bind; [now apply getUserById_during|]. intros u.
  destruct (_ || _); [now apply updateUserProfile_during|].
  intros w H. exact H.
Qed.

End Statements.

Lemma ROLLBACK_failed :
  hoare (failed Good) ROLLBACK (fun _ => after Good) (after Good).
Proof.
  intros w (Hc & Hg). unfold ROLLBACK, hazard, after.
  destruct (sched w) as [|[|f|] s] eqn:E; cbn.
  - rewrite E. now repeat split.
  - apply calm_tail in Hc. now repeat split.
  - now apply calm_concurrent in Hc.
  - apply calm_tail in Hc. now repeat split.
Qed.

Lemma rollback_respond_during L (r : Response) :
  hoare (during d0 L) (ROLLBACK ;; ret r) (fun _ => after Good) (failed Good).
Proof.
  eapply hoare_bind with (Q := fun _ => after Good).
  - eapply hoare_weaken; [apply ROLLBACK_failed| | |].
    + apply during_failed.
    + auto.
    + apply after_failed.
  - intros done w H. exact H.
Qed.

Lemma rollback_respond_failed (r : Response) :
  hoare (failed Good) (ROLLBACK ;; ret r) (fun _ => after Good) (after Good).
Proof.
  eapply hoare_bind; [apply ROLLBACK_failed|]. intros done w H. exact H.
Qed.

Lemma getWeek_during key :
  hoare (during d0 (eq [])) (getWeek gen_id key)
        (fun week =>
           during d0 (fun l => l = []
                               \/ l = [InsertWeek (gen_id (map Weeks.id (weeks d0))) key;
                                       InsertParts (gen_id (map Weeks.id (weeks d0)))]
                                  /\ fst week = gen_id (map Weeks.id (weeks d0))))
        (failed Good).
Proof.
  unfold getWeek, ensureWeek.
  eapply hoare_bind; [apply client_select_during, during_failed|].
  intros [|k ks].
  2:{ intros w (Hc & Hw & Hp & Ht). unfold during. cbn.
      repeat split; try assumption. now left. }
  eapply hoare_bind with
    (Q := fun id => during d0
            (fun l => l = []
                      \/ l = [InsertWeek (gen_id (map Weeks.id (weeks d0))) key;
                              InsertParts (gen_id (map Weeks.id (weeks d0)))]
                         /\ id = gen_id (map Weeks.id (weeks d0)))).
  2:{ intros id w H. exact H. }
  eapply hoare_bind; [apply client_select_during, during_failed|].
  intros [|k ks].
  2:{ intros w (Hc & Hw & Hp & Ht). unfold during. cbn.
      repeat split; try assumption. now left. }
  eapply hoare_bind; [apply insert_week_during, during_failed|]. intros id.
  eapply hoare_bind; [apply client_write_during, during_failed|]. intros done.
  intros w (Hc & Hw & Hp & l0 & [-> ->] & Ht). unfold during. cbn.
  repeat split; try assumption. right. now split.
Qed.

(** *** Handlers *)

Lemma insert_user_keeps_weeks_parts key name phone adm :
  keeps_weeks_parts (insert_user gen_id key name phone adm).
Proof.
  intros d. destruct (insert_user gen_id key name phone adm d) as [[rows d']|e] eqn:E;
    [|exact I].
  now apply insert_user_keeps in E.
Qed.

Lemma select_keeps_weeks_parts {A} (q : Db -> A) :
  keeps_weeks_parts (fun d => Ok (q d, d)).
Proof. intros d. now split. Qed.

Lemma update_user_admin_keeps_weeks_parts id adm :
  keeps_weeks_parts (Sql.update_user_admin id adm).
Proof. intros d. now split. Qed.

Lemma post_auth_login_keeps name phone authKey :
  hoare (during d0 (eq [])) (post_auth_login env gen_id name phone authKey)
        (fun _ => after Good) (after Good).
Proof.
  unfold post_auth_login.
  destruct name as [[|c0 r0]|]; try (intros w H; now apply during_after).
  destruct phone as [[|c1 r1]|]; try (intros w H; now apply during_after).
  apply hoare_try_catch with (X := during d0 (eq [])).
  2:{ intros e w H. now apply during_after. }
  eapply hoare_bind with (Q := fun _ => during d0 (eq [])).
  - unfold loginUser.
    destruct (normalizePhone _) as [[|c2 r2]|]; try (intros w H; exact H).
    eapply hoare_bind;
      [apply pool_query_during; [auto|apply (select_keeps_weeks_parts
                                               (Sql.users_by_phone (c2 :: r2)))]|].
    intros [|current others].
    + eapply hoare_bind;
        [apply pool_query_during; [auto|apply insert_user_keeps_weeks_parts]|].
      intros rows w H. exact H.
    + eapply hoare_bind;
        [apply pool_query_during; [auto|apply update_user_keeps_weeks_parts]|].
      intros rows w H. exact H.
  - intros user. eapply hoare_bind; [apply field_during; auto|].
    intros s w H. now apply during_after.
Qed.

Lemma post_profile_keeps caller profile :
  hoare (during d0 (eq [])) (post_profile env caller profile)
        (fun _ => after Good) (after Good).
Proof.
  unfold post_profile.
  apply hoare_try_catch with (X := during d0 (eq [])).
  2:{ intros e w H. now apply during_after. }
  eapply hoare_bind; [apply updateUserProfile_during; auto|]. intros user.
  eapply hoare_bind; [apply field_during; auto|].
  intros s w H. now apply during_after.
Qed.

Lemma get_week_keeps weekKey :
  hoare (during d0 (eq [])) (get_week gen_id weekKey)
        (fun _ => after Good) (after Good).
Proof.
  unfold get_week.
  destruct (negb _); [intros w H; now apply during_after|].
  apply hoare_try_catch with (X := failed Good);
    [|intros e; apply rollback_respond_failed].
  eapply hoare_bind; [apply BEGIN_during, during_failed|]. intros done.
  eapply hoare_bind; [apply getWeek_during|]. intros week.
  eapply hoare_bind; [apply COMMIT_during; [apply during_failed|]|].
  { intros l [->|[-> _]]; constructor. }
  intros done'.
  eapply hoare_bind;
    [apply pool_query_after;
     [apply after_failed|apply (select_keeps_weeks_parts (Sql.parts_of_week (fst week)))]|].
  intros parts w H. exact H.
Qed.

Lemma post_claim_keeps caller weekId n profile :
  hoare (during d0 (eq [])) (post_claim env caller weekId n profile)
        (fun _ => after Good) (after Good).
Proof.
  unfold post_claim.
  destruct (_ || _); [intros w H; now apply during_after|].
  apply hoare_try_catch with (X := failed Good);
    [|intros e; apply rollback_respond_failed].
  eapply hoare_bind; [apply resolve_caller_during, during_failed|]. intros user.
  eapply hoare_bind; [apply BEGIN_during, during_failed|]. intros done.
  eapply hoare_bind; [apply client_select_during, during_failed|].
  intros [|row rest]; [apply rollback_respond_during|].
  destruct (truthy _); [apply rollback_respond_during|].
  eapply hoare_bind; [apply field_during, during_failed|]. intros user_name.
  eapply hoare_bind; [apply field_during, during_failed|]. intros user_id.
  eapply hoare_bind; [apply now_during|]. intros at_.
  eapply hoare_bind; [apply client_write_during, during_failed|]. intros done'.
  eapply hoare_bind; [apply COMMIT_during; [apply during_failed|]|].
  { intros l (l0 & <- & ->). constructor. }
  intros done''.
  eapply hoare_bind; [apply field_after, after_failed|]. intros adm.
  eapply hoare_bind; [apply emit_after|]. intros done3 w H. exact H.
Qed.

Lemma post_release_keeps caller weekId n :
  hoare (during d0 (eq [])) (post_release caller weekId n)
        (fun _ => after Good) (after Good).
Proof.
  unfold post_release.
  destruct (_ || _); [intros w H; now apply during_after|].
  apply hoare_try_catch with (X := failed Good);
    [|intros e; apply rollback_respond_failed].
  eapply hoare_bind; [apply getUserById_during, during_failed|]. intros user.
  eapply hoare_bind; [apply BEGIN_during, during_failed|]. intros done.
  eapply hoare_bind; [apply client_select_during, during_failed|].
  intros [|row rest]; [apply rollback_respond_during|].
  destruct (_ || _); [apply rollback_respond_during|].
  eapply hoare_bind; [apply client_write_during, during_failed|]. intros done'.
  eapply hoare_bind; [apply COMMIT_during; [apply during_failed|]|].
  { intros l (l0 & <- & ->). constructor. }
  intros done''.
  eapply hoare_bind; [apply emit_after|]. intros done3 w H. exact H.
Qed.

Lemma post_reset_keeps caller weekKey profile :
  hoare (during d0 (eq [])) (post_reset env gen_id caller weekKey profile)
        (fun _ => after Good) (after Good).
Proof.
  unfold post_reset.
  destruct (negb _); [intros w H; now apply during_after|].
  apply hoare_try_catch with (X := failed Good);
    [|intros e; apply rollback_respond_failed].
  eapply hoare_bind; [apply resolve_caller_during, during_failed|]. intros user.
  eapply hoare_bind; [apply BEGIN_during, during_failed|]. intros done.
  eapply hoare_bind; [apply field_during, during_failed|]. intros adm.
  destruct (negb adm); [apply rollback_respond_during|].
  eapply hoare_bind; [apply getWeek_during|]. intros week.
  eapply hoare_bind; [apply client_write_during, during_failed|]. intros done'.
  eapply hoare_bind; [apply COMMIT_during; [apply during_failed|]|].
  { intros l (l0 & [->|[-> Hid]] & ->); cbn [app]; [constructor|].
    rewrite Hid. constructor. }
  intros done''.
  eapply hoare_bind;
    [apply pool_query_after;
     [apply after_failed|apply (select_keeps_weeks_parts (Sql.parts_of_week (fst week)))]|].
  intros freshParts.
  eapply hoare_bind; [apply emit_after|]. intros done3 w H. exact H.
Qed.

Lemma patch_admin_keeps caller userId makeAdmin weekId partNumber :
  hoare (during d0 (eq [])) (patch_admin caller userId makeAdmin weekId partNumber)
        (fun _ => after Good) (after Good).
Proof.
  unfold patch_admin.
  destruct makeAdmin as [mk|]; [|intros w H; now apply during_after].
  apply hoare_try_catch with (X := during d0 (eq [])).
  2:{ intros e w H. now apply during_after. }
  eapply hoare_bind; [apply getUserById_during; auto|]. intros actor.
  destruct (negb _); [intros w H; now apply during_after|].
  eapply hoare_bind;
    [apply pool_query_during; [auto|apply update_user_admin_keeps_weeks_parts]|].
  intros [|updated others]; [intros w H; now apply during_after|].
  eapply hoare_bind with (Q := fun _ => during d0 (eq [])).
  2:{ intros done w H. now apply during_after. }
  destruct weekId as [[|c0 r0]|]; try (intros w H; exact H).
  destruct partNumber as [pn|]; [|intros w H; exact H].
  destruct (isInteger pn); [|intros w H; exact H].
  eapply hoare_bind;
    [apply pool_query_during;
     [auto|apply (select_keeps_weeks_parts (Sql.part_with_claimant (c0 :: r0) pn))]|].
  intros [|p ps]; [intros w H; exact H|]. apply emit_during.
Qed.

(** Whatever the request and whichever of its statements fail: no
    transaction stays open and the store stays good. *)
Lemma handle_keeps (r : Request) :
  hoare (during d0 (eq [])) (handle env gen_id r) (fun _ => after Good) (after Good).
Proof.
  destruct r; cbn [handle].
  - apply post_auth_login_keeps.
  - apply post_profile_keeps.
  - apply get_week_keeps.
  - apply post_claim_keeps.
  - apply post_release_keeps.
  - apply post_reset_keeps.
  - apply patch_admin_keeps.
Qed.

End UnderFaults.

(* ================================================================== *)
(** ** Requests that other connections overtake *)
(* ================================================================== *)






Lemma calm_tame s : calm s -> tame s.
Proof.
  intros H. eapply Forall_impl; [|exact H]. intros [|f|]; [auto|intros []|auto].
Qed.


Section UnderCommits.

Variable env : Env.
Variable gen_id : list jsstring -> jsstring.

(** The store the request started on, and what has to hold of the store
    all along. *)
Variable d0 : Db.
Variable Good : Db -> Prop.

Hypothesis Good_shape : forall d d', same_shape d d' -> Good d -> Good d'.
Hypothesis Good_start : Good d0.
Hypothesis Good_commit :
  forall d log,
    same_shape d0 d -> commits gen_id d0 log -> Good (fold_left apply_write log d).




(** *** Statements *)

Section Statements.

(** Where a throw may land. *)
Variable X : World -> Prop.


















End Statements.





(** *** Handlers *)









End UnderCommits.




(* ================================================================== *)
(** ** Invariants of the store *)
(* ================================================================== *)

Section Invariants.

Variable env : Env.
Variable gen_id : list jsstring -> jsstring.

(** One request, whichever of its statements fail, keeps the claim fields
    consistent. *)
Lemma serve_under_consistent s now d r :
  calm s ->
  Forall claim_fields_consistent (parts d) ->
  Forall claim_fields_consistent (parts (snd (serve_under env gen_id s now d r))).
Proof.
  intros Hs Hd.
  set (Good := fun d' : Db => Forall claim_fields_consistent (parts d')).
  assert (forall d1 d2, weeks d2 = weeks d1 -> parts d2 = parts d1 ->
                        Good d1 -> Good d2) as Hwp.
  { unfold Good. intros d1 d2 _ ->. auto. }
  assert (forall log, commits gen_id d log -> Good (fold_left apply_write log d))
    as Hcommit.
  { intros log _. now apply fold_write_consistent. }
  pose proof (handle_keeps env gen_id d Good Hwp Hd Hcommit r
                           (mkWorld d [] s [] now)) as H.
  unfold serve_under.
  destruct (handle env gen_id r (mkWorld d [] s [] now)) as [[a|e] w'];
    apply H; now repeat split.
Qed.

(** C1, as amended. Whatever requests are served, and whichever of their
    statements fail on the way: on every part the claimant and the claim
    time are null together, and a part with no claimant has no claimant
    name. (A claimed part may have a null name: the claimant's own name can
    be null.) *)
Theorem claim_fields_stay_consistent (d : Db) (rs : list (list Hazard * Z * Request)) :
  Forall (fun x => calm (fst (fst x))) rs ->
  Forall claim_fields_consistent (parts d) ->
  Forall claim_fields_consistent (parts (serve_all_under env gen_id d rs)).
Proof.
  revert d. induction rs as [|[[s now] r] rs IH]; intros d Hrs H; cbn [serve_all_under];
    [assumption|].
  inversion Hrs as [|? ? Hs Hrest]; subst. apply IH; [exact Hrest|].
  now apply serve_under_consistent.
Qed.

(** *** Thirty parts per week *)

Lemma numbers_of_update id us ws cond f l :
  (forall p, Parts.week_id (f p) = Parts.week_id p) ->
  (forall p, Parts.number (f p) = Parts.number p) ->
  numbers_of id (mkDb us ws (update_where cond f l)) = numbers_of id (mkDb us ws l).
Proof.
  intros Hw Hn. unfold numbers_of. cbn [parts].
  induction l as [|p l IH]; cbn; [reflexivity|].
  assert (in_week id (if cond p then f p else p) = in_week id p) as E.
  { unfold in_week. destruct (cond p); [now rewrite Hw|reflexivity]. }
  rewrite E. destruct (in_week id p); cbn; [|exact IH].
  f_equal; [|exact IH]. destruct (cond p); [apply Hn|reflexivity].
Qed.

Lemma weeks_complete_update d us cond f :
  (forall p, Parts.week_id (f p) = Parts.week_id p) ->
  (forall p, Parts.number (f p) = Parts.number p) ->
  weeks_complete d ->
  weeks_complete (mkDb us (weeks d) (update_where cond f (parts d))).
Proof.
  intros Hw Hn (Hnd & Hall & Hown). split; [exact Hnd|]. split.
  - intros k Hk. cbn [weeks] in Hk. rewrite numbers_of_update by assumption.
    now apply Hall.
  - intros p Hp. cbn [parts weeks] in *.
    apply update_where_In in Hp as [q [Hq ->]].
    destruct (cond q); [rewrite Hw|]; now apply Hown.
Qed.

Hypothesis gen_id_fresh : forall l, ~ In (gen_id l) l.

Lemma weeks_complete_insert d us key :
  weeks_complete d ->
  let id := gen_id (map Weeks.id (weeks d)) in
  weeks_complete
    (mkDb us (weeks d ++ [Weeks.mk id key])
          (parts d ++ map (new_part id) generate_series_1_30)).
Proof.
  intros (Hnd & Hall & Hown) id.
  assert (~ In id (map Weeks.id (weeks d))) as Hfresh by apply gen_id_fresh.
  assert (forall p, In p (parts d) -> in_week id p = false) as Hold.
  { intros p Hp. unfold in_week. apply eqb_neq. intros E.
    apply Hown in Hp. now rewrite E in Hp. }
  split; [|split]; cbn [weeks parts].
  - rewrite map_app. apply NoDup_app; [exact Hnd|repeat constructor; intros []|].
    intros a Ha [<-|[]]. now apply Hfresh.
  - intros k Hk. unfold numbers_of. cbn [parts]. rewrite filter_app, map_app.
    apply in_app_or in Hk as [Hk|[<-|[]]].
    + rewrite (filter_none (in_week (Weeks.id k))
                 (map (new_part id) generate_series_1_30)).
      * rewrite app_nil_r. now apply Hall.
      * intros p Hp. apply in_map_iff in Hp as [n [<- _]].
        unfold in_week. cbn. apply eqb_neq. intros E. apply Hfresh.
        rewrite E. now apply in_map.
    + cbn [Weeks.id]. rewrite (filter_none _ _ Hold). cbn [app map].
      rewrite filter_all.
      * rewrite map_map. reflexivity.
      * intros p Hp. apply in_map_iff in Hp as [n [<- _]].
        unfold in_week. cbn. apply eqb_refl.
  - intros p Hp. rewrite map_app. apply in_or_app.
    apply in_app_or in Hp as [Hp|Hp].
    + left. now apply Hown.
    + right. apply in_map_iff in Hp as [n [<- _]]. now left.
Qed.

Lemma weeks_complete_same d d0 :
  weeks d0 = weeks d -> parts d0 = parts d ->
  weeks_complete d -> weeks_complete d0.
Proof.
  unfold weeks_complete, numbers_of. intros -> ->. tauto.
Qed.

Lemma commits_complete d d0 log :
  weeks d0 = weeks d -> parts d0 = parts d ->
  weeks_complete d -> commits gen_id d log ->
  weeks_complete (fold_left apply_write log d0).
Proof.
  intros Hw Hp Hc Hlog.
  destruct Hlog; cbn [fold_left apply_write users weeks parts]; rewrite ?Hw, ?Hp.
  - now apply weeks_complete_same with (d := d).
  - now apply weeks_complete_update.
  - now apply weeks_complete_update.
  - now apply weeks_complete_update.
  - now apply weeks_complete_insert.
  - apply (weeks_complete_update
             (mkDb (users d0) (weeks d ++ [Weeks.mk (gen_id (map Weeks.id (weeks d))) key])
                   (parts d ++ map (fun n => Parts.mk (gen_id (map Weeks.id (weeks d)))
                                                      n None None None)
                                   generate_series_1_30)));
      [reflexivity|reflexivity|].
    now apply weeks_complete_insert.
Qed.

(** One request, whichever of its statements fail, keeps every week and
    its thirty parts. *)
Lemma serve_under_complete s now d r :
  calm s -> weeks_complete d ->
  weeks_complete (snd (serve_under env gen_id s now d r))
  /\ forall k, In k (weeks d) ->
       In k (weeks (snd (serve_under env gen_id s now d r)))
       /\ numbers_of (Weeks.id k) (snd (serve_under env gen_id s now d r))
          = numbers_of (Weeks.id k) d.
Proof.
  intros Hs Hd.
  set (Good := fun d' : Db =>
                 weeks_complete d'
                 /\ forall k, In k (weeks d) ->
                      In k (weeks d')
                      /\ numbers_of (Weeks.id k) d' = numbers_of (Weeks.id k) d).
  assert (forall d1 d2, weeks d2 = weeks d1 -> parts d2 = parts d1 ->
                        Good d1 -> Good d2) as Hwp.
  { unfold Good, numbers_of. intros d1 d2 Hw Hp [Hc Hk]. split.
    - now apply (weeks_complete_same d1 d2).
    - now rewrite Hw, Hp. }
  assert (Good d) as Hstart.
  { split; [exact Hd|]. now split. }
  assert (forall log, commits gen_id d log -> Good (fold_left apply_write log d))
    as Hcommit.
  { intros log Hlog.
    assert (weeks_complete (fold_left apply_write log d)) as Hc
      by now apply (commits_complete d d log).
    split; [exact Hc|]. intros k Hk.
    assert (In k (weeks (fold_left apply_write log d))) as Hk'.
    { destruct Hlog; cbn [fold_left apply_write weeks]; try assumption;
        apply in_or_app; now left. }
    split; [exact Hk'|].
    destruct Hc as (_ & Hall' & _). destruct Hd as (_ & Hall & _).
    rewrite (Hall' k Hk'). symmetry. now apply Hall. }
  pose proof (handle_keeps env gen_id d Good Hwp Hstart Hcommit r
                           (mkWorld d [] s [] now)) as H.
  unfold serve_under.
  destruct (handle env gen_id r (mkWorld d [] s [] now)) as [[a|e] w'];
    apply H; now repeat split.
Qed.

Lemma serve_complete now d r :
  weeks_complete d -> weeks_complete (snd (serve env gen_id now d r)).
Proof.
  intros H. apply (serve_under_complete [] now d r); [constructor|exact H].
Qed.

Lemma serve_all_complete d rs :
  weeks_complete d -> weeks_complete (serve_all env gen_id d rs).
Proof.
  revert d. induction rs as [|[now r] rs IH]; intros d H; cbn [serve_all];
    [assumption|].
  apply IH. now apply serve_complete.
Qed.

Lemma serve_all_under_complete d rs :
  Forall (fun x => calm (fst (fst x))) rs ->
  weeks_complete d -> weeks_complete (serve_all_under env gen_id d rs).
Proof.
  revert d. induction rs as [|[[s now] r] rs IH]; intros d Hrs H;
    cbn [serve_all_under]; [assumption|].
  inversion Hrs as [|? ? Hs Hrest]; subst. apply IH; [exact Hrest|].
  now apply serve_under_complete.
Qed.

Lemma empty_db_complete : weeks_complete empty_db.
Proof.
  split; [constructor|]. split; intros ? [].
Qed.




End Invariants.

(* ================================================================== *)
(** ** Validation of the part number *)
(* ================================================================== *)

(** In a complete store every part has one of the numbers 1 to 30. *)
Lemma complete_numbers_in_range d p :
  weeks_complete d -> In p (parts d) -> 1 <= Parts.number p <= 30.
Proof.
  intros (_ & Hall & Hown) Hp. apply generate_series_1_30_In.
  pose proof (Hown p Hp) as Hk. apply in_map_iff in Hk as [k [Hid Hk]].
  rewrite <- (Hall k Hk). unfold numbers_of. apply in_map.
  apply filter_In. split; [exact Hp|]. unfold in_week.
  rewrite Hid. apply eqb_refl.
Qed.

(** Where the parts are numbered 1 to 30, a whole number outside 1..30
    names no part. *)
Lemma parts_by_key_out_of_range d weekId z :
  (forall p, In p (parts d) -> 1 <= Parts.number p <= 30) ->
  ~ 1 <= z <= 30 ->
  Sql.parts_by_key weekId (of_Z z) d = [].
Proof.
  intros Hin Hz. unfold Sql.parts_by_key. apply filter_none.
  intros p Hp. unfold part_matches, number_matches.
  destruct (eqb (Parts.week_id p) weekId); [|reflexivity].
  cbn [andb]. rewrite num_eqb_of_Z. apply Z.eqb_neq.
  specialize (Hin p Hp). lia.
Qed.

Section Validation.

Variable env : Env.
Variable gen_id : list jsstring -> jsstring.

Lemma hoare_any {A} (m : M A) : hoare anywhere m (fun _ => anywhere) anywhere.
Proof. intros w _. destruct (m w) as [[a|e] w']; exact I. Qed.

Lemma hoare_answer (r : Response) (Q : Response -> World -> Prop) :
  (forall w, Q r w) -> hoare anywhere (ret r) Q anywhere.
Proof. intros H w _. apply H. Qed.

Lemma hoare_then_answer {A} (m : M A) (r : Response) (Q : Response -> World -> Prop) :
  (forall w, Q r w) -> hoare anywhere (m ;; ret r) Q anywhere.
Proof.
  intros H. eapply hoare_bind; [apply hoare_any|]. intros a. now apply hoare_answer.
Qed.

Lemma claim_passes_validation caller weekId n profile w :
  weekId <> [] -> isNaN n = false ->
  fst (post_claim env caller weekId n profile w) <> Ok (fail 400 BAD_REQUEST).
Proof.
  intros Hw Hn.
  assert (hoare anywhere (post_claim env caller weekId n profile)
                (fun r _ => r <> fail 400 BAD_REQUEST) anywhere) as H.
  { unfold post_claim. destruct weekId as [|c0 r0]; [contradiction|].
    cbn [truthy negb orb]. rewrite Hn.
    apply hoare_try_catch with (X := anywhere).
    2:{ intros e. apply hoare_then_answer. intros; discriminate. }
    eapply hoare_bind; [apply hoare_any|]. intros user.
    eapply hoare_bind; [apply hoare_any|]. intros done.
    eapply hoare_bind; [apply hoare_any|]. intros [|row rest].
    { apply hoare_then_answer. intros; discriminate. }
    destruct (truthy (Parts.claimed_by row)).
    { apply hoare_then_answer. intros; discriminate. }
    eapply hoare_bind; [apply hoare_any|]. intros user_name.
    eapply hoare_bind; [apply hoare_any|]. intros user_id.
    eapply hoare_bind; [apply hoare_any|]. intros at_.
    eapply hoare_bind; [apply hoare_any|]. intros done1.
    eapply hoare_bind; [apply hoare_any|]. intros done2.
    eapply hoare_bind; [apply hoare_any|]. intros adm.
    apply hoare_then_answer. intros; discriminate. }
  specialize (H w I).
  destruct (post_claim env caller weekId n profile w) as [[r|e] w'];
    cbn [fst]; [congruence|discriminate].
Qed.

Lemma release_passes_validation caller weekId n w :
  weekId <> [] -> isNaN n = false ->
  fst (post_release caller weekId n w) <> Ok (fail 400 BAD_REQUEST).
Proof.
  intros Hw Hn.
  assert (hoare anywhere (post_release caller weekId n)
                (fun r _ => r <> fail 400 BAD_REQUEST) anywhere) as H.
  { unfold post_release. destruct weekId as [|c0 r0]; [contradiction|].
    cbn [truthy negb orb]. rewrite Hn.
    apply hoare_try_catch with (X := anywhere).
    2:{ intros e. apply hoare_then_answer. intros; discriminate. }
    eapply hoare_bind; [apply hoare_any|]. intros user.
    eapply hoare_bind; [apply hoare_any|]. intros done.
    eapply hoare_bind; [apply hoare_any|]. intros [|row rest].
    { apply hoare_then_answer. intros; discriminate. }
    destruct (_ || _).
    { apply hoare_then_answer. intros; discriminate. }
    eapply hoare_bind; [apply hoare_any|]. intros done1.
    eapply hoare_bind; [apply hoare_any|]. intros done2.
    apply hoare_then_answer. intros; discriminate. }
  specialize (H w I).
  destruct (post_release caller weekId n w) as [[r|e] w'];
    cbn [fst]; [congruence|discriminate].
Qed.

Lemma pool_query_after_quiet {A} (q : Db -> Outcome (A * Db)) d s tr c :
  pool_query q (mkWorld d [] (Quiet :: s) tr c) =
  match q d with
  | Ok (a, d') => (Ok a, mkWorld d' [] s tr c)
  | Throw e => (Throw e, mkWorld d [] s tr c)
  end.
Proof.
  unfold pool_query, bind, hazard. cbn.
  destruct (q d) as [[a d']|e]; reflexivity.
Qed.

Lemma getUserById_after_quiet id d s tr c :
  getUserById id (mkWorld d [] (Quiet :: s) tr c) =
  match Sql.users_by_id id d with
  | u :: _ => (Ok u, mkWorld d [] s tr c)
  | [] => (Throw (JsError "USER_NOT_FOUND"), mkWorld d [] s tr c)
  end.
Proof.
  unfold getUserById. unfold bind. rewrite pool_query_after_quiet.
  destruct (Sql.users_by_id id d); reflexivity.
Qed.

Lemma updateUserProfile_after_quiet id p d s tr c existing others :
  Sql.users_by_id id d = existing :: others ->
  updateUserProfile env id p (mkWorld d [] (Quiet :: Quiet :: s) tr c) =
  let name := or_else (option_map trim (Profile.name p)) (Users.name existing) in
  let phone := normalizePhone (or_else (Profile.phone p) (Users.phone existing)) in
  let isAdmin := computeAdminFlag env name phone (Users.is_admin existing) in
  match Sql.update_user id name phone isAdmin d with
  | Ok (rows, d') => (Ok (hd_error rows), mkWorld d' [] s tr c)
  | Throw e => (Throw e, mkWorld d [] s tr c)
  end.
Proof.
  intros E. unfold updateUserProfile. unfold bind at 1.
  rewrite getUserById_after_quiet, E. cbv zeta.
  unfold bind. rewrite pool_query_after_quiet.
  destruct (Sql.update_user _ _ _ _ d) as [[rows d']|e]; reflexivity.
Qed.

(** Resolving the caller on a schedule that starts with a quiet entry for
    each of its statements: the same result, the rest of the schedule
    left. *)
Lemma resolve_caller_after_quiet caller profile d now u d1 rest tr :
  resolve_caller env caller profile (idle d now) = (Ok u, idle d1 now) ->
  resolve_caller env caller profile
    (mkWorld d [] (repeat Quiet (statements_before_lookup profile - 1) ++ rest) tr now)
  = (Ok u, mkWorld d1 [] rest tr now).
Proof.
  unfold resolve_caller, statements_before_lookup, idle.
  unfold bind. rewrite getUserById_quiet.
  destruct (truthy (Profile.name profile) || truthy (Profile.phone profile)) eqn:T;
    cbn [Nat.sub repeat app]; rewrite getUserById_after_quiet;
    destruct (Sql.users_by_id caller d) as [|user others] eqn:E;
    try discriminate.
  - assert (Users.id user = caller) as Hid.
    { apply filter_head in E as [_ E]. now apply eqb_eq. }
    rewrite Hid, updateUserProfile_quiet,
      (updateUserProfile_after_quiet caller profile d rest tr now user others E), E.
    cbv zeta.
    destruct (Sql.update_user _ _ _ _ d) as [[rows d']|e]; [|discriminate].
    intros H. inversion H; subst. reflexivity.
  - unfold ret. intros H. inversion H; subst. reflexivity.
Qed.

Lemma claim_until_lookup reads caller weekId n profile d now u d1 :
  weekId <> [] -> isNaN n = false ->
  resolve_caller env caller profile (idle d now) = (Ok u, idle d1 now) ->
  serve_under env gen_id (until_lookup (statements_before_lookup profile) reads n) now d
    (ClaimPart caller weekId n profile)
  = if reads n
    then serve env gen_id now d (ClaimPart caller weekId n profile)
    else (Ok (fail 500 CLAIM_FAILED), d1).
Proof.
  intros Hw Hn Hres.
  assert (until_lookup (statements_before_lookup profile) reads n
          = repeat Quiet (statements_before_lookup profile - 1)
            ++ [Quiet; lookup_hazard reads n]) as ->
    by (unfold until_lookup, statements_before_lookup; now destruct (_ || _)).
  unfold serve. rewrite (claim_quiet env gen_id caller weekId n profile d now (Ok u) d1)
    by assumption.
  unfold serve_under. cbn [handle]. unfold post_claim.
  destruct weekId as [|c0 r0]; [contradiction|]. cbn [truthy negb orb]. rewrite Hn.
  unfold try_catch. unfold bind at 1.
  rewrite (resolve_caller_after_quiet caller profile d now u d1 _ [] Hres).
  unfold lookup_hazard. destruct (reads n).
  - unfold BEGIN, client_select, bind, hazard. cbn. unfold view. cbn.
    destruct (Sql.parts_by_key (c0 :: r0) n d1) as [|row rest]; [reflexivity|].
    destruct (truthy (Parts.claimed_by row)); [reflexivity|].
    destruct u as [user|]; reflexivity.
  - unfold BEGIN, client_select, ROLLBACK, bind, hazard. cbn. reflexivity.
Qed.

Lemma release_until_lookup reads caller weekId n d now u others :
  weekId <> [] -> isNaN n = false ->
  Sql.users_by_id caller d = u :: others ->
  serve_under env gen_id (until_lookup 2 reads n) now d (ReleasePart caller weekId n)
  = if reads n
    then serve env gen_id now d (ReleasePart caller weekId n)
    else (Ok (fail 500 RELEASE_FAILED), d).
Proof.
  intros Hw Hn Hu.
  unfold serve. rewrite release_quiet, Hu by assumption.
  unfold serve_under, until_lookup. cbn [handle repeat app]. unfold post_release.
  destruct weekId as [|c0 r0]; [contradiction|]. cbn [truthy negb orb]. rewrite Hn.
  unfold try_catch. unfold bind at 1.
  rewrite getUserById_after_quiet, Hu.
  unfold lookup_hazard. destruct (reads n).
  - unfold BEGIN, client_select, bind, hazard. cbn. unfold view. cbn.
    destruct (Sql.parts_by_key (c0 :: r0) n d) as [|row rest]; [reflexivity|].
    destruct (_ || _); reflexivity.
  - unfold BEGIN, client_select, ROLLBACK, bind, hazard. cbn. reflexivity.
Qed.

(** C10, as amended. The part number of a claim or a release is refused
    with BAD_REQUEST exactly when it is NaN, before any statement is sent;
    any other number passes, whole or not, in range or not, and in no world
    is the answer BAD_REQUEST. What follows is the store's answer to the
    lookup of the part. The type of the column [number] is not declared in
    the sources: [reads] tells which numbers the store can read as a value
    of it. A number it cannot read makes the lookup fail, and the answer is
    the error CLAIM_FAILED or RELEASE_FAILED with no part changed; a number
    it can read and that is no part's number finds no part, and the answer
    is PART_NOT_FOUND. Where the parts are numbered 1 to 30, a whole number
    outside 1..30 (as 0 and 31) is no part's number. *)
Theorem part_number_validation (reads : jsnumber -> bool) (d : Db) (now : Z)
    (caller weekId : jsstring) (n : jsnumber) (profile : Profile.t) :
  weekId <> [] ->
  let claim :=
    serve_under env gen_id (until_lookup (statements_before_lookup profile) reads n)
      now d (ClaimPart caller weekId n profile) in
  let release :=
    serve_under env gen_id (until_lookup 2 reads n) now d
      (ReleasePart caller weekId n) in
  (isNaN n = true ->
     forall w,
       handle env gen_id (ClaimPart caller weekId n profile) w
       = (Ok (fail 400 BAD_REQUEST), w)
       /\ handle env gen_id (ReleasePart caller weekId n) w
          = (Ok (fail 400 BAD_REQUEST), w))
  /\ (isNaN n = false ->
      forall w,
        fst (handle env gen_id (ClaimPart caller weekId n profile) w)
        <> Ok (fail 400 BAD_REQUEST)
        /\ fst (handle env gen_id (ReleasePart caller weekId n) w)
           <> Ok (fail 400 BAD_REQUEST))
  /\ (isNaN n = false -> reads n = false ->
      (forall u d1,
          resolve_caller env caller profile (idle d now) = (Ok u, idle d1 now) ->
          claim = (Ok (fail 500 CLAIM_FAILED), d1)
          /\ weeks d1 = weeks d /\ parts d1 = parts d)
      /\ (forall u others,
            Sql.users_by_id caller d = u :: others ->
            release = (Ok (fail 500 RELEASE_FAILED), d)))
  /\ (isNaN n = false -> reads n = true ->
      Sql.parts_by_key weekId n d = [] ->
      (forall u d1,
          resolve_caller env caller profile (idle d now) = (Ok u, idle d1 now) ->
          claim = (Ok (fail 404 PART_NOT_FOUND), d1))
      /\ (forall u others,
            Sql.users_by_id caller d = u :: others ->
            release = (Ok (fail 404 PART_NOT_FOUND), d)))
  /\ (forall z,
        (forall p, In p (parts d) -> 1 <= Parts.number p <= 30) -> ~ 1 <= z <= 30 ->
        Sql.parts_by_key weekId (of_Z z) d = []).
Proof.
  intros Hw claim release. split; [|split; [|split; [|split]]].
  - intros Hn w. cbn [handle]. unfold post_claim, post_release.
    rewrite Hn, !orb_true_r. now split.
  - intros Hn w. cbn [handle]. split.
    + now apply claim_passes_validation.
    + now apply release_passes_validation.
  - intros Hn Hr. split.
    + intros u d1 Hres. subst claim.
      rewrite (claim_until_lookup reads caller weekId n profile d now u d1)
        by assumption.
      rewrite Hr. split; [reflexivity|].
      pose proof (resolve_caller_quiet env caller profile d [] now)
        as (o & d' & Hres' & Hwk & Hpt & _).
      unfold idle in Hres. rewrite Hres in Hres'. inversion Hres'; subst d'.
      now split.
    + intros u others Hu. subst release.
      rewrite (release_until_lookup reads caller weekId n d now u others) by assumption.
      now rewrite Hr.
  - intros Hn Hr Hnone. split.
    + intros u d1 Hres. subst claim.
      rewrite (claim_until_lookup reads caller weekId n profile d now u d1)
        by assumption.
      rewrite Hr. unfold serve. erewrite claim_quiet by eassumption.
      pose proof (resolve_caller_quiet env caller profile d [] now)
        as (o & d' & Hres' & Hwk & Hpt & _).
      unfold idle in Hres. rewrite Hres in Hres'. inversion Hres'; subst d'.
      unfold Sql.parts_by_key in *. now rewrite Hpt, Hnone.
    + intros u others Hu. subst release.
      rewrite (release_until_lookup reads caller weekId n d now u others) by assumption.
      rewrite Hr. unfold serve. rewrite release_quiet, Hu by assumption.
      now rewrite Hnone.
  - intros z Hd Hz. now apply parts_by_key_out_of_range.
Qed.

End Validation.

(* ================================================================== *)
(** ** Week lookup *)
(* ================================================================== *)

Section WeekLookup.

Variable env : Env.
Variable gen_id : list jsstring -> jsstring.

Lemma weeks_by_key_new key ws us ps id :
  Sql.weeks_by_key key (mkDb us ws ps) = [] ->
  Sql.weeks_by_key key (mkDb us (ws ++ [Weeks.mk id key]) ps) = [Weeks.mk id key].
Proof.
  unfold Sql.weeks_by_key. cbn [weeks]. intros H.
  rewrite filter_app, H. cbn. now rewrite eqb_refl.
Qed.

(** A lookup that is overtaken at its insert answers with an error. *)
Lemma get_week_overtaken other key d now :
  key <> [] ->
  Sql.weeks_by_key key d = [] ->
  Sql.weeks_by_key key (other d) <> [] ->
  handle env gen_id (GetWeek key) (overtaken_at_insert other d now)
  = (Ok (fail 500 WEEK_FETCH_FAILED),
     mkWorld (other d) [] [] [ObsBegin; ObsRollback] now).
Proof.
  intros Hk Hnew Hwon.
  cbn [handle]. unfold get_week.
  destruct key as [|c0 r0]; [contradiction|]. cbn [truthy negb].
  unfold overtaken_at_insert, try_catch, BEGIN, getWeek, ensureWeek, insert_week,
    client_select, bind, hazard.
  cbn. unfold view. cbn. rewrite Hnew. cbn. unfold view. cbn. rewrite Hnew.
  cbn. unfold view. cbn.
  destruct (Sql.weeks_by_key (c0 :: r0) (other d)) as [|k ks] eqn:E;
    [contradiction|].
  unfold Sql.weeks_by_key in E. unfold Sql.week_key_taken.
  rewrite (filter_cons_existsb _ _ _ _ E). reflexivity.
Qed.

(** C5, as amended. Looking a week up by its key is get-or-create, and
    idempotent when the lookups come one after the other: a key that exists
    gives its week and changes nothing; an unseen key creates the week with
    its thirty parts, and the next lookup gives that same week. An insert
    that fails the uniqueness constraint because another creation won is
    not caught: the transaction is rolled back, the store is the winner's,
    and the caller gets the error WEEK_FETCH_FAILED. *)
Theorem resolve_week_spec (d : Db) (now : Z) (key : jsstring) :
  key <> [] ->
  (forall k rest,
      Sql.weeks_by_key key d = k :: rest ->
      serve env gen_id now d (GetWeek key)
      = (Ok (json (WeekBody (Weeks.id k) (Weeks.week_key k)
                            (Sql.parts_of_week (Weeks.id k) d))), d))
  /\ (Sql.weeks_by_key key d = [] ->
      let id := gen_id (map Weeks.id (weeks d)) in
      let d' := mkDb (users d) (weeks d ++ [Weeks.mk id key])
                     (parts d ++ map (new_part id)
                                     generate_series_1_30) in
      serve env gen_id now d (GetWeek key)
      = (Ok (json (WeekBody id key (Sql.parts_of_week id d'))), d')
      /\ forall later,
          serve env gen_id later d' (GetWeek key)
          = (Ok (json (WeekBody id key (Sql.parts_of_week id d'))), d'))
  /\ (forall other,
      Sql.weeks_by_key key d = [] ->
      Sql.weeks_by_key key (other d) <> [] ->
      handle env gen_id (GetWeek key) (overtaken_at_insert other d now)
      = (Ok (fail 500 WEEK_FETCH_FAILED),
         mkWorld (other d) [] [] [ObsBegin; ObsRollback] now)).
Proof.
  intros Hk. split; [|split].
  - intros k rest E. unfold serve. rewrite get_week_quiet, E by assumption.
    reflexivity.
  - intros E id d'. split.
    + unfold serve. rewrite get_week_quiet, E by assumption. reflexivity.
    + intros later. unfold serve. rewrite get_week_quiet by assumption.
      subst d'. destruct d as [us ws ps]. cbn [users weeks parts] in *.
      rewrite (weeks_by_key_new key ws us _ id); [reflexivity|].
      exact E.
  - intros other Hnew Hwon. now apply get_week_overtaken.
Qed.

End WeekLookup.

(* ================================================================== *)
(** ** The admin flag *)
(* ================================================================== *)

Lemma NoDup_map_same {A B} (f : A -> B) (l : list A) a b :
  NoDup (map f l) -> In a l -> In b l -> f a = f b -> a = b.
Proof.
  induction l as [|x l IH]; intros Hnd Ha Hb Hf; [destruct Ha|].
  cbn in Hnd. inversion Hnd as [|? ? Hx Hl]; subst.
  destruct Ha as [->|Ha], Hb as [->|Hb].
  - reflexivity.
  - exfalso. apply Hx. rewrite Hf. now apply in_map.
  - exfalso. apply Hx. rewrite <- Hf. now apply in_map.
  - now apply IH.
Qed.

Section AdminFlag.

Variable env : Env.
Variable gen_id : list jsstring -> jsstring.

(** A profile update whose statements go through or fail, with no commit
    of another connection in between: the store is as before, or it is the
    store after the one update statement, run on the row just read. *)
Lemma profile_under_calm s now d caller p :
  calm s ->
  snd (serve_under env gen_id s now d (PostProfile caller p)) = d
  \/ exists existing rest rows,
       Sql.users_by_id caller d = existing :: rest
       /\ let name := or_else (option_map trim (Profile.name p)) (Users.name existing) in
          let phone := normalizePhone (or_else (Profile.phone p) (Users.phone existing)) in
          let isAdmin := computeAdminFlag env name phone (Users.is_admin existing) in
          Sql.update_user caller name phone isAdmin d
          = Ok (rows, snd (serve_under env gen_id s now d (PostProfile caller p))).
Proof.
  intros Hs. remember (snd (serve_under env gen_id s now d (PostProfile caller p))) as d1
    eqn:Hd1.
  unfold serve_under in Hd1. cbn [handle] in Hd1.
  unfold post_profile, try_catch, updateUserProfile, getUserById, pool_query, bind,
    hazard in Hd1.
  cbn [sched] in Hd1.
  assert (forall rows (o : option Users.row -> Outcome Response * World) dd,
             (forall x, db (snd (o x)) = dd) ->
             db (snd (o (hd_error rows))) = dd) as Hany by (intros; auto).
  destruct s as [|[|f|] s1]; cbn [db set_sched set_db tx trace clock sched] in Hd1;
    try (now apply calm_concurrent in Hs).
  - destruct (Sql.users_by_id caller d) as [|existing rest] eqn:E;
      cbn in Hd1; [now left|].
    destruct (Sql.update_user _ _ _ _ d) as [[rows d']|e] eqn:U;
      cbn in Hd1; [|now left].
    right. exists existing, rest, rows. split; [reflexivity|]. cbv zeta.
    rewrite U. f_equal. f_equal. rewrite Hd1. destruct (hd_error rows); reflexivity.
  - apply calm_tail in Hs.
    destruct (Sql.users_by_id caller d) as [|existing rest] eqn:E;
      cbn in Hd1; [destruct s1 as [|[|f|] s2]; now left|].
    destruct s1 as [|[|f|] s2]; cbn in Hd1;
      try (now apply calm_concurrent in Hs); try (now left).
    + destruct (Sql.update_user _ _ _ _ d) as [[rows d']|e] eqn:U;
        cbn in Hd1; [|now left].
      right. exists existing, rest, rows. split; [reflexivity|]. cbv zeta.
      rewrite U. f_equal. f_equal. rewrite Hd1. destruct (hd_error rows); reflexivity.
    + destruct (Sql.update_user _ _ _ _ d) as [[rows d']|e] eqn:U;
        cbn in Hd1; [|now left].
      right. exists existing, rest, rows. split; [reflexivity|]. cbv zeta.
      rewrite U. f_equal. f_equal. rewrite Hd1. destruct (hd_error rows); reflexivity.
  - cbn in Hd1. destruct s1 as [|[|f|] s2]; now left.
Qed.

Lemma update_user_keeps_admins id name phone d rows d' existing rest u u' :
  NoDup (map Users.id (users d)) ->
  Sql.users_by_id id d = existing :: rest ->
  Sql.update_user id name phone
    (computeAdminFlag env name phone (Users.is_admin existing)) d = Ok (rows, d') ->
  In u (users d) -> Users.is_admin u = true ->
  In u' (users d') -> Users.id u' = Users.id u ->
  Users.is_admin u' = true.
Proof.
  intros Hnd Eex E Hu Hadm Hin Hid.
  assert (forall v, In v (users d) -> Users.id v = Users.id u -> v = u) as Hsame.
  { intros v Hv Ev. now apply (NoDup_map_same Users.id (users d)). }
  unfold Sql.update_user in E.
  destruct (_ && _); [discriminate|]. inversion E; subst; clear E.
  cbn [users] in Hin. apply in_map_iff in Hin as [q [Hq Hqin]].
  apply filter_head in Eex as [Hexin Hex]. apply eqb_eq in Hex.
  destruct (eqb (Users.id q) id) eqn:Ehit.
  + apply eqb_eq in Ehit. subst u'. cbn [Users.id Users.is_admin] in *.
    assert (q = u) by now apply Hsame.
    assert (existing = u) by (apply Hsame; [assumption|congruence]).
    subst. now rewrite Hadm.
  + subst u'. now rewrite (Hsame q Hqin Hid).
Qed.

Lemma updateUserProfile_flag w caller profile existing w1 u' w2 :
  getUserById caller w = (Ok existing, w1) ->
  updateUserProfile env caller profile w = (Ok (Some u'), w2) ->
  Users.is_admin u'
  = computeAdminFlag env (Users.name u') (Users.phone u') (Users.is_admin existing).
Proof.
  intros Hget Hup. unfold updateUserProfile in Hup. unfold bind at 1 in Hup.
  rewrite Hget in Hup. unfold pool_query, bind in Hup.
  destruct (hazard w1) as [[done|e] w1']; [|cbn in Hup; discriminate].
  destruct (Sql.update_user _ _ _ _ (db w1')) as [[rows d']|e] eqn:U;
    [|cbn in Hup; discriminate].
  cbn in Hup. injection Hup as Hhd Hw.
  destruct (update_user_returns _ _ _ _ _ _ _ _ U Hhd) as (_ & -> & -> & ->).
  reflexivity.
Qed.

(** C7, as amended. [computeAdminFlag] is the disjunction of the current
    flag, the name matching the configured admin name and the phone being
    on the configured list; it keeps a flag that is set and is monotone in
    the current flag. In every world the flag a profile update writes is
    [computeAdminFlag] at the flag it read, so never below it; and when no
    other connection commits between its read and its write, whichever of
    its statements fail, a profile update leaves every admin an admin.
    (Read and write are two statements, each committed on its own: a grant
    committed between them is overwritten.) *)
Theorem computeAdminFlag_monotone :
  (forall name phone current,
      computeAdminFlag env name phone current
      = current || name_matches env name || phone_listed env phone)
  /\ (forall name phone, computeAdminFlag env name phone true = true)
  /\ (forall name phone current,
        current = true -> computeAdminFlag env name phone current = true)
  /\ (forall name phone a b,
        Bool.le a b ->
        Bool.le (computeAdminFlag env name phone a) (computeAdminFlag env name phone b))
  /\ (forall w caller profile existing w1 u' w2,
        getUserById caller w = (Ok existing, w1) ->
        updateUserProfile env caller profile w = (Ok (Some u'), w2) ->
        Users.is_admin u'
        = computeAdminFlag env (Users.name u') (Users.phone u') (Users.is_admin existing)
        /\ (Users.is_admin existing = true -> Users.is_admin u' = true))
  /\ (forall s d now caller profile u u',
        calm s ->
        NoDup (map Users.id (users d)) ->
        In u (users d) -> Users.is_admin u = true ->
        In u' (users (snd (serve_under env gen_id s now d (PostProfile caller profile)))) ->
        Users.id u' = Users.id u ->
        Users.is_admin u' = true).
Proof.
  split; [|split; [|split; [|split; [|split]]]].
  - intros name phone current. apply computeAdminFlag_spec.
  - reflexivity.
  - intros name phone current ->. reflexivity.
  - intros name phone a b Hab. rewrite !computeAdminFlag_spec.
    unfold spec_computeAdminFlag.
    rewrite <- !orb_assoc.
    destruct a, b; cbn in *; try discriminate;
      destruct (name_matches env name || phone_listed env phone); cbn; auto.
  - intros w caller profile existing w1 u' w2 Hget Hup.
    pose proof (updateUserProfile_flag w caller profile existing w1 u' w2 Hget Hup) as E.
    split; [exact E|]. intros Hadm. rewrite E, Hadm. reflexivity.
  - intros s d now caller profile u u' Hs Hnd Hu Hadm Hu' Hid.
    destruct (profile_under_calm s now d caller profile Hs)
      as [Hsame|(existing & rest & rows & Eex & Hup)].
    + rewrite Hsame in Hu'.
      now rewrite (NoDup_map_same Users.id (users d) u' u Hnd Hu' Hu Hid).
    + cbv zeta in Hup.
      exact (update_user_keeps_admins caller _ _ d rows _ existing rest u u'
               Hnd Eex Hup Hu Hadm Hu' Hid).
Qed.

End AdminFlag.

(* ================================================================== *)
(** ** Broadcasts *)
(* ================================================================== *)

Lemma emits_app a b : emits (a ++ b) = emits a ++ emits b.
Proof.
  induction a as [|o a IH]; cbn; [reflexivity|].
  destruct o; cbn; now rewrite ?IH.
Qed.

Lemma quiet_from_refl t : quiet_from t t.
Proof. exists []. now rewrite app_nil_r. Qed.

Lemma quiet_from_trans t1 t2 t3 :
  quiet_from t1 t2 -> quiet_from t2 t3 -> quiet_from t1 t3.
Proof.
  intros (a & -> & Ha) (b & -> & Hb). exists (a ++ b).
  rewrite app_assoc, emits_app, Ha, Hb. now split.
Qed.

Lemma quiet_from_emits t t' : quiet_from t t' -> emits t' = emits t.
Proof.
  intros (a & -> & Ha). now rewrite emits_app, Ha, app_nil_r.
Qed.

Lemma quiet_then_committed t1 t2 t3 :
  quiet_from t1 t2 -> committed_then_emitted t2 t3 -> committed_then_emitted t1 t3.
Proof.
  intros (a & -> & Ha) (b & room & ev & -> & Hb). exists (a ++ b), room, ev.
  rewrite emits_app, Ha, Hb, <- !app_assoc. now split.
Qed.

Lemma committed_then_emitted_emits t t' :
  committed_then_emitted t t' ->
  exists room ev, emits t' = emits t ++ [(room, ev)].
Proof.
  intros (a & room & ev & -> & Ha). exists room, ev.
  now rewrite !emits_app, Ha.
Qed.

Section Traces.

Context {A B : Type}.

Lemma traceless_silent (m : M A) : traceless m -> silent m.
Proof. intros H w. rewrite H. apply quiet_from_refl. Qed.

Lemma traceless_ret (a : A) : traceless (ret a).
Proof. intros w. reflexivity. Qed.

Lemma traceless_throw e : traceless (@throw A e).
Proof. intros w. reflexivity. Qed.

Lemma traceless_bind (m : M A) (k : A -> M B) :
  traceless m -> (forall a, traceless (k a)) -> traceless (bind m k).
Proof.
  intros Hm Hk w. unfold bind. specialize (Hm w).
  destruct (m w) as [[a|e] w1]; cbn in *; [|assumption].
  now rewrite Hk.
Qed.

Lemma silent_bind (m : M A) (k : A -> M B) :
  silent m -> (forall a, silent (k a)) -> silent (bind m k).
Proof.
  intros Hm Hk w. unfold bind. specialize (Hm w).
  destruct (m w) as [[a|e] w1]; cbn in *; [|assumption].
  eapply quiet_from_trans; [exact Hm|apply Hk].
Qed.

Lemma traceless_field {R} (r : option R) (f : R -> A) : traceless (field r f).
Proof. destruct r; intros w; reflexivity. Qed.

Lemma traceless_pool_query (q : Db -> Outcome (A * Db)) : traceless (pool_query q).
Proof.
  intros w. unfold pool_query, bind, hazard.
  destruct (sched w) as [|[|f|] s]; cbn; try reflexivity;
    match goal with |- context [q ?d] => destruct (q d) as [[a d']|e] end;
    reflexivity.
Qed.

Lemma traceless_client_select (q : Db -> A) : traceless (client_select q).
Proof.
  intros w. unfold client_select, bind, hazard.
  destruct (sched w) as [|[|f|] s]; reflexivity.
Qed.

End Traces.

Lemma traceless_client_write wr : traceless (client_write wr).
Proof.
  intros w. unfold client_write, bind, hazard.
  destruct (sched w) as [|[|f|] s]; reflexivity.
Qed.

Lemma traceless_now : traceless now.
Proof. intros w. reflexivity. Qed.

Lemma traceless_signSession s : traceless (signSession s).
Proof. intros w. reflexivity. Qed.

Lemma silent_BEGIN : silent BEGIN.
Proof.
  intros w. unfold BEGIN, bind, hazard.
  destruct (sched w) as [|[|f|] s]; cbn;
    try (exists [ObsBegin]; now split); apply quiet_from_refl.
Qed.

Lemma silent_ROLLBACK : silent ROLLBACK.
Proof.
  intros w. unfold ROLLBACK, hazard.
  destruct (sched w) as [|[|f|] s]; cbn;
    try (exists [ObsRollback]; now split); apply quiet_from_refl.
Qed.

Lemma traceless_getUserById id : traceless (getUserById id).
Proof.
  unfold getUserById. apply traceless_bind; [apply traceless_pool_query|].
  intros [|u us]; [apply traceless_throw|apply traceless_ret].
Qed.

Lemma traceless_updateUserProfile env id p : traceless (updateUserProfile env id p).
Proof.
  unfold updateUserProfile. apply traceless_bind; [apply traceless_getUserById|].
  intros u. apply traceless_bind; [apply traceless_pool_query|].
  intros rows. apply traceless_ret.
Qed.

Lemma traceless_resolve_caller env caller p : traceless (resolve_caller env caller p).
Proof.
  unfold resolve_caller. apply traceless_bind; [apply traceless_getUserById|].
  intros u. destruct (_ || _); [apply traceless_updateUserProfile|apply traceless_ret].
Qed.

Lemma traceless_insert_week gen_id key : traceless (insert_week gen_id key).
Proof.
  intros w. unfold insert_week, bind, hazard.
  destruct (sched w) as [|[|f|] s]; cbn; try reflexivity;
    match goal with
    | |- context [Sql.week_key_taken ?k ?d] => destruct (Sql.week_key_taken k d)
    end;
    reflexivity.
Qed.

Lemma traceless_getWeek gen_id key : traceless (getWeek gen_id key).
Proof.
  unfold getWeek, ensureWeek.
  apply traceless_bind; [apply traceless_client_select|].
  intros [|k ks]; [|apply traceless_ret].
  apply traceless_bind; [|intros; apply traceless_ret].
  apply traceless_bind; [apply traceless_client_select|].
  intros [|k ks]; [|apply traceless_ret].
  apply traceless_bind; [apply traceless_insert_week|].
  intros id. apply traceless_bind; [apply traceless_client_write|].
  intros _. apply traceless_ret.
Qed.

Lemma traceless_fetchParts id : traceless (fetchParts id).
Proof. apply traceless_pool_query. Qed.

(** *** Handlers *)

Lemma eoac_silent (m : M Response) : silent m -> emits_only_after_commit m.
Proof. intros H w. left. apply H. Qed.

Lemma eoac_bind {A} (m : M A) (k : A -> M Response) :
  silent m -> (forall a, emits_only_after_commit (k a)) ->
  emits_only_after_commit (bind m k).
Proof.
  intros Hm Hk w. unfold bind. specialize (Hm w).
  destruct (m w) as [[a|e] w1]; cbn in *; [|now left].
  destruct (Hk a w1) as [Hq|[Hs Hc]].
  - left. eapply quiet_from_trans; eassumption.
  - right. split; [exact Hs|]. eapply quiet_then_committed; eassumption.
Qed.

Lemma eoac_try_catch (body : M Response) (handler : Error -> M Response) :
  emits_only_after_commit body -> (forall e, silent (handler e)) ->
  emits_only_after_commit (try_catch body handler).
Proof.
  intros Hb Hh w. unfold try_catch. specialize (Hb w).
  destruct (body w) as [[a|e] w1]; cbn in *; [exact Hb|].
  destruct Hb as [Hq|[[b Hs] _]]; [|discriminate].
  left. eapply quiet_from_trans; [exact Hq|apply Hh].
Qed.

Lemma emits_last_emit room ev b :
  emits_last (emit room ev ;; ret (json b)).
Proof.
  intros w. right. cbn. split; [now exists b|]. now exists room, ev.
Qed.

Lemma emits_last_bind {A} (m : M A) (k : A -> M Response) :
  traceless m -> (forall a, emits_last (k a)) -> emits_last (bind m k).
Proof.
  intros Hm Hk w. unfold bind. specialize (Hm w).
  destruct (m w) as [[a|e] w1]; cbn in *; [|now left].
  rewrite <- Hm. apply Hk.
Qed.

Lemma eoac_commit (m : M Response) :
  emits_last m -> emits_only_after_commit (COMMIT ;; m).
Proof.
  intros Hm w. unfold COMMIT, bind, hazard.
  assert (forall w0, trace w0 = trace w ->
            quiet_from (trace w) (trace (snd (m (log ObsCommit w0))))
            \/ (succeeded (fst (m (log ObsCommit w0)))
                /\ committed_then_emitted (trace w) (trace (snd (m (log ObsCommit w0))))))
    as Hstep.
  { intros w0 E. destruct (Hm (log ObsCommit w0)) as [Ht|[Hs (room & ev & Ht)]];
      rewrite Ht; cbn [log trace]; rewrite E.
    - left. exists [ObsCommit]. now split.
    - right. split; [exact Hs|]. exists [], room, ev.
      rewrite <- app_assoc. now split. }
  destruct (sched w) as [|[|f|] s]; cbv beta iota;
    try (apply Hstep; reflexivity).
  left. apply quiet_from_refl.
Qed.

Section Handlers.

Variable env : Env.
Variable gen_id : list jsstring -> jsstring.

Lemma silent_rollback_fail code e : silent (ROLLBACK ;; ret (fail code e)).
Proof.
  apply silent_bind; [apply silent_ROLLBACK|].
  intros _. apply traceless_silent, traceless_ret.
Qed.

Lemma eoac_post_claim caller weekId n profile :
  emits_only_after_commit (post_claim env caller weekId n profile).
Proof.
  unfold post_claim.
  destruct (_ || _); [apply eoac_silent, traceless_silent, traceless_ret|].
  apply eoac_try_catch; [|intros e; apply silent_rollback_fail].
  apply eoac_bind; [apply traceless_silent, traceless_resolve_caller|]. intros user.
  apply eoac_bind; [apply silent_BEGIN|]. intros _.
  apply eoac_bind; [apply traceless_silent, traceless_client_select|].
  intros [|row rest]; [apply eoac_silent, silent_rollback_fail|].
  destruct (truthy (Parts.claimed_by row)); [apply eoac_silent, silent_rollback_fail|].
  apply eoac_bind; [apply traceless_silent, traceless_field|]. intros user_name.
  apply eoac_bind; [apply traceless_silent, traceless_field|]. intros user_id.
  apply eoac_bind; [apply traceless_silent, traceless_now|]. intros at_.
  apply eoac_bind; [apply traceless_silent, traceless_client_write|]. intros _.
  apply eoac_commit.
  apply emits_last_bind; [apply traceless_field|]. intros adm.
  apply emits_last_emit.
Qed.

Lemma eoac_post_release caller weekId n :
  emits_only_after_commit (post_release caller weekId n).
Proof.
  unfold post_release.
  destruct (_ || _); [apply eoac_silent, traceless_silent, traceless_ret|].
  apply eoac_try_catch; [|intros e; apply silent_rollback_fail].
  apply eoac_bind; [apply traceless_silent, traceless_getUserById|]. intros user.
  apply eoac_bind; [apply silent_BEGIN|]. intros _.
  apply eoac_bind; [apply traceless_silent, traceless_client_select|].
  intros [|row rest]; [apply eoac_silent, silent_rollback_fail|].
  destruct (_ || _); [apply eoac_silent, silent_rollback_fail|].
  apply eoac_bind; [apply traceless_silent, traceless_client_write|]. intros _.
  apply eoac_commit. apply emits_last_emit.
Qed.

Lemma eoac_post_reset caller weekKey profile :
  emits_only_after_commit (post_reset env gen_id caller weekKey profile).
Proof.
  unfold post_reset.
  destruct (negb _); [apply eoac_silent, traceless_silent, traceless_ret|].
  apply eoac_try_catch; [|intros e; apply silent_rollback_fail].
  apply eoac_bind; [apply traceless_silent, traceless_resolve_caller|]. intros user.
  apply eoac_bind; [apply silent_BEGIN|]. intros _.
  apply eoac_bind; [apply traceless_silent, traceless_field|]. intros adm.
  destruct (negb adm); [apply eoac_silent, silent_rollback_fail|].
  apply eoac_bind; [apply traceless_silent, traceless_getWeek|]. intros week.
  apply eoac_bind; [apply traceless_silent, traceless_client_write|]. intros _.
  apply eoac_commit.
  apply emits_last_bind; [apply traceless_fetchParts|]. intros freshParts.
  apply emits_last_emit.
Qed.

(** C8. Whatever the store holds and whatever happens to the statements on
    their way (faults, commits of other connections): a claim, a release or
    a reset that does not succeed broadcasts nothing; and when one
    broadcasts, it has succeeded and the broadcast is the one entry after
    its COMMIT. *)
Theorem broadcast_only_after_commit (r : Request) (w : World) :
  mutating r = true ->
  let o := fst (handle env gen_id r w) in
  let w' := snd (handle env gen_id r w) in
  (~ succeeded o -> emits (trace w') = emits (trace w))
  /\ (emits (trace w') <> emits (trace w) ->
      succeeded o
      /\ committed_then_emitted (trace w) (trace w')
      /\ exists room ev, emits (trace w') = emits (trace w) ++ [(room, ev)]).
Proof.
  intros Hr o w'.
  assert (emits_only_after_commit (handle env gen_id r)) as H.
  { destruct r; try discriminate; cbn [handle].
    - apply eoac_post_claim.
    - apply eoac_post_release.
    - apply eoac_post_reset. }
  subst o w'. destruct (H w) as [Hq|[Hs Hc]].
  - apply quiet_from_emits in Hq. split; [intros _; exact Hq|].
    intros Hne. contradiction.
  - split; [intros Hn; contradiction|].
    intros _. split; [exact Hs|]. split; [exact Hc|].
    now apply committed_then_emitted_emits.
Qed.

End Handlers.

(* ================================================================== *)
(** ** Phone numbers *)
(* ================================================================== *)

Lemma remove_spaces_spaceless (s : jsstring) :
  forallb (fun c => negb (is_space c)) (remove_spaces s) = true.
Proof.
  apply forallb_forall. intros c H. unfold remove_spaces in H.
  now apply filter_In in H.
Qed.

Lemma remove_spaces_fixed (s : jsstring) :
  forallb (fun c => negb (is_space c)) s = true -> remove_spaces s = s.
Proof.
  intros H. unfold remove_spaces. apply filter_all.
  now apply forallb_forall.
Qed.

Lemma remove_spaces_idem (s : jsstring) : remove_spaces (remove_spaces s) = remove_spaces s.
Proof. apply remove_spaces_fixed, remove_spaces_spaceless. Qed.

Lemma plus_is_no_space : is_space plus_sign = false.
Proof. reflexivity. Qed.

Lemma strip_no_plus (s : jsstring) : starts_with_plus s = false -> strip_leading_plus s = s.
Proof.
  destruct s as [|c r]; cbn; [reflexivity|]. now intros ->.
Qed.

(** What [normalizePhone] returns for a text that is not empty. *)
Lemma normalizePhone_text (s : jsstring) :
  s <> [] ->
  normalizePhone (Some s) =
  Some (if starts_with_plus (remove_spaces s) then remove_spaces s
        else plus_sign :: remove_spaces s).
Proof.
  destruct s as [|c r]; [contradiction|]. intros _.
  unfold normalizePhone.
  destruct (starts_with_plus (remove_spaces (c :: r))) eqn:E; cbn [negb];
    [reflexivity|].
  now rewrite strip_no_plus.
Qed.

Lemma normalizePhone_normalized (raw : option jsstring) (p : jsstring) :
  normalizePhone raw = Some p -> is_normalized_phone p = true.
Proof.
  destruct raw as [[|c r]|]; try discriminate.
  rewrite normalizePhone_text by discriminate.
  pose proof (remove_spaces_spaceless (c :: r)) as Hs.
  remember (remove_spaces (c :: r)) as cl eqn:Hcl. clear Hcl.
  destruct (starts_with_plus cl) eqn:E;
    intros H; injection H as <-; unfold is_normalized_phone.
  - now rewrite E.
  - cbn [starts_with_plus forallb]. now rewrite N.eqb_refl, plus_is_no_space.
Qed.

Lemma normalizePhone_fixed (p : jsstring) :
  is_normalized_phone p = true -> normalizePhone (Some p) = Some p.
Proof.
  unfold is_normalized_phone. intros H. apply andb_true_iff in H as [Hp Hs].
  assert (p <> []) as Hne by (destruct p; [discriminate|discriminate]).
  rewrite normalizePhone_text by exact Hne.
  now rewrite (remove_spaces_fixed _ Hs), Hp.
Qed.

Lemma normalizePhone_idem (raw : option jsstring) :
  normalizePhone (normalizePhone raw) = normalizePhone raw.
Proof.
  destruct (normalizePhone raw) as [p|] eqn:E; [|reflexivity].
  apply normalizePhone_fixed. eapply normalizePhone_normalized. exact E.
Qed.

Lemma normalizePhone_truthy (raw : option jsstring) :
  truthy (normalizePhone raw) = truthy raw.
Proof.
  destruct raw as [[|c r]|]; try reflexivity.
  rewrite normalizePhone_text by discriminate.
  destruct (starts_with_plus (remove_spaces (c :: r))) eqn:E; [|reflexivity].
  destruct (remove_spaces (c :: r)); [discriminate|reflexivity].
Qed.

Lemma normalizePhone_some (s : jsstring) :
  s <> [] -> exists pn : jsstring, normalizePhone (Some s) = Some pn /\ pn <> [].
Proof.
  intros H. rewrite normalizePhone_text by exact H.
  destruct (starts_with_plus (remove_spaces s)) eqn:E.
  - exists (remove_spaces s). split; [reflexivity|].
    destruct (remove_spaces s); [discriminate|discriminate].
  - exists (plus_sign :: remove_spaces s). split; [reflexivity|discriminate].
Qed.

(** X1. [normalizePhone]: an absent or empty text gives null and any other
    text gives a phone; the phone starts with "+" and holds no white
    space; it is the text without its white space, with a "+" put first
    when it has none; normalizing is idempotent; and two texts that differ
    only in white space, or only in the leading "+", give the same
    phone. *)
Theorem normalizePhone_spec (raw : option jsstring) :
  (normalizePhone raw = None <-> truthy raw = false)
  /\ (forall p : jsstring, normalizePhone raw = Some p ->
        is_normalized_phone p = true
        /\ exists s : jsstring, raw = Some s
             /\ p = (if starts_with_plus (remove_spaces s) then remove_spaces s
                     else plus_sign :: remove_spaces s))
  /\ normalizePhone (normalizePhone raw) = normalizePhone raw
  /\ (forall a b : jsstring, raw = Some a -> a <> [] -> b <> [] ->
        remove_spaces a = remove_spaces b ->
        normalizePhone (Some b) = normalizePhone raw)
  /\ (forall a : jsstring, raw = Some a -> a <> [] ->
        starts_with_plus (remove_spaces a) = false ->
        normalizePhone (Some (plus_sign :: a)) = normalizePhone raw).
Proof.
  split; [|split; [|split; [|split]]].
  - pose proof (normalizePhone_truthy raw) as T. split; intros H.
    + now rewrite <- T, H.
    + rewrite H in T. destruct (normalizePhone raw) as [[|c r]|] eqn:E;
        try reflexivity; try discriminate.
      apply normalizePhone_normalized in E. discriminate.
  - intros p H. split; [eapply normalizePhone_normalized; exact H|].
    destruct raw as [[|c r]|]; try discriminate.
    exists (c :: r). split; [reflexivity|].
    rewrite normalizePhone_text in H by discriminate. congruence.
  - apply normalizePhone_idem.
  - intros a b -> Ha Hb E. rewrite !normalizePhone_text by assumption.
    now rewrite E.
  - intros a -> Ha E. rewrite !normalizePhone_text by (assumption || discriminate).
    unfold remove_spaces at 1 2 3. cbn [filter]. rewrite plus_is_no_space. cbn [negb].
    fold (remove_spaces a). cbn [starts_with_plus]. rewrite N.eqb_refl, E.
    reflexivity.
Qed.

(* ================================================================== *)
(** ** The users table stays well formed *)
(* ================================================================== *)

Lemma users_ok_users d d' : users d' = users d -> users_ok d -> users_ok d'.
Proof. unfold users_ok. now intros ->. Qed.

Lemma fold_write_users log d : users (fold_left apply_write log d) = users d.
Proof.
  revert d. induction log as [|wr log IH]; intros d; cbn; [reflexivity|].
  rewrite IH. now destruct wr.
Qed.

Lemma or_else_not_empty (a b : option jsstring) : b <> Some [] -> or_else a b <> Some [].
Proof.
  unfold or_else. destruct a as [[|c r]|]; cbn; auto. discriminate.
Qed.

Lemma or_null_not_empty (a : option jsstring) : or_null a <> Some [].
Proof. apply or_else_not_empty. discriminate. Qed.

Lemma or_else_idem (a b : option jsstring) : or_else a (or_else a b) = or_else a b.
Proof. unfold or_else. now destruct (truthy a). Qed.

Lemma users_ok_empty : users_ok empty_db.
Proof.
  split; [constructor|]. split; [constructor|]. intros u v [].
Qed.

Lemma update_user_ok id name phone adm d rows d' :
  users_ok d -> name <> Some [] ->
  (forall p, phone = Some p -> is_normalized_phone p = true) ->
  Sql.update_user id name phone adm d = Ok (rows, d') -> users_ok d'.
Proof.
  intros (Hnd & Hf & Hu) Hname Hphone. unfold Sql.update_user.
  destruct (existsb _ (users d) && Sql.phone_taken id phone d) eqn:G; [discriminate|].
  intros H. injection H as _ <-. unfold users_ok. cbn [users].
  split; [|split].
  - rewrite map_map. erewrite map_ext; [exact Hnd|].
    intros u. now destruct (eqb (Users.id u) id).
  - apply Forall_map. apply Forall_impl with (P := user_ok); [|exact Hf].
    intros u (Hi & Hn & Hp). destruct (eqb (Users.id u) id); [|now repeat split].
    now repeat split.
  - intros u' v' Hu' Hv' Hne Heq.
    apply in_map_iff in Hu' as [u [<- Hinu]]. apply in_map_iff in Hv' as [v [<- Hinv]].
    assert (forall a b, In a (users d) -> In b (users d) ->
              eqb (Users.id a) id = true -> eqb (Users.id b) id = false ->
              Users.phone b = phone -> phone <> None -> False) as Hclash.
    { intros a b Ha Hb Ea Eb Eph Hsome.
      apply andb_false_iff in G as [G|G].
      - assert (existsb (fun u0 => eqb (Users.id u0) id) (users d) = true) as T
          by (apply existsb_exists; now exists a).
        congruence.
      - destruct phone as [p|]; [|now apply Hsome].
        assert (Sql.phone_taken id (Some p) d = true) as T.
        { unfold Sql.phone_taken. apply existsb_exists. exists b.
          split; [exact Hb|]. rewrite Eb, Eph. cbn. apply eqb_refl. }
        congruence. }
    destruct (eqb (Users.id u) id) eqn:Eu, (eqb (Users.id v) id) eqn:Ev; cbn in *.
    + apply eqb_eq in Eu, Ev. congruence.
    + exfalso. now apply (Hclash u v).
    + exfalso. apply (Hclash v u); auto. congruence.
    + now apply Hu.
Qed.

Lemma update_user_admin_ok id adm d rows d' :
  users_ok d -> Sql.update_user_admin id adm d = Ok (rows, d') -> users_ok d'.
Proof.
  intros (Hnd & Hf & Hu). unfold Sql.update_user_admin.
  intros H. injection H as _ <-. unfold users_ok. cbn [users].
  split; [|split].
  - rewrite map_map. erewrite map_ext; [exact Hnd|].
    intros u. now destruct (eqb (Users.id u) id).
  - apply Forall_map. apply Forall_impl with (P := user_ok); [|exact Hf].
    intros u Hok. destruct (eqb (Users.id u) id); [|exact Hok].
    destruct Hok as (Hi & Hn & Hp). now repeat split.
  - intros u' v' Hu' Hv' Hne Heq.
    apply in_map_iff in Hu' as [u [<- Hinu]]. apply in_map_iff in Hv' as [v [<- Hinv]].
    assert (forall a, Users.id (if eqb (Users.id a) id
                                then Users.mk (Users.id a) (Users.firebase_uid a)
                                       (Users.name a) (Users.phone a) adm
                                else a) = Users.id a) as Hid
      by (intros a; now destruct (eqb (Users.id a) id)).
    assert (forall a, Users.phone (if eqb (Users.id a) id
                                   then Users.mk (Users.id a) (Users.firebase_uid a)
                                          (Users.name a) (Users.phone a) adm
                                   else a) = Users.phone a) as Hph
      by (intros a; now destruct (eqb (Users.id a) id)).
    cbv beta in *. rewrite (Hid u), (Hid v).
    rewrite (Hph u) in Hne, Heq. rewrite (Hph v) in Heq. now apply Hu.
Qed.

Section UsersStayOk.

Variable env : Env.
Variable gen_id : list jsstring -> jsstring.

Hypothesis gen_id_fresh : forall l, ~ In (gen_id l) l.
Hypothesis gen_id_not_empty : forall l, gen_id l <> [].

Lemma insert_user_ok key name phone adm d rows d' :
  users_ok d -> name <> Some [] ->
  (forall p, phone = Some p -> is_normalized_phone p = true) ->
  insert_user gen_id key name phone adm d = Ok (rows, d') -> users_ok d'.
Proof.
  intros (Hnd & Hf & Hu) Hname Hphone. unfold insert_user.
  destruct (Sql.phone_taken _ phone d) eqn:G; [discriminate|].
  intros H. injection H as _ <-. unfold users_ok. cbn [users].
  set (id := gen_id (map Users.id (users d))) in *.
  set (new := Users.mk id key name phone adm).
  assert (forall v, In v (users d) -> Users.phone v = phone -> phone <> None -> False)
    as Hclash.
  { intros v Hv Eph Hsome. destruct phone as [p|]; [|now apply Hsome].
    assert (Sql.phone_taken id (Some p) d = true) as T; [|congruence].
    unfold Sql.phone_taken. apply existsb_exists. exists v. split; [exact Hv|].
    rewrite Eph. cbn [opt_eqb]. rewrite eqb_refl, andb_true_r.
    apply negb_true_iff, eqb_neq. intros E.
    apply (gen_id_fresh (map Users.id (users d))). fold id. rewrite <- E.
    now apply in_map. }
  split; [|split].
  - rewrite map_app. cbn [map]. apply NoDup_app; [exact Hnd|repeat constructor; intros []|].
    intros x Hx [<-|[]]. now apply (gen_id_fresh (map Users.id (users d))).
  - apply Forall_app. split; [exact Hf|]. constructor; [|constructor].
    repeat split; [apply gen_id_not_empty|exact Hname|exact Hphone].
  - intros u v Hinu Hinv Hne Heq.
    apply in_app_iff in Hinu as [Hinu|[<-|[]]];
      apply in_app_iff in Hinv as [Hinv|[<-|[]]].
    + now apply Hu.
    + exfalso. apply (Hclash u); auto. cbn in Heq. rewrite <- Heq. exact Hne.
    + exfalso. apply (Hclash v); auto.
    + reflexivity.
Qed.

(** *** Statements *)

Lemma steady_ret {A} (a : A) : steady (ret a).
Proof. intros w H. exact H. Qed.

Lemma steady_throw {A} e : steady (@throw A e).
Proof. intros w H. exact H. Qed.

Lemma steady_bind {A B} (m : M A) (k : A -> M B) :
  steady m -> (forall a, steady (k a)) -> steady (bind m k).
Proof. intros Hm Hk. eapply hoare_bind; [exact Hm|exact Hk]. Qed.

Lemma steady_try_catch {A} (body : M A) (handler : Error -> M A) :
  steady body -> (forall e, steady (handler e)) -> steady (try_catch body handler).
Proof. intros Hb Hh. eapply hoare_try_catch; [exact Hb|exact Hh]. Qed.

Lemma respects_tail I h s : respects I (h :: s) -> respects I s.
Proof. intros H. now inversion H. Qed.

Lemma steady_hazard : steady hazard.
Proof.
  intros w [Hd Hs]. unfold hazard.
  destruct (sched w) as [|[|f|] s] eqn:E; cbn.
  - split; [exact Hd|]. now rewrite E.
  - split; [exact Hd|]. now apply respects_tail in Hs.
  - inversion Hs as [|? ? Hf Hs']; subst. split; [now apply Hf|exact Hs'].
  - split; [exact Hd|]. now apply respects_tail in Hs.
Qed.

(** A statement of [pool.query] whose result has the property [R]. *)
Lemma pool_query_settled {A} (q : Db -> Outcome (A * Db)) (R : A -> Prop) :
  (forall d, users_ok d ->
     match q d with
     | Ok (a, d') => users_ok d' /\ R a
     | Throw _ => True
     end) ->
  hoare settled (pool_query q) (fun a w => settled w /\ R a) settled.
Proof.
  intros Hq. unfold pool_query.
  eapply hoare_bind; [apply steady_hazard|]. intros done w [Hd Hs].
  specialize (Hq (db w) Hd).
  destruct (q (db w)) as [[a d']|e]; [|now split].
  destruct Hq as [Hd' Ha]. split; [split; [exact Hd'|exact Hs]|exact Ha].
Qed.

Lemma steady_pool_query {A} (q : Db -> Outcome (A * Db)) :
  (forall d, users_ok d ->
     match q d with
     | Ok (_, d') => users_ok d'
     | Throw _ => True
     end) ->
  steady (pool_query q).
Proof.
  intros Hq. eapply hoare_weaken;
    [apply (pool_query_settled q (fun _ => True))|auto|intros a w [H _]; exact H|auto].
  intros d Hd. specialize (Hq d Hd). destruct (q d) as [[a d']|e]; [|exact I].
  now split.
Qed.

Lemma steady_select {A} (q : Db -> A) : steady (pool_query (fun d => Ok (q d, d))).
Proof. apply steady_pool_query. intros d Hd. exact Hd. Qed.

(** A statement on the transaction's connection leaves the committed
    store alone. *)
Lemma steady_client {A} (f : World -> Outcome A * World) :
  (forall w, db (snd (f w)) = db w /\ sched (snd (f w)) = sched w) ->
  steady (hazard ;; f).
Proof.
  intros Hf. apply steady_bind; [apply steady_hazard|]. intros done w [Hd Hs].
  destruct (Hf w) as [E1 E2]. destruct (f w) as [[a|e] w']; cbn in *;
    split; congruence.
Qed.

Lemma steady_client_select {A} (q : Db -> A) : steady (client_select q).
Proof. unfold client_select. apply steady_client. intros w. now split. Qed.

Lemma steady_client_write wr : steady (client_write wr).
Proof. unfold client_write. apply steady_client. intros w. now split. Qed.

Lemma steady_insert_week key : steady (insert_week gen_id key).
Proof.
  unfold insert_week. apply steady_client. intros w. cbv zeta.
  destruct (Sql.week_key_taken key (view w)); now split.
Qed.

Lemma steady_BEGIN : steady BEGIN.
Proof. unfold BEGIN. apply steady_client. intros w. now split. Qed.

Lemma steady_COMMIT : steady COMMIT.
Proof.
  unfold COMMIT. apply steady_bind; [apply steady_hazard|]. intros done w [Hd Hs].
  split; [|exact Hs]. cbn. eapply users_ok_users; [|exact Hd].
  apply fold_write_users.
Qed.

Lemma steady_ROLLBACK : steady ROLLBACK.
Proof.
  intros w Hw. unfold ROLLBACK. pose proof (steady_hazard w Hw) as H.
  destruct (hazard w) as [[done|e] w']; exact H.
Qed.

Lemma steady_emit room ev : steady (emit room ev).
Proof. intros w H. exact H. Qed.

Lemma steady_now : steady now.
Proof. intros w H. exact H. Qed.

Lemma steady_signSession s : steady (signSession s).
Proof. intros w H. exact H. Qed.

Lemma steady_field {R A} (r : option R) (f : R -> A) : steady (field r f).
Proof. destruct r; [apply steady_ret|apply steady_throw]. Qed.

Lemma hoare_pure {A} (P : World -> Prop) (F : Prop) (m : M A) Q X :
  (F -> hoare P m Q X) -> hoare (fun w => P w /\ F) m Q X.
Proof. intros H w [Hw HF]. now apply H. Qed.

Lemma users_by_id_ok id d : users_ok d -> Forall user_ok (Sql.users_by_id id d).
Proof.
  intros (_ & Hf & _). apply Forall_forall. intros u Hu.
  apply filter_In in Hu as [Hu _]. rewrite Forall_forall in Hf. auto.
Qed.

Lemma users_by_phone_ok p d : users_ok d -> Forall user_ok (Sql.users_by_phone p d).
Proof.
  intros (_ & Hf & _). apply Forall_forall. intros u Hu.
  apply filter_In in Hu as [Hu _]. rewrite Forall_forall in Hf. auto.
Qed.

(** *** Helpers *)

Lemma getUserById_settled id :
  hoare settled (getUserById id) (fun u w => settled w /\ user_ok u) settled.
Proof.
  unfold getUserById. eapply hoare_bind.
  - apply (pool_query_settled _ (Forall user_ok)).
    intros d Hd. split; [exact Hd|]. now apply users_by_id_ok.
  - intros [|u us] w [Hw Hf]; cbn; [exact Hw|]. split; [exact Hw|]. now inversion Hf.
Qed.

Lemma steady_getUserById id : steady (getUserById id).
Proof.
  eapply hoare_weaken; [apply getUserById_settled|auto|intros a w [H _]; exact H|auto].
Qed.

Lemma steady_update_user id name phone adm :
  name <> Some [] ->
  (forall p, phone = Some p -> is_normalized_phone p = true) ->
  steady (pool_query (Sql.update_user id name phone adm)).
Proof.
  intros Hn Hp. apply steady_pool_query. intros d Hd.
  destruct (Sql.update_user id name phone adm d) as [[rows d']|e] eqn:E; [|exact I].
  eapply update_user_ok; eassumption.
Qed.

Lemma steady_updateUserProfile id p : steady (updateUserProfile env id p).
Proof.
  unfold updateUserProfile. eapply hoare_bind; [apply getUserById_settled|].
  intros existing. apply hoare_pure. intros (_ & Hname & _).
  apply steady_bind; [|intros rows; apply steady_ret].
  apply steady_update_user.
  - now apply or_else_not_empty.
  - intros q Hq. eapply normalizePhone_normalized. exact Hq.
Qed.

Lemma steady_resolve_caller caller p : steady (resolve_caller env caller p).
Proof.
  unfold resolve_caller. apply steady_bind; [apply steady_getUserById|].
  intros u. destruct (_ || _); [apply steady_updateUserProfile|apply steady_ret].
Qed.

Lemma steady_loginUser nameInput phoneInput key :
  steady (loginUser env gen_id nameInput phoneInput key).
Proof.
  unfold loginUser.
  pose proof (normalizePhone_normalized (Some phoneInput)) as Hp.
  destruct (normalizePhone (Some phoneInput)) as [[|c r]|]; try apply steady_throw.
  eapply hoare_bind.
  - apply (pool_query_settled _ (Forall user_ok)).
    intros d Hd. split; [exact Hd|]. now apply users_by_phone_ok.
  - intros [|current rest]; apply hoare_pure; intros Hf.
    + apply steady_bind; [|intros rows; apply steady_ret].
      apply steady_pool_query. intros d Hd.
      destruct (insert_user _ _ _ _ _ d) as [[rows d']|e] eqn:E; [|exact I].
      eapply insert_user_ok;
        [exact Hd|apply or_null_not_empty|exact Hp|exact E].
    + apply steady_bind; [|intros rows; apply steady_ret].
      inversion Hf as [|? ? (_ & Hname & _) _]; subst.
      apply steady_update_user; [now apply or_else_not_empty|exact Hp].
Qed.

Lemma steady_getWeek key : steady (getWeek gen_id key).
Proof.
  unfold getWeek, ensureWeek.
  apply steady_bind; [apply steady_client_select|].
  intros [|k ks]; [|apply steady_ret].
  apply steady_bind; [|intros; apply steady_ret].
  apply steady_bind; [apply steady_client_select|].
  intros [|k ks]; [|apply steady_ret].
  apply steady_bind; [apply steady_insert_week|].
  intros id. apply steady_bind; [apply steady_client_write|].
  intros done. apply steady_ret.
Qed.

Lemma steady_fetchParts id : steady (fetchParts id).
Proof. apply steady_select. Qed.

Lemma steady_rollback_respond (r : Response) : steady (ROLLBACK ;; ret r).
Proof. apply steady_bind; [apply steady_ROLLBACK|intros; apply steady_ret]. Qed.

(** *** Handlers *)

Lemma steady_post_auth_login name phone key : steady (post_auth_login env gen_id name phone key).
Proof.
  unfold post_auth_login.
  destruct name as [[|c r]|]; try apply steady_ret.
  destruct phone as [[|c' r']|]; try apply steady_ret.
  apply steady_try_catch; [|intros; apply steady_ret].
  apply steady_bind; [apply steady_loginUser|]. intros user.
  apply steady_bind; [apply steady_field|]. intros s.
  apply steady_bind; [apply steady_signSession|]. intros token. apply steady_ret.
Qed.

Lemma steady_post_profile caller p : steady (post_profile env caller p).
Proof.
  unfold post_profile.
  apply steady_try_catch; [|intros; apply steady_ret].
  apply steady_bind; [apply steady_updateUserProfile|]. intros user.
  apply steady_bind; [apply steady_field|]. intros s.
  apply steady_bind; [apply steady_signSession|]. intros token. apply steady_ret.
Qed.

Lemma steady_get_week key : steady (get_week gen_id key).
Proof.
  unfold get_week. destruct (negb _); [apply steady_ret|].
  apply steady_try_catch; [|intros; apply steady_rollback_respond].
  apply steady_bind; [apply steady_BEGIN|]. intros done.
  apply steady_bind; [apply steady_getWeek|]. intros week.
  apply steady_bind; [apply steady_COMMIT|]. intros done'.
  apply steady_bind; [apply steady_fetchParts|]. intros ps. apply steady_ret.
Qed.

Lemma steady_post_claim caller weekId n p : steady (post_claim env caller weekId n p).
Proof.
  unfold post_claim. destruct (_ || _); [apply steady_ret|].
  apply steady_try_catch; [|intros; apply steady_rollback_respond].
  apply steady_bind; [apply steady_resolve_caller|]. intros user.
  apply steady_bind; [apply steady_BEGIN|]. intros done.
  apply steady_bind; [apply steady_client_select|].
  intros [|row rest]; [apply steady_rollback_respond|].
  destruct (truthy _); [apply steady_rollback_respond|].
  apply steady_bind; [apply steady_field|]. intros nm.
  apply steady_bind; [apply steady_field|]. intros uid.
  apply steady_bind; [apply steady_now|]. intros at_.
  apply steady_bind; [apply steady_client_write|]. intros done1.
  apply steady_bind; [apply steady_COMMIT|]. intros done2.
  apply steady_bind; [apply steady_field|]. intros adm.
  apply steady_bind; [apply steady_emit|]. intros done3. apply steady_ret.
Qed.

Lemma steady_post_release caller weekId n : steady (post_release caller weekId n).
Proof.
  unfold post_release. destruct (_ || _); [apply steady_ret|].
  apply steady_try_catch; [|intros; apply steady_rollback_respond].
  apply steady_bind; [apply steady_getUserById|]. intros user.
  apply steady_bind; [apply steady_BEGIN|]. intros done.
  apply steady_bind; [apply steady_client_select|].
  intros [|row rest]; [apply steady_rollback_respond|].
  destruct (_ || _); [apply steady_rollback_respond|].
  apply steady_bind; [apply steady_client_write|]. intros done1.
  apply steady_bind; [apply steady_COMMIT|]. intros done2.
  apply steady_bind; [apply steady_emit|]. intros done3. apply steady_ret.
Qed.

Lemma steady_post_reset caller weekKey p : steady (post_reset env gen_id caller weekKey p).
Proof.
  unfold post_reset. destruct (negb _); [apply steady_ret|].
  apply steady_try_catch; [|intros; apply steady_rollback_respond].
  apply steady_bind; [apply steady_resolve_caller|]. intros user.
  apply steady_bind; [apply steady_BEGIN|]. intros done.
  apply steady_bind; [apply steady_field|]. intros adm.
  destruct (negb adm); [apply steady_rollback_respond|].
  apply steady_bind; [apply steady_getWeek|]. intros week.
  apply steady_bind; [apply steady_client_write|]. intros done1.
  apply steady_bind; [apply steady_COMMIT|]. intros done2.
  apply steady_bind; [apply steady_fetchParts|]. intros ps.
  apply steady_bind; [apply steady_emit|]. intros done3. apply steady_ret.
Qed.

Lemma steady_patch_admin caller userId makeAdmin weekId partNumber :
  steady (patch_admin caller userId makeAdmin weekId partNumber).
Proof.
  unfold patch_admin. destruct makeAdmin as [mk|]; [|apply steady_ret].
  apply steady_try_catch; [|intros; apply steady_ret].
  apply steady_bind; [apply steady_getUserById|]. intros actor.
  destruct (negb _); [apply steady_ret|].
  apply steady_bind.
  { apply steady_pool_query. intros d Hd.
    destruct (Sql.update_user_admin userId mk d) as [[rows d']|e] eqn:E; [|exact I].
    eapply update_user_admin_ok; eassumption. }
  intros [|updated others]; [apply steady_ret|].
  apply steady_bind; [|intros; apply steady_ret].
  destruct weekId as [[|c0 r0]|]; try apply steady_ret.
  destruct partNumber as [pn|]; [|apply steady_ret].
  destruct (isInteger pn); [|apply steady_ret].
  apply steady_bind; [apply steady_select|].
  intros [|p ps]; [apply steady_ret|apply steady_emit].
Qed.

Lemma steady_handle (r : Request) : steady (handle env gen_id r).
Proof.
  destruct r; cbn [handle].
  - apply steady_post_auth_login.
  - apply steady_post_profile.
  - apply steady_get_week.
  - apply steady_post_claim.
  - apply steady_post_release.
  - apply steady_post_reset.
  - apply steady_patch_admin.
Qed.

Lemma serve_under_users_ok s now d r :
  users_ok d -> respects users_ok s ->
  users_ok (snd (serve_under env gen_id s now d r)).
Proof.
  intros Hd Hs. unfold serve_under.
  pose proof (steady_handle r (mkWorld d [] s [] now)) as H.
  destruct (handle env gen_id r (mkWorld d [] s [] now)) as [[a|e] w'];
    now apply H.
Qed.

Lemma serve_users_ok now d r :
  users_ok d -> users_ok (snd (serve env gen_id now d r)).
Proof.
  intros Hd. apply (serve_under_users_ok [] now d r Hd). constructor.
Qed.

(** X2. The users table stays well formed. Started on a store whose user
    ids are distinct and not empty, whose stored names are null or not
    empty, whose phones are null or normalized and where no two users share
    a phone, every list of requests leaves such a store, also when
    statements fail and when other connections commit in between, as long
    as their commits keep the table well formed. *)
Theorem users_stay_ok (d : Db) (rs : list (list Hazard * Z * Request)) :
  users_ok d ->
  Forall (fun x => respects users_ok (fst (fst x))) rs ->
  users_ok (serve_all_under env gen_id d rs).
Proof.
  revert d. induction rs as [|[[s now] r] rs IH]; intros d Hd Hrs; cbn; [exact Hd|].
  inversion Hrs as [|? ? Hs Hrest]; subst. apply IH; [|exact Hrest].
  now apply serve_under_users_ok.
Qed.

End UsersStayOk.

(* ================================================================== *)
(** ** Login and profile on a quiet connection *)
(* ================================================================== *)

Lemma pool_query_quiet {A} (q : Db -> Outcome (A * Db)) d tr c :
  pool_query q (mkWorld d [] [] tr c) =
  match q d with
  | Ok (a, d') => (Ok a, mkWorld d' [] [] tr c)
  | Throw e => (Throw e, mkWorld d [] [] tr c)
  end.
Proof.
  unfold pool_query, bind, hazard. cbn.
  destruct (q d) as [[a d']|e]; reflexivity.
Qed.

Lemma filter_unique_id (l : list Users.row) u :
  NoDup (map Users.id l) -> In u l ->
  filter (fun v => eqb (Users.id v) (Users.id u)) l = [u].
Proof.
  induction l as [|x l IH]; intros Hnd Hin; [destruct Hin|].
  cbn in Hnd. inversion Hnd as [|? ? Hx Hl]; subst. cbn [filter].
  destruct Hin as [->|Hin].
  - rewrite eqb_refl. f_equal. apply filter_none. intros v Hv.
    apply eqb_neq. intros E. apply Hx. rewrite <- E. now apply in_map.
  - destruct (eqb (Users.id x) (Users.id u)) eqn:E.
    + apply eqb_eq in E. exfalso. apply Hx. rewrite E. now apply in_map.
    + now apply IH.
Qed.

(** On a table with distinct ids, an update by id that meets no phone
    clash rewrites the one row it names. *)
Lemma update_user_unique (id : jsstring) (name phone : option jsstring) adm d u :
  NoDup (map Users.id (users d)) -> In u (users d) -> Users.id u = id ->
  Sql.phone_taken id phone d = false ->
  Sql.update_user id name phone adm d =
  Ok ([Users.mk id (Users.firebase_uid u) name phone adm],
      mkDb (map (fun v => if eqb (Users.id v) id
                          then Users.mk id (Users.firebase_uid u) name phone adm
                          else v) (users d))
           (weeks d) (parts d)).
Proof.
  intros Hnd Hin Hid Htaken. unfold Sql.update_user.
  rewrite Htaken, andb_false_r. subst id.
  rewrite (filter_unique_id _ _ Hnd Hin). cbn [map]. f_equal. f_equal. f_equal.
  apply map_ext_in. intros v Hv.
  destruct (eqb (Users.id v) (Users.id u)) eqn:E; [|reflexivity].
  apply eqb_eq in E. now rewrite (NoDup_map_same Users.id (users d) v u Hnd Hv Hin E).
Qed.

(** The phone of a stored user is taken by no other. *)
Lemma own_phone_free d u (p : jsstring) :
  phones_unique (users d) -> In u (users d) -> Users.phone u = Some p ->
  Sql.phone_taken (Users.id u) (Some p) d = false.
Proof.
  intros Hu Hin Hp. unfold Sql.phone_taken.
  destruct (existsb _ (users d)) eqn:E; [|reflexivity].
  apply existsb_exists in E as [v [Hv E]]. apply andb_true_iff in E as [Hid Hph].
  apply negb_true_iff, eqb_neq in Hid. apply opt_eqb_eq in Hph.
  exfalso. apply Hid. symmetry. apply (Hu u v); try assumption; congruence.
Qed.

Lemma computeAdminFlag_idem env name phone cur :
  computeAdminFlag env name phone (computeAdminFlag env name phone cur)
  = computeAdminFlag env name phone cur.
Proof.
  unfold computeAdminFlag.
  destruct cur, (truthy (Some (DEFAULT_ADMIN_NAME env)) && truthy name
                 && opt_eqb name (Some (DEFAULT_ADMIN_NAME env))),
    (truthy phone && existsb (opt_eqb phone) (ADMIN_PHONE_LIST env)); reflexivity.
Qed.

Lemma computeAdminFlag_keeps env name phone :
  computeAdminFlag env name phone true = true.
Proof. reflexivity. Qed.

Section LoginProfile.

Variable env : Env.
Variable gen_id : list jsstring -> jsstring.

Lemma post_auth_login_given (name phone key : jsstring) :
  name <> [] -> phone <> [] ->
  post_auth_login env gen_id (Some name) (Some phone) key =
  try_catch
    (user <- loginUser env gen_id name phone key ;;
     s <- field user session_of ;;
     token <- signSession s ;;
     ret (json (LoginBody token s)))
    (fun _ => ret (fail 500 LOGIN_FAILED)).
Proof.
  intros Hn Hp. destruct name; [contradiction|]. destruct phone; [contradiction|].
  reflexivity.
Qed.

Lemma login_quiet (name phone key : jsstring) d now :
  name <> [] -> phone <> [] ->
  handle env gen_id (Login (Some name) (Some phone) key) (idle d now) =
  let nm := or_null (Some (trim name)) in
  let ph := normalizePhone (Some phone) in
  let answer (r : Outcome (list Users.row * Db)) :=
    match r with
    | Ok (u :: _, d') =>
        (Ok (json (LoginBody (mkToken (session_of u) now) (session_of u))), idle d' now)
    | Ok ([], d') => (Ok (fail 500 LOGIN_FAILED), idle d' now)
    | Throw _ => (Ok (fail 500 LOGIN_FAILED), idle d now)
    end in
  match ph with
  | Some (c :: r) =>
      match Sql.users_by_phone (c :: r) d with
      | current :: _ =>
          let nm' := or_else nm (Users.name current) in
          answer (Sql.update_user (Users.id current) nm' ph
                    (computeAdminFlag env nm' ph (Users.is_admin current)) d)
      | [] =>
          answer (insert_user gen_id key nm ph (computeAdminFlag env nm ph false) d)
      end
  | _ => (Ok (fail 500 LOGIN_FAILED), idle d now)
  end.
Proof.
  intros Hn Hp. cbv zeta. unfold handle. rewrite post_auth_login_given by assumption.
  unfold try_catch, loginUser, idle.
  destruct (normalizePhone (Some phone)) as [[|c r]|]; try reflexivity.
  unfold bind at 1 2. rewrite pool_query_quiet.
  destruct (Sql.users_by_phone (c :: r) d) as [|current rest].
  - unfold bind at 1. rewrite pool_query_quiet.
    destruct (insert_user _ _ _ _ _ d) as [[[|u us] d']|e]; reflexivity.
  - unfold bind at 1. rewrite pool_query_quiet.
    destruct (Sql.update_user _ _ _ _ d) as [[[|u us] d']|e]; reflexivity.
Qed.

Lemma profile_quiet (caller : jsstring) p d now :
  handle env gen_id (PostProfile caller p) (idle d now) =
  match Sql.users_by_id caller d with
  | existing :: _ =>
      let name := or_else (option_map trim (Profile.name p)) (Users.name existing) in
      let phone := normalizePhone (or_else (Profile.phone p) (Users.phone existing)) in
      let isAdmin := computeAdminFlag env name phone (Users.is_admin existing) in
      match Sql.update_user caller name phone isAdmin d with
      | Ok (u :: _, d') => (Ok (json (ProfileBody (mkToken (session_of u) now) (session_of u))), idle d' now)
      | Ok ([], d') => (Ok (fail 500 PROFILE_FAILED), idle d' now)
      | Throw _ => (Ok (fail 500 PROFILE_FAILED), idle d now)
      end
  | [] => (Ok (fail 500 PROFILE_FAILED), idle d now)
  end.
Proof.
  unfold handle, post_profile, try_catch, idle. unfold bind at 1.
  rewrite updateUserProfile_quiet.
  destruct (Sql.users_by_id caller d) as [|existing rest]; [reflexivity|].
  cbv zeta. destruct (Sql.update_user _ _ _ _ d) as [[[|u us] d']|e]; reflexivity.
Qed.

Hypothesis gen_id_fresh : forall l, ~ In (gen_id l) l.
Hypothesis gen_id_not_empty : forall l, gen_id l <> [].

(** A login under a phone no user has. *)
Lemma login_new (name phone key : jsstring) d now (pn : jsstring) :
  name <> [] -> phone <> [] ->
  normalizePhone (Some phone) = Some pn ->
  Sql.users_by_phone pn d = [] ->
  let nm := or_null (Some (trim name)) in
  let u := Users.mk (gen_id (map Users.id (users d))) key nm (Some pn)
             (computeAdminFlag env nm (Some pn) false) in
  serve env gen_id now d (Login (Some name) (Some phone) key) =
  (Ok (json (LoginBody (mkToken (session_of u) now) (session_of u))),
   mkDb (users d ++ [u]) (weeks d) (parts d)).
Proof.
  intros Hn Hp Hpn Hnone. cbv zeta. unfold serve. rewrite login_quiet by assumption.
  cbv zeta. rewrite Hpn.
  destruct (normalizePhone_some phone Hp) as (pn' & E & Hne). rewrite Hpn in E.
  injection E as <-. destruct pn as [|c r]; [contradiction|].
  rewrite Hnone. unfold insert_user. cbv zeta.
  destruct (Sql.phone_taken _ _ d) eqn:G; [|reflexivity].
  exfalso. unfold Sql.phone_taken in G.
  apply existsb_exists in G as [v [Hv G]]. apply andb_true_iff in G as [_ G].
  assert (In v (Sql.users_by_phone (c :: r) d)) as Hin
    by (apply filter_In; now split).
  rewrite Hnone in Hin. destruct Hin.
Qed.

(** A login under the phone of the user [current]. *)
Lemma login_known (name phone key : jsstring) d now (pn : jsstring) current rest :
  users_ok d -> name <> [] -> phone <> [] ->
  normalizePhone (Some phone) = Some pn ->
  Sql.users_by_phone pn d = current :: rest ->
  let nm := or_else (or_null (Some (trim name))) (Users.name current) in
  let u := Users.mk (Users.id current) (Users.firebase_uid current) nm (Some pn)
             (computeAdminFlag env nm (Some pn) (Users.is_admin current)) in
  serve env gen_id now d (Login (Some name) (Some phone) key) =
  (Ok (json (LoginBody (mkToken (session_of u) now) (session_of u))),
   mkDb (map (fun v => if eqb (Users.id v) (Users.id current) then u else v) (users d))
        (weeks d) (parts d)).
Proof.
  intros (Hnd & Hf & Hu) Hn Hp Hpn Hsome. cbv zeta. unfold serve.
  rewrite login_quiet by assumption. cbv zeta. rewrite Hpn.
  destruct (normalizePhone_some phone Hp) as (pn' & E & Hne). rewrite Hpn in E.
  injection E as <-.
  assert (In current (users d) /\ Users.phone current = Some pn) as [Hin Hph].
  { apply filter_head in Hsome as [Hin Hph]. apply opt_eqb_eq in Hph. now split. }
  destruct pn as [|c r]; [contradiction|]. rewrite Hsome.
  rewrite (update_user_unique _ _ _ _ d current Hnd Hin eq_refl);
    [reflexivity|].
  now apply own_phone_free.
Qed.

(** X3. Login is get-or-create by phone. With a name and a phone that are
    not empty, on a well-formed users table, the answer is always 200 and
    the token carries the stored row. If no user has the normalized phone,
    one user is added, with a new id, the trimmed name (null when blank),
    the normalized phone and the admin flag of [computeAdminFlag]. If a user
    has it, no user is added: that row keeps its id, takes the trimmed name
    unless it is blank, and keeps an admin flag that was set; every other
    row, every week and every part is as before. *)
Theorem login_get_or_create (d : Db) (now : Z) (name phone key : jsstring) :
  users_ok d -> name <> [] -> phone <> [] ->
  exists pn,
    normalizePhone (Some phone) = Some pn
    /\ let nm := or_null (Some (trim name)) in
       let result := serve env gen_id now d (Login (Some name) (Some phone) key) in
       (Sql.users_by_phone pn d = [] ->
          let u := Users.mk (gen_id (map Users.id (users d))) key nm (Some pn)
                     (computeAdminFlag env nm (Some pn) false) in
          result = (Ok (json (LoginBody (mkToken (session_of u) now) (session_of u))),
                    mkDb (users d ++ [u]) (weeks d) (parts d))
          /\ ~ In (Users.id u) (map Users.id (users d)))
       /\ (forall current rest,
             Sql.users_by_phone pn d = current :: rest ->
             exists u d',
               result = (Ok (json (LoginBody (mkToken (session_of u) now) (session_of u))), d')
               /\ Users.id u = Users.id current
               /\ Users.phone u = Some pn
               /\ Users.name u = or_else nm (Users.name current)
               /\ Users.is_admin u
                  = computeAdminFlag env (Users.name u) (Some pn) (Users.is_admin current)
               /\ (Users.is_admin current = true -> Users.is_admin u = true)
               /\ weeks d' = weeks d /\ parts d' = parts d
               /\ map Users.id (users d') = map Users.id (users d)
               /\ In u (users d')
               /\ (forall v, In v (users d) -> Users.id v <> Users.id current ->
                             In v (users d'))).
Proof.
  intros Hd Hn Hp.
  destruct (normalizePhone_some phone Hp) as (pn & Hpn & Hne).
  exists pn. split; [exact Hpn|]. cbv zeta. split.
  - intros Hnone. split; [now apply login_new|]. apply gen_id_fresh.
  - intros current rest Hsome.
    rewrite (login_known name phone key d now pn current rest) by assumption.
    pose proof Hsome as Hin. apply filter_head in Hin as [Hin _].
    do 2 eexists. split; [reflexivity|]. cbn [Users.id Users.phone Users.name
      Users.is_admin weeks parts users].
    split; [reflexivity|]. split; [reflexivity|]. split; [reflexivity|].
    split; [reflexivity|]. split; [intros ->; reflexivity|].
    split; [reflexivity|]. split; [reflexivity|]. split; [|split].
    + rewrite map_map. apply map_ext_in. intros v Hv.
      destruct (eqb (Users.id v) (Users.id current)) eqn:E; [|reflexivity].
      apply eqb_eq in E. cbn. now symmetry.
    + apply in_map_iff. exists current. now rewrite eqb_refl.
    + intros v Hv Hne'. apply in_map_iff. exists v.
      apply eqb_neq in Hne'. now rewrite Hne'.
Qed.

(** X4. Login is idempotent on the store: the same name and phone sent
    again, whatever the key and the time, leave the store as the first
    login left it and are answered with the same user, the same id among
    it. The token of the second answer is a new one: it is signed from the
    same payload at the time of the second login. *)
Theorem login_twice (d : Db) (now now' : Z) (name phone key key' : jsstring) :
  users_ok d -> name <> [] -> phone <> [] ->
  let first := serve env gen_id now d (Login (Some name) (Some phone) key) in
  let second := serve env gen_id now' (snd first) (Login (Some name) (Some phone) key') in
  snd second = snd first
  /\ exists s,
       fst first = Ok (json (LoginBody (mkToken s now) s))
       /\ fst second = Ok (json (LoginBody (mkToken s now') s)).
Proof.
  intros Hd Hn Hp first second. subst second.
  assert (users_ok (snd first)) as Hd1
    by (apply serve_users_ok; assumption).
  destruct (normalizePhone_some phone Hp) as (pn & Hpn & Hne).
  set (nm := or_null (Some (trim name))).
  assert (exists u d1, first = (Ok (json (LoginBody (mkToken (session_of u) now) (session_of u))), d1)
            /\ In u (users d1) /\ Users.phone u = Some pn
            /\ or_else nm (Users.name u) = Users.name u
            /\ computeAdminFlag env (Users.name u) (Some pn) (Users.is_admin u)
               = Users.is_admin u) as (u & d1 & Hfirst & Hin & Hph & Hname & Hadm).
  { destruct (Sql.users_by_phone pn d) as [|current rest] eqn:E.
    - subst first. rewrite (login_new name phone key d now pn) by assumption.
      do 2 eexists. split; [reflexivity|]. cbn [users Users.phone Users.name Users.is_admin].
      split; [apply in_or_app; right; now left|]. split; [reflexivity|].
      split; [|apply computeAdminFlag_idem].
      fold nm. unfold or_else. now destruct (truthy nm).
    - subst first.
      rewrite (login_known name phone key d now pn current rest) by assumption.
      apply filter_head in E as [Hin _].
      do 2 eexists. split; [reflexivity|]. cbn [users Users.phone Users.name Users.is_admin].
      split; [apply in_map_iff; exists current; now rewrite eqb_refl|].
      split; [reflexivity|]. fold nm. split; [apply or_else_idem|].
      apply computeAdminFlag_idem. }
  rewrite Hfirst in *. cbn [snd] in *.
  destruct (Sql.users_by_phone pn d1) as [|current rest] eqn:E.
  { exfalso. assert (In u (Sql.users_by_phone pn d1)) as Hbad.
    { apply filter_In. split; [exact Hin|]. now apply opt_eqb_eq. }
    rewrite E in Hbad. destruct Hbad. }
  rewrite (login_known name phone key' d1 now' pn current rest) by assumption.
  pose proof E as Hcur. apply filter_head in Hcur as [Hcin Hcph]. apply opt_eqb_eq in Hcph.
  destruct Hd1 as (Hnd & Hf & Hu).
  assert (current = u) as ->.
  { apply (NoDup_map_same Users.id (users d1)); try assumption.
    apply Hu; try assumption; [rewrite Hcph; discriminate|].
    rewrite Hcph. symmetry. exact Hph. }
  fold nm. rewrite Hname, Hadm.
  assert (Users.mk (Users.id u) (Users.firebase_uid u) (Users.name u) (Some pn)
            (Users.is_admin u) = u) as Hu_eq.
  { destruct u as [i f n0 p0 a0]. cbn in *. now subst. }
  rewrite Hu_eq. cbn [fst snd]. split.
  - rewrite map_unchanged; [now destruct d1|].
    intros v Hv. destruct (eqb (Users.id v) (Users.id u)) eqn:Ev; [|reflexivity].
    apply eqb_eq in Ev. symmetry. now apply (NoDup_map_same Users.id (users d1)).
  - exists (session_of u). now split.
Qed.

(** X5. Profile sync merges, never erases. An unknown caller gets
    PROFILE_FAILED. For a stored caller the name becomes the trimmed name
    sent unless that is absent or blank, the phone the normalized phone
    sent unless that is absent or empty, and the flag
    [computeAdminFlag] of both and of the stored flag. If the phone
    belongs to another user the answer is PROFILE_FAILED; else the answer
    is 200 with a token for the merged row, and the caller's row alone is
    rewritten. Whenever the answer is PROFILE_FAILED the store is
    untouched. *)
Theorem profile_sync_spec (d : Db) (now : Z) (caller : jsstring) (p : Profile.t) :
  users_ok d ->
  let result := serve env gen_id now d (PostProfile caller p) in
  (Sql.users_by_id caller d = [] -> result = (Ok (fail 500 PROFILE_FAILED), d))
  /\ (forall existing, In existing (users d) -> Users.id existing = caller ->
        let name := or_else (option_map trim (Profile.name p)) (Users.name existing) in
        let phone := normalizePhone (or_else (Profile.phone p) (Users.phone existing)) in
        let isAdmin := computeAdminFlag env name phone (Users.is_admin existing) in
        (forall o, Profile.name p = Some o -> trim o <> [] -> name = Some (trim o))
        /\ ((forall o, Profile.name p = Some o -> trim o = []) ->
            name = Users.name existing)
        /\ (forall o, Profile.phone p = Some o -> o <> [] ->
              phone = normalizePhone (Some o))
        /\ (truthy (Profile.phone p) = false -> phone = Users.phone existing)
        /\ (Sql.phone_taken caller phone d = true ->
              result = (Ok (fail 500 PROFILE_FAILED), d))
        /\ (Sql.phone_taken caller phone d = false ->
              let u := Users.mk caller (Users.firebase_uid existing) name phone isAdmin in
              result =
              (Ok (json (ProfileBody (mkToken (session_of u) now) (session_of u))),
               mkDb (map (fun v => if eqb (Users.id v) caller then u else v) (users d))
                    (weeks d) (parts d)))).
Proof.
  intros Hd result. pose proof Hd as (Hnd & Hf & Hu).
  subst result. unfold serve. rewrite profile_quiet. split.
  - intros ->. reflexivity.
  - intros existing Hin Hid. cbv zeta.
    assert (Sql.users_by_id caller d = [existing]) as ->.
    { unfold Sql.users_by_id. rewrite <- Hid. now apply filter_unique_id. }
    split; [|split; [|split; [|split; [|split]]]].
    + intros o -> Ht. cbn. unfold or_else. cbn.
      destruct (trim o); [contradiction|reflexivity].
    + intros Hb. destruct (Profile.name p) as [o|]; [|reflexivity].
      cbn. unfold or_else. cbn. now rewrite (Hb o eq_refl).
    + intros o -> Ho. destruct o; [contradiction|reflexivity].
    + intros Ht. unfold or_else. rewrite Ht.
      destruct (Users.phone existing) as [q|] eqn:Eq; [|reflexivity].
      apply normalizePhone_fixed. rewrite Forall_forall in Hf.
      destruct (Hf existing Hin) as (_ & _ & Hq). now apply Hq.
    + intros Htaken. unfold Sql.update_user. rewrite Htaken, andb_true_r.
      assert (existsb (fun u => eqb (Users.id u) caller) (users d) = true) as ->;
        [|reflexivity].
      apply existsb_exists. exists existing. split; [exact Hin|].
      rewrite Hid. apply eqb_refl.
    + intros Htaken.
      rewrite (update_user_unique _ _ _ _ d existing Hnd Hin Hid Htaken).
      reflexivity.
Qed.

(** X6. Profile sync is idempotent on the store: the same profile sent
    again leaves the store as the first sync left it; both are refused with
    PROFILE_FAILED, or both are answered with the same user and a token
    signed from the same payload, the second at the time of the second
    sync. *)
Theorem profile_sync_twice (d : Db) (now now' : Z) (caller : jsstring) (p : Profile.t) :
  users_ok d ->
  let first := serve env gen_id now d (PostProfile caller p) in
  let second := serve env gen_id now' (snd first) (PostProfile caller p) in
  snd second = snd first
  /\ ((exists s,
         fst first = Ok (json (ProfileBody (mkToken s now) s))
         /\ fst second = Ok (json (ProfileBody (mkToken s now') s)))
      \/ (fst first = Ok (fail 500 PROFILE_FAILED)
          /\ fst second = Ok (fail 500 PROFILE_FAILED))).
Proof.
  intros Hd first second. pose proof Hd as (Hnd & Hf & Hu).
  destruct (Sql.users_by_id caller d) as [|existing rest] eqn:E.
  { assert (first = (Ok (fail 500 PROFILE_FAILED), d)) as E1
      by (unfold first, serve; now rewrite profile_quiet, E).
    unfold second. rewrite E1. cbn [fst snd]. unfold serve.
    rewrite profile_quiet, E. cbn [fst snd db idle].
    split; [reflexivity|]. right. now split. }
  pose proof E as Hin. apply filter_head in Hin as [Hin Hid]. apply eqb_eq in Hid.
  set (name := or_else (option_map trim (Profile.name p)) (Users.name existing)).
  set (phone := normalizePhone (or_else (Profile.phone p) (Users.phone existing))).
  set (adm := computeAdminFlag env name phone (Users.is_admin existing)).
  destruct (Sql.phone_taken caller phone d) eqn:Htaken.
  { assert (Sql.update_user caller name phone adm d = Throw (UniqueViolation "users.phone"))
      as Hthrow.
    { unfold Sql.update_user. rewrite Htaken, andb_true_r.
      assert (existsb (fun u => eqb (Users.id u) caller) (users d) = true) as ->;
        [|reflexivity].
      apply existsb_exists. exists existing. split; [exact Hin|].
      rewrite Hid. apply eqb_refl. }
    assert (first = (Ok (fail 500 PROFILE_FAILED), d)) as E1.
    { unfold first, serve. rewrite profile_quiet, E. cbv zeta.
      fold name phone adm. now rewrite Hthrow. }
    unfold second. rewrite E1. cbn [fst snd]. unfold serve.
    rewrite profile_quiet, E. cbv zeta. fold name phone adm. rewrite Hthrow.
    cbn [fst snd db idle]. split; [reflexivity|]. right. now split. }
  pose proof (update_user_unique caller name phone adm d existing Hnd Hin Hid Htaken)
    as Hup.
  set (u := Users.mk caller (Users.firebase_uid existing) name phone adm) in *.
  set (d1 := mkDb _ (weeks d) (parts d)) in *.
  assert (first = (Ok (json (ProfileBody (mkToken (session_of u) now) (session_of u))), d1))
    as E1.
  { unfold first, serve. rewrite profile_quiet, E. cbv zeta.
    fold name phone adm. now rewrite Hup. }
  assert (users_ok d1) as Hd1.
  { eapply update_user_ok; [exact Hd| | |exact Hup].
    - apply or_else_not_empty. rewrite Forall_forall in Hf.
      now destruct (Hf existing Hin) as (_ & Hname & _).
    - intros q Hq. eapply normalizePhone_normalized. exact Hq. }
  pose proof Hd1 as (Hnd1 & Hf1 & Hu1).
  assert (In u (users d1)) as Hin1.
  { cbn. apply in_map_iff. exists existing. rewrite Hid, eqb_refl. now split. }
  unfold second. rewrite E1. cbn [fst snd]. unfold serve. rewrite profile_quiet.
  assert (Sql.users_by_id caller d1 = [u]) as ->.
  { unfold Sql.users_by_id. change caller with (Users.id u). now apply filter_unique_id. }
  cbv zeta. cbn [Users.name Users.phone Users.is_admin u].
  assert (or_else (option_map trim (Profile.name p)) name = name) as ->
    by apply or_else_idem.
  assert (normalizePhone (or_else (Profile.phone p) phone) = phone) as ->.
  { unfold phone, or_else. destruct (truthy (Profile.phone p)); [reflexivity|].
    apply normalizePhone_idem. }
  assert (computeAdminFlag env name phone adm = adm) as ->
    by apply computeAdminFlag_idem.
  assert (Sql.phone_taken caller phone d1 = false) as Htaken1.
  { destruct phone as [q|] eqn:Eq; [|reflexivity].
    change caller with (Users.id u). now apply own_phone_free. }
  rewrite (update_user_unique caller name phone adm d1 u Hnd1 Hin1 eq_refl Htaken1).
  cbn [Users.firebase_uid u]. fold u. cbn [fst snd db idle]. split.
  - unfold d1. cbn [users weeks parts]. f_equal. rewrite map_map.
    apply map_ext. intros v. destruct (eqb (Users.id v) caller) eqn:Ev; cbn [Users.id u].
    + now rewrite eqb_refl.
    + now rewrite Ev.
  - left. exists (session_of u). now split.
Qed.

End LoginProfile.

(* ================================================================== *)
(** ** Who becomes an admin at login *)
(* ================================================================== *)

Section AdminGrants.

Variable env : Env.
Variable gen_id : list jsstring -> jsstring.

Hypothesis gen_id_fresh : forall l, ~ In (gen_id l) l.
Hypothesis gen_id_not_empty : forall l, gen_id l <> [].

Lemma listed_phone_flag (text v raw : jsstring) name cur :
  or_else (env_ADMIN_PHONES env) (Some builtin_admin_phones) = Some text ->
  In v (split_comma text) -> v <> [] ->
  normalizePhone (Some raw) = normalizePhone (Some v) ->
  computeAdminFlag env name (normalizePhone (Some raw)) cur = true.
Proof.
  intros Htext Hin Hv Hsame. unfold computeAdminFlag.
  assert (truthy (normalizePhone (Some v)) = true) as Ht.
  { rewrite normalizePhone_truthy. destruct v; [contradiction|reflexivity]. }
  assert (existsb (opt_eqb (normalizePhone (Some raw))) (ADMIN_PHONE_LIST env) = true)
    as Hex.
  { apply existsb_exists. exists (normalizePhone (Some v)). split.
    - unfold ADMIN_PHONE_LIST. rewrite Htext. apply filter_In. split; [|exact Ht].
      apply in_map_iff. now exists v.
    - now apply opt_eqb_eq. }
  rewrite Hex, Hsame, Ht. cbn. apply orb_true_r.
Qed.

Lemma admin_name_flag (name : option jsstring) phone cur :
  DEFAULT_ADMIN_NAME env <> [] -> name = Some (DEFAULT_ADMIN_NAME env) ->
  computeAdminFlag env name phone cur = true.
Proof.
  intros Hne ->. unfold computeAdminFlag. cbn [opt_eqb]. rewrite eqb_refl.
  destruct (DEFAULT_ADMIN_NAME env); [contradiction|]. cbn.
  now rewrite orb_true_r.
Qed.

(** X7. The two ways to become an admin at login. On a well-formed users
    table, a login whose phone, normalized, is an entry of the configured
    phone list (ADMIN_PHONES, split at the commas, each entry normalized,
    empty entries dropped), or whose trimmed name is the configured admin
    name, answers 200 with a token whose isAdmin is true, and the stored
    row is an admin: whatever flag the row had, and whoever sends it. *)
Theorem login_grants_admin (d : Db) (now : Z) (name phone key : jsstring) :
  users_ok d -> name <> [] -> phone <> [] ->
  (exists text v : jsstring,
      or_else (env_ADMIN_PHONES env) (Some builtin_admin_phones) = Some text
      /\ In v (split_comma text) /\ v <> []
      /\ normalizePhone (Some phone) = normalizePhone (Some v))
  \/ (DEFAULT_ADMIN_NAME env <> [] /\ trim name = DEFAULT_ADMIN_NAME env) ->
  exists u d',
    serve env gen_id now d (Login (Some name) (Some phone) key)
    = (Ok (json (LoginBody (mkToken (session_of u) now) (session_of u))), d')
    /\ isAdmin (session_of u) = true
    /\ In u (users d') /\ Users.is_admin u = true.
Proof.
  intros Hd Hn Hp Hwhy.
  destruct (normalizePhone_some phone Hp) as (pn & Hpn & Hne).
  assert (forall stored cur,
            computeAdminFlag env (or_else (or_null (Some (trim name))) stored) (Some pn) cur
            = true) as Hflag.
  { intros stored cur.
    destruct Hwhy as [(text & v & Ht & Hin & Hv & Hsame)|[Hdef Hname]].
    - rewrite <- Hpn. now apply (listed_phone_flag text v).
    - apply admin_name_flag; [exact Hdef|]. rewrite <- Hname.
      unfold or_null, or_else. cbn [truthy].
      destruct (trim name) eqn:E; [now rewrite Hname in Hdef|reflexivity]. }
  destruct (Sql.users_by_phone pn d) as [|current rest] eqn:E.
  - rewrite (login_new env gen_id name phone key d now pn) by assumption.
    assert (computeAdminFlag env (or_null (Some (trim name))) (Some pn) false = true) as Hadm.
    { specialize (Hflag None false).
      replace (or_else (or_null (Some (trim name))) None)
        with (or_null (Some (trim name))) in Hflag; [exact Hflag|].
      unfold or_null, or_else.
      destruct (truthy (Some (trim name))) eqn:T; [now rewrite T|reflexivity]. }
    do 2 eexists. split; [reflexivity|]. cbn [session_of isAdmin Users.is_admin users].
    split; [exact Hadm|]. split; [apply in_or_app; right; now left|exact Hadm].
  - rewrite (login_known env gen_id name phone key d now pn current rest) by assumption.
    do 2 eexists. split; [reflexivity|]. cbn [session_of isAdmin Users.is_admin users].
    split; [apply Hflag|]. split; [|apply Hflag].
    apply filter_head in E as [Hin _].
    apply in_map_iff. exists current. now rewrite eqb_refl.
Qed.

End AdminGrants.

(* ================================================================== *)
(** ** The admin toggle *)
(* ================================================================== *)

Lemma left_join_users_flag d p row (c : jsstring) :
  In row (Sql.left_join_users d p) ->
  Parts.claimed_by p = Some c ->
  PartRow.claimed_is_admin row = None
  \/ exists u, In u (users d) /\ Users.id u = c
               /\ PartRow.claimed_is_admin row = Some (Users.is_admin u).
Proof.
  unfold Sql.left_join_users. intros Hrow Hc. rewrite Hc in Hrow.
  destruct (filter _ (users d)) as [|u0 us] eqn:E.
  - destruct Hrow as [<-|[]]. now left.
  - apply in_map_iff in Hrow as [u [<- Hu]]. right. exists u.
    rewrite <- E in Hu. apply filter_In in Hu as [Hu Hid].
    cbn [opt_eqb] in Hid. apply eqb_eq in Hid. now repeat split.
Qed.

Section AdminToggle.

Variable env : Env.
Variable gen_id : list jsstring -> jsstring.

(** The users after [update users set is_admin=b where id=userId]. *)
Lemma toggle_quiet (caller userId : jsstring) (b : bool) (weekId : option jsstring)
    (pn : option jsnumber) d now :
  handle env gen_id (SetAdmin caller userId (Some b) weekId pn) (idle d now) =
  match Sql.users_by_id caller d with
  | [] => (Ok (fail 500 ADMIN_TOGGLE_FAILED), idle d now)
  | actor :: _ =>
      if negb (Users.is_admin actor) then (Ok (fail 403 NOT_ADMIN), idle d now)
      else
        let d' :=
          mkDb (map (fun u => if eqb (Users.id u) userId
                              then Users.mk (Users.id u) (Users.firebase_uid u)
                                     (Users.name u) (Users.phone u) b
                              else u) (users d))
               (weeks d) (parts d) in
        match Sql.users_by_id userId d with
        | [] => (Ok (fail 404 USER_NOT_FOUND), idle d' now)
        | _ :: _ =>
            (Ok (json (AdminBody userId b)),
             mkWorld d' [] []
               (match weekId, pn with
                | Some (c :: r), Some n =>
                    if isInteger n then
                      match Sql.part_with_claimant (c :: r) n d' with
                      | p :: _ => [ObsEmit (c :: r) (PartUpdate p)]
                      | [] => []
                      end
                    else []
                | _, _ => []
                end) now)
        end
  end.
Proof.
  unfold handle, patch_admin, try_catch, idle. unfold bind at 1.
  rewrite getUserById_quiet.
  destruct (Sql.users_by_id caller d) as [|actor others]; [reflexivity|].
  destruct (negb (Users.is_admin actor)); [reflexivity|].
  unfold bind at 1. rewrite pool_query_quiet. unfold Sql.update_user_admin.
  cbv zeta. unfold Sql.users_by_id.
  destruct (filter (fun u => eqb (Users.id u) userId) (users d)) as [|t ts];
    [reflexivity|].
  cbn [map Users.is_admin].
  destruct weekId as [[|c r]|]; try reflexivity.
  destruct pn as [n|]; [|reflexivity].
  destruct (isInteger n); [|reflexivity].
  unfold bind at 1 2. rewrite pool_query_quiet.
  match goal with
  | |- context [Sql.part_with_claimant ?a ?b ?c] =>
      destruct (Sql.part_with_claimant a b c)
  end; reflexivity.
Qed.

(** X8. The admin toggle. A caller with no user row gets
    ADMIN_TOGGLE_FAILED and a caller who is no admin NOT_ADMIN; a target
    that does not exist gives USER_NOT_FOUND; in all three the store is
    untouched. Otherwise the answer is 200 and the target's flag is the
    one asked for: the grant and the removal alike, also of one's own
    flag, after which one's next toggle is refused. No other column, no
    other user, no week and no part changes. The broadcast, if any, goes to
    the room of the week named in the body and shows a part of that week
    and number, with the new flag when the target holds it. *)
Theorem admin_toggle_spec (d : Db) (now : Z) (caller userId : jsstring) (b : bool)
    (weekId : option jsstring) (pn : option jsnumber) :
  let request := SetAdmin caller userId (Some b) weekId pn in
  let result := serve env gen_id now d request in
  (Sql.users_by_id caller d = [] -> result = (Ok (fail 500 ADMIN_TOGGLE_FAILED), d))
  /\ (forall actor others,
        Sql.users_by_id caller d = actor :: others ->
        (Users.is_admin actor = false -> result = (Ok (fail 403 NOT_ADMIN), d))
        /\ (Users.is_admin actor = true -> Sql.users_by_id userId d = [] ->
              result = (Ok (fail 404 USER_NOT_FOUND), d))
        /\ (Users.is_admin actor = true -> Sql.users_by_id userId d <> [] ->
              exists d',
                result = (Ok (json (AdminBody userId b)), d')
                /\ weeks d' = weeks d /\ parts d' = parts d
                /\ users d' =
                   map (fun u => if eqb (Users.id u) userId
                                 then Users.mk (Users.id u) (Users.firebase_uid u)
                                        (Users.name u) (Users.phone u) b
                                 else u) (users d)
                /\ (forall v, In v (users d') -> Users.id v = userId ->
                              Users.is_admin v = b)
                /\ (forall v, In v (users d) -> Users.id v <> userId ->
                              In v (users d'))
                /\ (userId = caller -> b = false ->
                    forall now' x b' wk pn',
                      serve env gen_id now' d' (SetAdmin caller x (Some b') wk pn')
                      = (Ok (fail 403 NOT_ADMIN), d'))
                /\ (forall room ev,
                      In (room, ev)
                         (emits (trace (snd (handle env gen_id request (idle d now))))) ->
                      weekId = Some room
                      /\ exists n p,
                           pn = Some n /\ ev = PartUpdate p
                           /\ In p (Sql.part_with_claimant room n d')
                           /\ (PartRow.claimed_by p = Some userId ->
                               PartRow.claimed_is_admin p = Some b)))).
Proof.
  cbv zeta. unfold serve. rewrite toggle_quiet. split.
  - intros ->. reflexivity.
  - intros actor others ->. split; [|split].
    + intros ->. reflexivity.
    + intros -> Hnone. cbn [negb]. cbv zeta. rewrite Hnone. cbn [snd db idle fst].
      f_equal. destruct d as [us ws ps]. cbn [users weeks parts] in *. f_equal.
      apply map_unchanged. intros u Hu.
      destruct (eqb (Users.id u) userId) eqn:E; [|reflexivity].
      exfalso. assert (In u (Sql.users_by_id userId (mkDb us ws ps))) as Hin
        by (apply filter_In; now split).
      rewrite Hnone in Hin. destruct Hin.
    + intros -> Hsome. cbn [negb]. cbv zeta.
      destruct (Sql.users_by_id userId d) as [|t ts] eqn:Et; [contradiction|].
      eexists. split; [reflexivity|]. cbn [users weeks parts db snd trace].
      split; [reflexivity|]. split; [reflexivity|]. split; [reflexivity|].
      split; [|split; [|split]].
      * intros v Hv Hid. apply in_map_iff in Hv as [u [<- Hu]].
        destruct (eqb (Users.id u) userId) eqn:E; [reflexivity|].
        apply eqb_neq in E. destruct (eqb (Users.id u) userId); cbn in Hid; contradiction.
      * intros v Hv Hne. apply in_map_iff. exists v. apply eqb_neq in Hne.
        now rewrite Hne.
      * intros -> -> now' x b' wk pn'. rewrite toggle_quiet.
        match goal with
        | |- context [Sql.users_by_id caller ?dd] =>
            destruct (Sql.users_by_id caller dd) as [|a' rest'] eqn:Ea
        end.
        { exfalso. apply filter_head in Et as [Hin Hid].
          match type of Ea with
          | Sql.users_by_id _ ?dd = [] =>
              assert (In (Users.mk (Users.id t) (Users.firebase_uid t) (Users.name t)
                            (Users.phone t) false) (Sql.users_by_id caller dd)) as Hbad
          end.
          { apply filter_In. split; [|exact Hid]. cbn [users].
            apply in_map_iff. exists t. now rewrite Hid. }
          rewrite Ea in Hbad. destruct Hbad. }
        apply filter_head in Ea as [Hin Hid]. cbn [users] in Hin.
        apply in_map_iff in Hin as [u [Hu Hin]]. apply eqb_eq in Hid.
        assert (Users.is_admin a' = false) as ->; [|reflexivity].
        destruct (eqb (Users.id u) caller) eqn:E; [now subst a'|].
        subst a'. apply eqb_neq in E. contradiction.
      * intros room ev Hin.
        destruct weekId as [[|c r]|]; try (now destruct Hin).
        destruct pn as [n|]; [|now destruct Hin].
        destruct (isInteger n); [|now destruct Hin].
        match type of Hin with
        | context [Sql.part_with_claimant ?a ?b ?c] =>
            destruct (Sql.part_with_claimant a b c) as [|p ps] eqn:Ep
        end; [now destruct Hin|].
        destruct Hin as [Hin|[]]. injection Hin as <- <-.
        split; [reflexivity|]. exists n, p. split; [reflexivity|].
        split; [reflexivity|]. rewrite Ep. split; [now left|].
        intros Hby.
        assert (In p (Sql.part_with_claimant (c :: r) n
                  (mkDb (map (fun u => if eqb (Users.id u) userId
                                       then Users.mk (Users.id u) (Users.firebase_uid u)
                                              (Users.name u) (Users.phone u) b
                                       else u) (users d)) (weeks d) (parts d)))) as Hp
          by (rewrite Ep; now left).
        unfold Sql.part_with_claimant in Hp. apply in_flat_map in Hp as [q [_ Hq]].
        pose proof (left_join_users_fields _ _ _ Hq) as (_ & Hcb & _).
        rewrite Hby in Hcb. symmetry in Hcb.
        unfold Sql.left_join_users in Hq. rewrite Hcb in Hq. cbn [users] in Hq.
        match type of Hq with
        | In _ (match ?f with _ => _ end) => destruct f as [|u0 us] eqn:Ef
        end.
        { exfalso. apply filter_head in Et as [Hin Hid].
          assert (In (Users.mk (Users.id t) (Users.firebase_uid t) (Users.name t)
                        (Users.phone t) b)
                     (filter (fun u => opt_eqb (Some (Users.id u)) (Some userId))
                        (map (fun u => if eqb (Users.id u) userId
                                       then Users.mk (Users.id u) (Users.firebase_uid u)
                                              (Users.name u) (Users.phone u) b
                                       else u) (users d)))) as Hbad.
          { apply filter_In. split; [|exact Hid].
            apply in_map_iff. exists t. now rewrite Hid. }
          rewrite Ef in Hbad. destruct Hbad. }
        apply in_map_iff in Hq as [u [<- Hu]]. cbn [PartRow.claimed_is_admin].
        rewrite <- Ef in Hu. apply filter_In in Hu as [Hu Hid].
        apply in_map_iff in Hu as [u1 [<- Hu1]]. cbn [opt_eqb] in Hid.
        destruct (eqb (Users.id u1) userId) eqn:E; [reflexivity|].
        congruence.
Qed.

End AdminToggle.

(* ================================================================== *)
(** ** One broadcast at most *)
(* ================================================================== *)

Lemma traceless_try_catch {A} (body : M A) (handler : Error -> M A) :
  traceless body -> (forall e, traceless (handler e)) ->
  traceless (try_catch body handler).
Proof.
  intros Hb Hh w. unfold try_catch. specialize (Hb w).
  destruct (body w) as [[a|e] w1]; cbn in *; [exact Hb|].
  now rewrite Hh.
Qed.

Lemma silent_try_catch {A} (body : M A) (handler : Error -> M A) :
  silent body -> (forall e, silent (handler e)) -> silent (try_catch body handler).
Proof.
  intros Hb Hh w. unfold try_catch. specialize (Hb w).
  destruct (body w) as [[a|e] w1]; cbn in *; [exact Hb|].
  eapply quiet_from_trans; [exact Hb|apply Hh].
Qed.

Lemma silent_COMMIT : silent COMMIT.
Proof.
  intros w. unfold COMMIT, bind, hazard.
  destruct (sched w) as [|[|f|] s]; cbn;
    try (exists [ObsCommit]; now split); apply quiet_from_refl.
Qed.

Lemma emits_last_ret (r : Response) : emits_last (ret r).
Proof. intros w. now left. Qed.

Lemma emits_last_try_catch (body : M Response) (handler : Error -> M Response) :
  emits_last body -> (forall e, traceless (handler e)) ->
  emits_last (try_catch body handler).
Proof.
  intros Hb Hh w. unfold try_catch. specialize (Hb w).
  destruct (body w) as [[a|e] w1]; cbn in *; [exact Hb|].
  destruct Hb as [Ht|[[b Hs] _]]; [|discriminate].
  left. now rewrite Hh.
Qed.

Lemma emits_at_end_ret : emits_at_end (ret tt).
Proof. intros w. now left. Qed.

Lemma emits_at_end_emit room ev : emits_at_end (emit room ev).
Proof. intros w. right. split; [reflexivity|]. now exists room, ev. Qed.

Lemma emits_at_end_bind {A} (m : M A) (k : A -> M unit) :
  traceless m -> (forall a, emits_at_end (k a)) -> emits_at_end (bind m k).
Proof.
  intros Hm Hk w. unfold bind. specialize (Hm w).
  destruct (m w) as [[a|e] w1]; cbn in *; [|now left].
  rewrite <- Hm. apply Hk.
Qed.

Lemma emits_at_end_respond (m : M unit) b :
  emits_at_end m -> emits_last (m ;; ret (json b)).
Proof.
  intros Hm w. unfold bind. specialize (Hm w).
  destruct (m w) as [[done|e] w1]; cbn in *.
  - destruct Hm as [Ht|[_ Ht]]; [now left|right].
    split; [now exists b|exact Ht].
  - destruct Hm as [Ht|[Hbad _]]; [now left|discriminate].
Qed.

Section AtMostOnce.

Variable env : Env.
Variable gen_id : list jsstring -> jsstring.

Lemma traceless_loginUser nameInput phoneInput key :
  traceless (loginUser env gen_id nameInput phoneInput key).
Proof.
  unfold loginUser.
  destruct (normalizePhone (Some phoneInput)) as [[|c r]|]; try apply traceless_throw.
  apply traceless_bind; [apply traceless_pool_query|].
  intros [|current rest];
    (apply traceless_bind; [apply traceless_pool_query|intros; apply traceless_ret]).
Qed.

Lemma traceless_post_auth_login name phone key :
  traceless (post_auth_login env gen_id name phone key).
Proof.
  unfold post_auth_login.
  destruct name as [[|c r]|]; try apply traceless_ret.
  destruct phone as [[|c' r']|]; try apply traceless_ret.
  apply traceless_try_catch; [|intros; apply traceless_ret].
  apply traceless_bind; [apply traceless_loginUser|]. intros user.
  apply traceless_bind; [apply traceless_field|]. intros s.
  apply traceless_bind; [apply traceless_signSession|]. intros token.
  apply traceless_ret.
Qed.

Lemma traceless_post_profile caller p : traceless (post_profile env caller p).
Proof.
  unfold post_profile.
  apply traceless_try_catch; [|intros; apply traceless_ret].
  apply traceless_bind; [apply traceless_updateUserProfile|]. intros user.
  apply traceless_bind; [apply traceless_field|]. intros s.
  apply traceless_bind; [apply traceless_signSession|]. intros token.
  apply traceless_ret.
Qed.

Lemma silent_get_week key : silent (get_week gen_id key).
Proof.
  unfold get_week. destruct (negb _); [apply traceless_silent, traceless_ret|].
  apply silent_try_catch.
  - apply silent_bind; [apply silent_BEGIN|]. intros done.
    apply silent_bind; [apply traceless_silent, traceless_getWeek|]. intros week.
    apply silent_bind; [apply silent_COMMIT|]. intros done'.
    apply silent_bind; [apply traceless_silent, traceless_fetchParts|]. intros ps.
    apply traceless_silent, traceless_ret.
  - intros e. apply silent_bind; [apply silent_ROLLBACK|].
    intros done. apply traceless_silent, traceless_ret.
Qed.

Lemma emits_last_patch_admin caller userId makeAdmin weekId partNumber :
  emits_last (patch_admin caller userId makeAdmin weekId partNumber).
Proof.
  unfold patch_admin. destruct makeAdmin as [mk|]; [|apply emits_last_ret].
  apply emits_last_try_catch; [|intros; apply traceless_ret].
  apply emits_last_bind; [apply traceless_getUserById|]. intros actor.
  destruct (negb _); [apply emits_last_ret|].
  apply emits_last_bind; [apply traceless_pool_query|].
  intros [|updated others]; [apply emits_last_ret|].
  apply emits_at_end_respond.
  destruct weekId as [[|c0 r0]|]; try apply emits_at_end_ret.
  destruct partNumber as [pn|]; [|apply emits_at_end_ret].
  destruct (isInteger pn); [|apply emits_at_end_ret].
  apply emits_at_end_bind; [apply traceless_pool_query|].
  intros [|p ps]; [apply emits_at_end_ret|apply emits_at_end_emit].
Qed.

(** X9. No request broadcasts more than once, and none broadcasts unless
    it answers 200: in every world, whatever statements fail and whatever
    other connections commit. Login, profile sync and the week fetch never
    broadcast. *)
Theorem at_most_one_broadcast (r : Request) (w : World) :
  let o := fst (handle env gen_id r w) in
  let t' := trace (snd (handle env gen_id r w)) in
  (emits t' = emits (trace w)
   \/ (succeeded o /\ exists room ev, emits t' = emits (trace w) ++ [(room, ev)]))
  /\ (reads_or_signs_in r = true -> emits t' = emits (trace w)).
Proof.
  cbv zeta.
  assert (forall m : M Response, silent m ->
            emits (trace (snd (m w))) = emits (trace w)) as Hsilent
    by (intros m Hm; apply quiet_from_emits, Hm).
  assert (forall m : M Response, emits_only_after_commit m ->
            emits (trace (snd (m w))) = emits (trace w)
            \/ (succeeded (fst (m w))
                /\ exists room ev,
                     emits (trace (snd (m w))) = emits (trace w) ++ [(room, ev)]))
    as Heoac.
  { intros m Hm. destruct (Hm w) as [Hq|[Hs Hc]].
    - left. now apply quiet_from_emits.
    - right. split; [exact Hs|]. now apply committed_then_emitted_emits. }
  destruct r as [name phone authKey|caller profile|weekKey|caller weekId n profile
                |caller weekId n|caller weekKey profile
                |caller target makeAdmin weekId partNumber];
    cbn [handle reads_or_signs_in].
  - assert (emits (trace (snd (post_auth_login env gen_id name phone authKey w)))
            = emits (trace w)) as E
      by apply Hsilent, traceless_silent, traceless_post_auth_login.
    split; [now left|now intros _].
  - assert (emits (trace (snd (post_profile env caller profile w))) = emits (trace w)) as E
      by apply Hsilent, traceless_silent, traceless_post_profile.
    split; [now left|now intros _].
  - assert (emits (trace (snd (get_week gen_id weekKey w))) = emits (trace w)) as E
      by apply Hsilent, silent_get_week.
    split; [now left|now intros _].
  - split; [apply Heoac, eoac_post_claim|discriminate].
  - split; [apply Heoac, eoac_post_release|discriminate].
  - split; [apply Heoac, eoac_post_reset|discriminate].
  - split; [|discriminate].
    destruct (emits_last_patch_admin caller target makeAdmin weekId partNumber w)
      as [Ht|[Hs (room & ev & Ht)]]; rewrite Ht.
    + now left.
    + right. split; [exact Hs|]. exists room, ev. now rewrite emits_app.
Qed.

End AtMostOnce.

(* ================================================================== *)
(** ** The shape of a snapshot *)
(* ================================================================== *)

Lemma insert_by_number_perm p l :
  Permutation (Sql.insert_by_number p l) (p :: l).
Proof.
  induction l as [|q l IH]; cbn; [reflexivity|].
  destruct (Parts.number p <=? Parts.number q); [reflexivity|].
  rewrite IH. apply perm_swap.
Qed.

Lemma order_by_number_perm l : Permutation (Sql.order_by_number l) l.
Proof.
  induction l as [|p l IH]; cbn; [reflexivity|].
  rewrite insert_by_number_perm. now constructor.
Qed.

Lemma insert_by_number_sorted p l :
  StronglySorted (fun a b => Parts.number a <= Parts.number b) l ->
  StronglySorted (fun a b => Parts.number a <= Parts.number b)
                 (Sql.insert_by_number p l).
Proof.
  induction l as [|q l IH]; intros Hs; cbn.
  - constructor; constructor.
  - inversion Hs as [|? ? Hl Hq]; subst.
    destruct (Parts.number p <=? Parts.number q) eqn:E.
    + apply Z.leb_le in E. constructor; [exact Hs|].
      constructor; [exact E|].
      apply Forall_impl with (P := fun b => Parts.number q <= Parts.number b);
        [|exact Hq].
      intros b Hb. lia.
    + apply Z.leb_gt in E. constructor; [now apply IH|].
      apply Forall_forall. intros b Hb. apply insert_by_number_In in Hb as [->|Hb].
      * lia.
      * rewrite Forall_forall in Hq. now apply Hq.
Qed.

Lemma order_by_number_sorted l :
  StronglySorted (fun a b => Parts.number a <= Parts.number b)
                 (Sql.order_by_number l).
Proof.
  induction l as [|p l IH]; cbn; [constructor|].
  now apply insert_by_number_sorted.
Qed.

(** A table that is in order already is returned as it is. *)
Lemma order_by_number_sorted_id l :
  Sorted Z.le (map Parts.number l) -> Sql.order_by_number l = l.
Proof.
  induction l as [|p l IH]; intros Hs; [reflexivity|].
  change (Sql.order_by_number (p :: l))
    with (Sql.insert_by_number p (Sql.order_by_number l)).
  cbn [map] in Hs. inversion Hs as [|? ? Hl Hp]; subst. rewrite (IH Hl).
  destruct l as [|q l]; [reflexivity|].
  cbn [map] in Hp. inversion Hp as [|? ? Hle]; subst.
  apply Z.leb_le in Hle. cbn [Sql.insert_by_number]. now rewrite Hle.
Qed.

Lemma generate_series_1_30_sorted : Sorted Z.le generate_series_1_30.
Proof. repeat constructor; discriminate. Qed.

(** The claimant's flag as the join finds it. *)
Lemma left_join_users_one d p :
  NoDup (map Users.id (users d)) ->
  Sql.left_join_users d p =
  [PartRow.mk (of_Z (Parts.number p)) (Parts.claimed_by p) (Parts.claimed_name p)
     match Parts.claimed_by p with
     | Some c => option_map Users.is_admin (hd_error (Sql.users_by_id c d))
     | None => None
     end].
Proof.
  intros Hnd. unfold Sql.left_join_users.
  destruct (Parts.claimed_by p) as [c|]; [|now rewrite filter_none].
  change (filter (fun u => opt_eqb (Some (Users.id u)) (Some c)) (users d))
    with (Sql.users_by_id c d).
  destruct (Sql.users_by_id c d) as [|u us] eqn:E; [reflexivity|].
  pose proof E as Hu. apply filter_head in Hu as [Hin Hid]. apply eqb_eq in Hid.
  subst c. unfold Sql.users_by_id in E.
  rewrite (filter_unique_id _ _ Hnd Hin) in E. injection E as <-. reflexivity.
Qed.

Section Snapshot.

Variable env : Env.
Variable gen_id : list jsstring -> jsstring.

Hypothesis gen_id_fresh : forall l, ~ In (gen_id l) l.

(** X10. What the select of [fetchParts] returns when user ids are
    distinct: the parts of the week, each once, in ascending order of their
    numbers whatever the order of the table; each row shows the number,
    claimant and claimant name of its part, and the admin flag the
    claimant has now (null when the part is free or the claimant is
    gone). *)
Theorem snapshot_shape (d : Db) (week_id : jsstring) :
  NoDup (map Users.id (users d)) ->
  exists ps,
    Permutation ps (filter (in_week week_id) (parts d))
    /\ StronglySorted (fun a b => Parts.number a <= Parts.number b) ps
    /\ Sql.parts_of_week week_id d =
       map (fun p =>
              PartRow.mk (of_Z (Parts.number p)) (Parts.claimed_by p)
                (Parts.claimed_name p)
                match Parts.claimed_by p with
                | Some c => option_map Users.is_admin (hd_error (Sql.users_by_id c d))
                | None => None
                end) ps.
Proof.
  intros Hnd. exists (Sql.order_by_number (filter (in_week week_id) (parts d))).
  split; [apply order_by_number_perm|]. split; [apply order_by_number_sorted|].
  unfold Sql.parts_of_week. apply flat_map_singletons.
  intros p _. now apply left_join_users_one.
Qed.

Lemma snapshot_numbers d k :
  weeks_complete d -> NoDup (map Users.id (users d)) -> In k (weeks d) ->
  map PartRow.number (Sql.parts_of_week (Weeks.id k) d)
  = map of_Z generate_series_1_30.
Proof.
  intros (_ & Hnum & _) Hnd Hk. specialize (Hnum k Hk). unfold numbers_of in Hnum.
  unfold Sql.parts_of_week. rewrite order_by_number_sorted_id
    by (rewrite Hnum; apply generate_series_1_30_sorted).
  erewrite flat_map_singletons by (intros p _; now apply left_join_users_one).
  rewrite map_map. cbn [PartRow.number]. rewrite <- Hnum. now rewrite map_map.
Qed.

(** X11. The week fetch shows thirty parts. On a store where every week
    has its parts 1 to 30 and user ids are distinct, GET
    /api/weeks/:weekKey with a key that is not empty answers 200 with
    thirty rows, numbered 1 to 30 in this order, whether the week was there
    or is created by the request; a week that is created shows thirty free
    rows. *)
Theorem week_fetch_has_thirty_rows (d : Db) (now : Z) (weekKey : jsstring) :
  weeks_complete d -> NoDup (map Users.id (users d)) -> weekKey <> [] ->
  exists id key rows d',
    serve env gen_id now d (GetWeek weekKey) = (Ok (json (WeekBody id key rows)), d')
    /\ map PartRow.number rows = map of_Z generate_series_1_30
    /\ List.length rows = 30%nat
    /\ (Sql.weeks_by_key weekKey d = [] -> rows = map free_row generate_series_1_30).
Proof.
  intros Hc Hnd Hkey. unfold serve. rewrite get_week_quiet by exact Hkey. cbv zeta.
  destruct (Sql.weeks_by_key weekKey d) as [|k ks] eqn:E.
  - cbn [fold_left apply_write users weeks parts].
    assert (forall p, In p (parts d) ->
              Parts.week_id p <> gen_id (map Weeks.id (weeks d))) as Hold.
    { intros p Hp Heq. destruct Hc as (_ & _ & Hin).
      apply (gen_id_fresh (map Weeks.id (weeks d))). rewrite <- Heq. now apply Hin. }
    rewrite (snapshot_new_week _ _ _ _ Hold).
    do 4 eexists. split; [reflexivity|]. split; [now rewrite map_map|].
    split; [reflexivity|]. reflexivity.
  - cbn [fold_left]. apply filter_head in E as [Hk _].
    pose proof (snapshot_numbers d k Hc Hnd Hk) as Hn.
    do 4 eexists. split; [reflexivity|]. split; [exact Hn|].
    split; [|discriminate].
    rewrite <- (length_map PartRow.number), Hn. reflexivity.
Qed.

End Snapshot.

(* ================================================================== *)
(** ** Holding, releasing and handing over a part *)
(* ================================================================== *)

Lemma num_eqb_inj n a b : num_eqb n a = true -> num_eqb n b = true -> a = b.
Proof.
  destruct n as [| |q]; try discriminate. unfold num_eqb. intros Ha Hb.
  apply Qeq_bool_iff in Ha, Hb.
  assert (Qeq (inject_Z a) (inject_Z b)) as H
    by (eapply Qeq_trans; [apply Qeq_sym; exact Ha|exact Hb]).
  unfold Qeq, inject_Z in H. cbn in H. lia.
Qed.

Lemma weeks_complete_keys_unique d : weeks_complete d -> part_keys_unique d.
Proof.
  intros (_ & Hnum & Hin) p q Hp Hq Hw Hn.
  pose proof (Hin p Hp) as Hk. apply in_map_iff in Hk as [k [Hid Hk]].
  specialize (Hnum k Hk). unfold numbers_of in Hnum.
  apply (NoDup_map_same Parts.number (filter (in_week (Weeks.id k)) (parts d)));
    [rewrite Hnum; apply generate_series_1_30_NoDup| | |exact Hn].
  - apply filter_In. split; [exact Hp|]. unfold in_week. now apply eqb_eq.
  - apply filter_In. split; [exact Hq|]. unfold in_week. apply eqb_eq. congruence.
Qed.

Lemma update_where_keeps cond f (l : list Parts.row) p :
  In p l -> cond p = false -> In p (update_where cond f l).
Proof.
  intros Hin Hc. unfold update_where. apply in_map_iff. exists p. now rewrite Hc.
Qed.

Lemma filter_update_where cond f (l : list Parts.row) :
  (forall p, cond (f p) = cond p) ->
  filter cond (update_where cond f l) = map f (filter cond l).
Proof.
  intros Hf. unfold update_where. induction l as [|p l IH]; cbn; [reflexivity|].
  destruct (cond p) eqn:E.
  - rewrite Hf, E. cbn. now rewrite IH.
  - now rewrite E.
Qed.

Lemma clear_after_claim cond by_ nm at_ (l : list Parts.row) :
  (forall p, cond (claim_part by_ nm at_ p) = cond p) ->
  (forall p, In p l -> cond p = true -> free p) ->
  update_where cond clear_part (update_where cond (claim_part by_ nm at_) l) = l.
Proof.
  intros Hc Hfree. unfold update_where. rewrite map_map. apply map_unchanged.
  intros p Hp. destruct (cond p) eqn:E; [|now rewrite E].
  rewrite Hc, E. destruct (Hfree p Hp E) as (H1 & H2 & H3).
  destruct p as [w n b m a]. cbn in *. now subst.
Qed.

Lemma claim_after_clear cond by_ nm at_ (l : list Parts.row) :
  (forall p, cond (clear_part p) = cond p) ->
  update_where cond (claim_part by_ nm at_) (update_where cond clear_part l)
  = update_where cond (claim_part by_ nm at_) l.
Proof.
  intros Hc. unfold update_where. rewrite map_map. apply map_ext.
  intros p. destruct (cond p) eqn:E; [|now rewrite E].
  now rewrite Hc, E.
Qed.

Section Holding.

Variable env : Env.
Variable gen_id : list jsstring -> jsstring.

Hypothesis gen_id_fresh : forall l, ~ In (gen_id l) l.

(** Login, profile sync and the admin toggle touch neither weeks nor
    parts. *)
Lemma serve_users_only now d r :
  match r with
  | Login _ _ _ | PostProfile _ _ | SetAdmin _ _ _ _ _ => True
  | _ => False
  end ->
  weeks (snd (serve env gen_id now d r)) = weeks d
  /\ parts (snd (serve env gen_id now d r)) = parts d.
Proof.
  intros Hr. unfold serve.
  set (Good := fun d' : Db => weeks d' = weeks d /\ parts d' = parts d).
  assert (forall a b : Db, weeks b = weeks a -> parts b = parts a -> Good a -> Good b)
    as Hwp by (intros a b Hw Hp [H1 H2]; split; congruence).
  assert (Good d) as Hstart by (now split).
  assert (during d (eq []) (idle d now)) as Hpre by (repeat split; constructor).
  assert (hoare (during d (eq [])) (handle env gen_id r) (fun _ => after Good) (after Good))
    as H.
  { destruct r; try contradiction; cbn [handle].
    - now apply post_auth_login_keeps.
    - now apply post_profile_keeps.
    - now apply patch_admin_keeps. }
  specialize (H (idle d now) Hpre).
  destruct (handle env gen_id r (idle d now)) as [[a|e] w']; cbn [snd];
    now destruct H as (_ & Hg & _).
Qed.

Lemma resolve_caller_none (caller : jsstring) d now u others :
  Sql.users_by_id caller d = u :: others ->
  resolve_caller env caller Profile.none (idle d now) = (Ok (Some u), idle d now).
Proof.
  intros Hu. unfold resolve_caller, idle. unfold bind at 1.
  rewrite getUserById_quiet, Hu. reflexivity.
Qed.

(** The row a resolution returns is stored. *)
Lemma resolve_caller_stored (caller : jsstring) p d now u d1 :
  resolve_caller env caller p (idle d now) = (Ok (Some u), idle d1 now) ->
  In u (users d1).
Proof.
  unfold resolve_caller, idle. unfold bind at 1. rewrite getUserById_quiet.
  destruct (Sql.users_by_id caller d) as [|u0 us] eqn:E0; [discriminate|].
  destruct (truthy (Profile.name p) || truthy (Profile.phone p)).
  - rewrite updateUserProfile_quiet.
    destruct (Sql.users_by_id (Users.id u0) d) as [|u1 us1] eqn:E1; [discriminate|].
    cbv zeta.
    destruct (Sql.update_user _ _ _ _ _) as [[rows d']|e] eqn:E; [|discriminate].
    intros H. injection H as Hu <-. unfold Sql.update_user in E.
    destruct (_ && _); [discriminate|]. injection E as <- <-.
    unfold Sql.users_by_id in E1. rewrite E1 in Hu. cbn in Hu. injection Hu as <-.
    cbn [users]. apply in_map_iff. exists u1.
    apply filter_head in E1 as [Hin Hid]. rewrite Hid. now split.
  - intros H. injection H as <- <-. now apply filter_head in E0 as [Hin _].
Qed.

(** X12. A held part stays held. On a store where every week has its
    parts 1 to 30, a part that someone holds is exactly as it was after
    any request that is neither that holder's release of this part nor a
    reset of its week: nobody, admin or not, can take it over by claiming
    it or free it by a release of their own. *)
Theorem held_part_stays_held (d : Db) (now : Z) (r : Request) (p : Parts.row)
    (holder : jsstring) :
  weeks_complete d ->
  In p (parts d) -> Parts.claimed_by p = Some holder -> holder <> [] ->
  (forall n, r = ReleasePart holder (Parts.week_id p) n ->
             number_matches n (Parts.number p) = false) ->
  (forall caller key profile k,
     r = ResetWeek caller key profile ->
     In k (weeks d) -> Weeks.week_key k = key -> Weeks.id k <> Parts.week_id p) ->
  In p (parts (snd (serve env gen_id now d r))).
Proof.
  intros Hc Hp Hby Hholder Hrel Hreset.
  pose proof (weeks_complete_keys_unique d Hc) as Hkeys.
  assert (forall weekId n row rest,
            Sql.parts_by_key weekId n d = row :: rest ->
            part_matches weekId n p = true -> row = p) as Hrow.
  { intros weekId n row rest E Hm. apply filter_head in E as [Hin Hr].
    unfold part_matches in Hm, Hr.
    apply andb_true_iff in Hm as [Hw1 Hn1]. apply andb_true_iff in Hr as [Hw2 Hn2].
    apply eqb_eq in Hw1, Hw2. apply Hkeys; try assumption; [congruence|].
    unfold number_matches in *. eapply num_eqb_inj; eassumption. }
  destruct r as [name phone key|caller profile|weekKey|caller weekId n profile
                |caller weekId n|caller weekKey profile|caller userId mk wk pn].
  - now rewrite (proj2 (serve_users_only now d (Login name phone key) I)).
  - now rewrite (proj2 (serve_users_only now d (PostProfile caller profile) I)).
  - destruct weekKey as [|c0 r0]; [exact Hp|].
    unfold serve. rewrite get_week_quiet by discriminate. cbv zeta.
    destruct (Sql.weeks_by_key (c0 :: r0) d) as [|k ks]; cbn; [|exact Hp].
    apply in_or_app. now left.
  - destruct (negb (truthy (Some weekId)) || isNaN n) eqn:G.
    { unfold serve, handle, post_claim. rewrite G. exact Hp. }
    apply orb_false_iff in G as [Gw Gn].
    assert (weekId <> []) as Hw by (intros ->; discriminate).
    destruct (resolve_caller_quiet env caller profile d [] now)
      as (o & d1 & Hres & Hwk & Hpt & _).
    unfold serve. rewrite (claim_quiet env gen_id caller weekId n profile d now o d1 Hw Gn Hres).
    destruct o as [user|e]; [|cbn; now rewrite Hpt].
    assert (Sql.parts_by_key weekId n d1 = Sql.parts_by_key weekId n d) as ->
      by (unfold Sql.parts_by_key; now rewrite Hpt).
    destruct (Sql.parts_by_key weekId n d) as [|row rest] eqn:E; [cbn; now rewrite Hpt|].
    destruct (truthy (Parts.claimed_by row)) eqn:T; [cbn; now rewrite Hpt|].
    destruct user as [u|]; [|cbn; now rewrite Hpt].
    cbn [snd db apply_write parts]. rewrite Hpt. apply update_where_keeps; [exact Hp|].
    destruct (part_matches weekId n p) eqn:Hm; [|reflexivity].
    rewrite (Hrow _ _ _ _ E Hm), Hby in T. destruct holder; [contradiction|discriminate].
  - destruct (negb (truthy (Some weekId)) || isNaN n) eqn:G.
    { unfold serve, handle, post_release. rewrite G. exact Hp. }
    apply orb_false_iff in G as [Gw Gn].
    assert (weekId <> []) as Hw by (intros ->; discriminate).
    unfold serve. rewrite (release_quiet env gen_id caller weekId n d now Hw Gn).
    destruct (Sql.users_by_id caller d) as [|u others] eqn:Eu; [exact Hp|].
    destruct (Sql.parts_by_key weekId n d) as [|row rest] eqn:E; [exact Hp|].
    destruct (negb (truthy (Parts.claimed_by row))
              || negb (opt_eqb (Parts.claimed_by row) (Some (Users.id u)))) eqn:T;
      [exact Hp|].
    cbn [snd db apply_write parts]. apply update_where_keeps; [exact Hp|].
    destruct (part_matches weekId n p) eqn:Hm; [|reflexivity].
    exfalso. apply orb_false_iff in T as [_ T]. apply negb_false_iff, opt_eqb_eq in T.
    rewrite (Hrow _ _ _ _ E Hm), Hby in T. injection T as T.
    apply filter_head in Eu as [_ Eu]. apply eqb_eq in Eu.
    unfold part_matches in Hm. apply andb_true_iff in Hm as [Hw1 Hn1].
    apply eqb_eq in Hw1.
    assert (number_matches n (Parts.number p) = false) as Hno
      by (apply Hrel; congruence).
    congruence.
  - destruct weekKey as [|c0 r0]; [exact Hp|].
    destruct (resolve_caller_quiet env caller profile d [] now)
      as (o & d1 & Hres & Hwk & Hpt & _).
    unfold serve.
    rewrite (reset_quiet env gen_id caller (c0 :: r0) profile d now o d1) by
      (discriminate || exact Hres).
    destruct o as [[u|]|e]; try (cbn; now rewrite Hpt).
    destruct (negb (Users.is_admin u)); [cbn; now rewrite Hpt|]. cbv zeta.
    assert (Sql.weeks_by_key (c0 :: r0) d1 = Sql.weeks_by_key (c0 :: r0) d) as ->
      by (unfold Sql.weeks_by_key; now rewrite Hwk).
    destruct (Sql.weeks_by_key (c0 :: r0) d) as [|k ks] eqn:E.
    + cbn [snd db fold_left apply_write parts]. rewrite Hpt, Hwk.
      apply update_where_keeps; [apply in_or_app; now left|].
      unfold in_week. apply eqb_neq. intros Heq.
      apply (gen_id_fresh (map Weeks.id (weeks d))). rewrite <- Heq.
      destruct Hc as (_ & _ & Hin). now apply Hin.
    + cbn [snd db fold_left apply_write parts]. rewrite Hpt.
      apply update_where_keeps; [exact Hp|].
      unfold in_week. apply eqb_neq. intros Heq.
      apply filter_head in E as [Hk Hkey]. apply eqb_eq in Hkey.
      now apply (Hreset caller (c0 :: r0) profile k eq_refl Hk Hkey).
  - now rewrite (proj2 (serve_users_only now d (SetAdmin caller userId mk wk pn) I)).
Qed.

(** X13. Claim then release is a round trip. For a caller who resolves to
    a user row, a claim of a free part followed by the same caller's
    release of it both answer 200 and leave every part as it was before
    the claim: the store is the one the resolution of the caller left,
    which is the old one when the claim carried no profile. *)
Theorem claim_then_release_restores (d : Db) (now now' : Z) (caller weekId : jsstring)
    (n : jsnumber) (profile : Profile.t) (u : Users.row) (d1 : Db) :
  weekId <> [] -> isNaN n = false -> caller <> [] ->
  resolve_caller env caller profile (idle d now) = (Ok (Some u), idle d1 now) ->
  Sql.parts_by_key weekId n d <> [] ->
  (forall p, In p (parts d) -> part_matches weekId n p = true -> free p) ->
  exists payload d',
    serve env gen_id now d (ClaimPart caller weekId n profile)
    = (Ok (json (PartBody payload)), d')
    /\ PartRow.claimed_by payload = Some caller
    /\ serve env gen_id now' d' (ReleasePart caller weekId n)
       = (Ok (json (PartBody (PartRow.mk n None None None))), d1)
    /\ parts d1 = parts d /\ weeks d1 = weeks d
    /\ (truthy (Profile.name profile) || truthy (Profile.phone profile) = false ->
        d1 = d).
Proof.
  intros Hw Hn Hcaller Hres Hsome Hfree.
  pose proof Hres as Hid. apply resolve_caller_id in Hid.
  pose proof Hres as Hok. apply resolve_caller_ok in Hok as (Hwk & Hpt & Hsame).
  pose proof Hres as Hin. apply resolve_caller_stored in Hin.
  unfold serve at 1. rewrite (claim_quiet env gen_id caller weekId n profile d now _ d1 Hw Hn Hres).
  assert (Sql.parts_by_key weekId n d1 = Sql.parts_by_key weekId n d) as ->
    by (unfold Sql.parts_by_key; now rewrite Hpt).
  destruct (Sql.parts_by_key weekId n d) as [|row rest] eqn:E; [contradiction|].
  assert (truthy (Parts.claimed_by row) = false) as ->.
  { apply filter_head in E as [Hrow Hm]. now destruct (Hfree row Hrow Hm) as (-> & _). }
  cbv zeta. do 2 eexists. split; [reflexivity|].
  cbn [PartRow.claimed_by snd db]. split; [now rewrite Hid|].
  unfold serve. rewrite (release_quiet env gen_id caller weekId n _ now' Hw Hn).
  set (d' := apply_write d1 _).
  assert (part_matches_claim : forall by_ nm at_ q,
            part_matches weekId n (claim_part by_ nm at_ q) = part_matches weekId n q)
    by reflexivity.
  assert (Sql.users_by_id caller d' <> []) as Hu'.
  { intros Hnone. assert (In u (Sql.users_by_id caller d')) as Hbad.
    { apply filter_In. split; [exact Hin|]. now apply eqb_eq. }
    rewrite Hnone in Hbad. destruct Hbad. }
  destruct (Sql.users_by_id caller d') as [|u' others'] eqn:Eu; [contradiction|].
  apply filter_head in Eu as [_ Eu]. apply eqb_eq in Eu.
  assert (Sql.parts_by_key weekId n d'
          = map (claim_part (Users.id u) (claimed_name_of profile u) now)
                (row :: rest)) as ->.
  { unfold Sql.parts_by_key, d'. cbn [apply_write parts]. rewrite Hpt.
    rewrite filter_update_where by apply part_matches_claim.
    fold (Sql.parts_by_key weekId n d). now rewrite E. }
  cbn [map claim_part Parts.claimed_by]. rewrite Hid, Eu. cbn [opt_eqb].
  rewrite eqb_refl. destruct caller as [|c0 r0]; [contradiction|].
  cbn [truthy negb orb]. cbv zeta. cbn [snd db].
  split; [|now repeat split].
  f_equal. unfold d'. cbn [apply_write users weeks parts]. rewrite Hpt.
  rewrite clear_after_claim; [|apply part_matches_claim|exact Hfree].
  rewrite <- Hpt. now destruct d1.
Qed.

(** X14. A released part has no residual lock. After its holder released
    it, a claim by any other user who has a row succeeds at once, and the
    part is then held by that user. *)
Theorem released_part_can_be_claimed (d : Db) (now now' : Z) (owner other weekId : jsstring)
    (n : jsnumber) (uo uv : Users.row) (oo ov : list Users.row)
    (row : Parts.row) (rest : list Parts.row) :
  weekId <> [] -> isNaN n = false -> owner <> [] -> other <> [] ->
  Sql.users_by_id owner d = uo :: oo ->
  Sql.users_by_id other d = uv :: ov ->
  Sql.parts_by_key weekId n d = row :: rest ->
  Parts.claimed_by row = Some owner ->
  exists d' d'' nm,
    serve env gen_id now d (ReleasePart owner weekId n)
    = (Ok (json (PartBody (PartRow.mk n None None None))), d')
    /\ serve env gen_id now' d' (ClaimPart other weekId n Profile.none)
       = (Ok (json (PartBody (PartRow.mk n (Some other) nm (Some (Users.is_admin uv))))),
          d'')
    /\ nm = or_null (Users.name uv)
    /\ users d'' = users d /\ weeks d'' = weeks d
    /\ parts d'' = update_where (part_matches weekId n) (claim_part other nm now') (parts d)
    /\ (forall p, In p (parts d'') -> part_matches weekId n p = true ->
                  Parts.claimed_by p = Some other).
Proof.
  intros Hw Hn Howner Hother Huo Huv Hrow Hby.
  assert (Users.id uo = owner) as Hido
    by (apply filter_head in Huo as [_ H]; now apply eqb_eq).
  assert (Users.id uv = other) as Hidv
    by (apply filter_head in Huv as [_ H]; now apply eqb_eq).
  unfold serve at 1. rewrite (release_quiet env gen_id owner weekId n d now Hw Hn).
  rewrite Huo, Hrow, Hby, Hido. cbn [opt_eqb]. rewrite eqb_refl.
  destruct owner as [|c0 r0]; [contradiction|]. cbn [truthy negb orb]. cbv zeta.
  cbn [snd db]. set (d' := apply_write d _).
  assert (Sql.users_by_id other d' = uv :: ov) as Huv' by exact Huv.
  assert (part_matches_clear : forall q,
            part_matches weekId n (clear_part q) = part_matches weekId n q)
    by reflexivity.
  assert (Sql.parts_by_key weekId n d' = map clear_part (row :: rest)) as Hrows.
  { unfold Sql.parts_by_key, d'. cbn [apply_write parts].
    rewrite filter_update_where by apply part_matches_clear.
    fold (Sql.parts_by_key weekId n d). now rewrite Hrow. }
  exists d'. unfold serve.
  rewrite (claim_quiet env gen_id other weekId n Profile.none d' now' _ d' Hw Hn
             (resolve_caller_none other d' now' uv ov Huv')).
  rewrite Hrows. cbn [map clear_part Parts.claimed_by truthy]. cbv zeta.
  do 2 eexists. split; [reflexivity|]. rewrite Hidv. split; [reflexivity|].
  unfold claimed_name_of. cbn [Profile.name Profile.none option_map].
  split; [reflexivity|]. cbn [snd db apply_write users weeks parts d'].
  split; [reflexivity|]. split; [reflexivity|].
  split; [apply claim_after_clear, part_matches_clear|].
  intros p Hp Hm. apply update_where_In in Hp as [q [Hq ->]].
  destruct (part_matches weekId n q) eqn:Eq; [reflexivity|].
  apply update_where_In in Hq as [q0 [_ ->]].
  destruct (part_matches weekId n q0) eqn:Eq0; congruence.
Qed.

End Holding.

(* ================================================================== *)
(** ** The login form and the server *)
(* ================================================================== *)

Lemma drop_space_idem (s : jsstring) : drop_space (drop_space s) = drop_space s.
Proof.
  induction s as [|c r IH]; cbn; [reflexivity|].
  destruct (is_space c) eqn:E; [exact IH|]. cbn. now rewrite E.
Qed.

Lemma drop_space_head (s : jsstring) c r :
  drop_space s = c :: r -> is_space c = false.
Proof.
  induction s as [|x s IH]; cbn; [discriminate|].
  destruct (is_space x) eqn:E; [exact IH|]. intros H. injection H as <- _. exact E.
Qed.

Lemma drop_space_split (s : jsstring) :
  exists pre, s = pre ++ drop_space s.
Proof.
  induction s as [|x s [pre IH]]; cbn; [now exists []|].
  destruct (is_space x); [|now exists []].
  exists (x :: pre). cbn. now rewrite <- IH.
Qed.

Lemma drop_space_fixed (s : jsstring) c r :
  s = c :: r -> is_space c = false -> drop_space s = s.
Proof. intros -> H. cbn. now rewrite H. Qed.

Lemma trim_idem (s : jsstring) : trim (trim s) = trim s.
Proof.
  unfold trim. set (a := drop_space s). set (b := drop_space (rev a)).
  assert (drop_space b = b) as Hb by apply drop_space_idem.
  assert (drop_space (rev b) = rev b) as Hrb.
  { destruct (rev b) as [|c r] eqn:E; [reflexivity|].
    apply (drop_space_fixed _ c r eq_refl).
    destruct (drop_space_split (rev a)) as [pre Hpre]. fold b in Hpre.
    assert (a = rev b ++ rev pre) as Ha
      by (rewrite <- rev_app_distr, <- Hpre; now rewrite rev_involutive).
    rewrite E in Ha. cbn in Ha. now apply (drop_space_head s c (r ++ rev pre)). }
  rewrite Hrb, rev_involutive, Hb. reflexivity.
Qed.

Lemma digit_is_no_space c : LoginForm.is_digit c = true -> is_space c = false.
Proof.
  unfold LoginForm.is_digit, is_space. intros H. apply andb_true_iff in H as [H1 H2].
  apply N.leb_le in H1, H2.
  repeat match goal with
         | |- (_ || _)%bool = false => apply orb_false_iff; split
         | |- (_ && _)%bool = false => apply andb_false_iff
         end;
    try (left; apply Z.leb_gt; lia); try (right; apply Z.leb_gt; lia);
    try (apply Z.eqb_neq; lia).
Qed.

Lemma accepted_phone_is_normalized (s : jsstring) :
  LoginForm.phoneRegex_test s = true -> is_normalized_phone s = true.
Proof.
  destruct s as [|c ds]; [discriminate|]. unfold LoginForm.phoneRegex_test.
  intros H. apply andb_true_iff in H as [H _]. apply andb_true_iff in H as [H _].
  apply andb_true_iff in H as [Hc Hd].
  unfold is_normalized_phone. cbn [starts_with_plus forallb]. rewrite Hc. cbn [andb].
  apply N.eqb_eq in Hc. subst c. rewrite plus_is_no_space. cbn [negb andb].
  apply forallb_forall. intros x Hx. rewrite forallb_forall in Hd.
  now rewrite (digit_is_no_space x (Hd x Hx)).
Qed.

Section FormAndServer.

Variable env : Env.
Variable gen_id : list jsstring -> jsstring.

Hypothesis gen_id_fresh : forall l, ~ In (gen_id l) l.
Hypothesis gen_id_not_empty : forall l, gen_id l <> [].

(** X15. What the login form sends is what the server stores. When
    [submit] posts a name and a phone, the name is not empty and already
    trimmed and the phone is already in the server's normal form; on a
    well-formed users table the login answers 200 and the stored row has
    exactly this name and this phone, for a new user and for a known
    one. The profile sync the app sends after the login, with the profile
    the form saved, then changes nothing and returns a token for the same
    session. *)
Theorem form_login_is_stored_verbatim (d : Db) (now : Z)
    (name phone key nm ph : jsstring) :
  users_ok d ->
  LoginForm.submit name phone = LoginForm.Posted nm ph ->
  nm <> [] /\ trim nm = nm /\ normalizePhone (Some ph) = Some ph
  /\ exists u d',
       serve env gen_id now d (Login (Some nm) (Some ph) key)
       = (Ok (json (LoginBody (mkToken (session_of u) now) (session_of u))), d')
       /\ Users.name u = Some nm /\ Users.phone u = Some ph
       /\ forall now',
            serve env gen_id now' d' (PostProfile (Users.id u) (LoginForm.profile nm ph))
            = (Ok (json (ProfileBody (mkToken (session_of u) now') (session_of u))), d').
Proof.
  intros Hd Hsub. unfold LoginForm.submit in Hsub.
  destruct (negb (truthy (Some (trim name)))) eqn:Tn; [discriminate|].
  destruct (negb (LoginForm.phoneRegex_test (LoginForm.normalizedPhone phone))) eqn:Tp;
    [discriminate|].
  injection Hsub as <- <-.
  set (nm := trim name) in *. set (ph := LoginForm.normalizedPhone phone) in *.
  apply negb_false_iff in Tn, Tp.
  assert (nm <> []) as Hnm by (intros E; rewrite E in Tn; discriminate).
  assert (trim nm = nm) as Htrim by apply trim_idem.
  pose proof (accepted_phone_is_normalized ph Tp) as Hnorm.
  pose proof (normalizePhone_fixed ph Hnorm) as Hph.
  assert (ph <> []) as Hphne by (intros E; rewrite E in Tp; discriminate).
  split; [exact Hnm|]. split; [exact Htrim|]. split; [exact Hph|].
  assert (or_null (Some (trim nm)) = Some nm) as Hname.
  { rewrite Htrim. unfold or_null, or_else. now rewrite Tn. }
  assert (forall x, or_else (Some nm) x = Some nm) as Hor
    by (intros x; unfold or_else; now rewrite Tn).
  assert (exists u d',
            serve env gen_id now d (Login (Some nm) (Some ph) key)
            = (Ok (json (LoginBody (mkToken (session_of u) now) (session_of u))), d')
            /\ In u (users d')
            /\ Users.name u = Some nm /\ Users.phone u = Some ph
            /\ computeAdminFlag env (Some nm) (Some ph) (Users.is_admin u)
               = Users.is_admin u) as (u & d' & Hrun & Hin & Hun & Hup & Hadm).
  { destruct (Sql.users_by_phone ph d) as [|current rest] eqn:E.
    - rewrite (login_new env gen_id nm ph key d now ph) by assumption.
      rewrite Hname. do 2 eexists. split; [reflexivity|].
      cbn [users Users.name Users.phone Users.is_admin].
      split; [apply in_or_app; right; now left|]. split; [reflexivity|].
      split; [reflexivity|apply computeAdminFlag_idem].
    - rewrite (login_known env gen_id nm ph key d now ph current rest) by assumption.
      rewrite Hname, Hor. do 2 eexists. split; [reflexivity|].
      cbn [users Users.name Users.phone Users.is_admin].
      split; [|split; [reflexivity|split; [reflexivity|apply computeAdminFlag_idem]]].
      apply filter_head in E as [Hin _].
      apply in_map_iff. exists current. now rewrite eqb_refl. }
  exists u, d'. split; [exact Hrun|]. split; [exact Hun|]. split; [exact Hup|].
  intros now'.
  assert (users_ok d') as Hd'.
  { replace d' with (snd (serve env gen_id now d (Login (Some nm) (Some ph) key)))
      by now rewrite Hrun.
    now apply serve_users_ok. }
  destruct Hd' as (Hnd & Hf & Hu).
  unfold serve. rewrite profile_quiet.
  assert (Sql.users_by_id (Users.id u) d' = [u]) as ->
    by (unfold Sql.users_by_id; now apply filter_unique_id).
  cbv zeta. unfold LoginForm.profile. cbn [Profile.name Profile.phone option_map].
  rewrite Htrim, Hor.
  assert (or_else (Some ph) (Users.phone u) = Some ph) as ->.
  { unfold or_else. destruct ph; [contradiction|reflexivity]. }
  rewrite Hph, Hadm.
  rewrite (update_user_unique (Users.id u) (Some nm) (Some ph) (Users.is_admin u) d' u
             Hnd Hin eq_refl).
  2:{ apply own_phone_free; assumption. }
  assert (Users.mk (Users.id u) (Users.firebase_uid u) (Some nm) (Some ph)
            (Users.is_admin u) = u) as ->.
  { destruct u as [i f n0 p0 a0]. cbn in *. now subst. }
  cbn [db idle]. f_equal.
  rewrite map_unchanged; [now destruct d'|].
  intros v Hv. destruct (eqb (Users.id v) (Users.id u)) eqn:Ev; [|reflexivity].
  apply eqb_eq in Ev. symmetry. now apply (NoDup_map_same Users.id (users d')).
Qed.

End FormAndServer.

(* ================================================================== *)
(** ** The board and the server *)
(* ================================================================== *)

Lemma num_strict_eq_of_Z a b :
  Board.num_strict_eq (of_Z a) (of_Z b) = Z.eqb a b.
Proof.
  unfold Board.num_strict_eq, of_Z, Qeq_bool, inject_Z. simpl.
  now rewrite !Z.mul_1_r.
Qed.

Lemma num_strict_eq_self a b :
  Board.num_strict_eq a b = true -> Board.num_strict_eq b b = true.
Proof.
  destruct a as [|s|p], b as [|t|q]; cbn; try discriminate; intros _.
  - apply Bool.eqb_reflx.
  - apply Qeq_bool_iff, Qeq_refl.
Qed.

Lemma spread_received row payload :
  Board.spread row (Board.received payload) = Board.received payload.
Proof. reflexivity. Qed.

Lemma flat_map_ext_in' {A B} (f g : A -> list B) (l : list A) :
  (forall a, In a l -> f a = g a) -> flat_map f l = flat_map g l.
Proof.
  induction l as [|x l IH]; intros H; cbn; [reflexivity|].
  rewrite (H x (or_introl eq_refl)). f_equal. apply IH.
  intros a Ha. apply H. now right.
Qed.

Lemma map_flat_map {A B C} (h : B -> C) (f : A -> list B) (l : list A) :
  map h (flat_map f l) = flat_map (fun a => map h (f a)) l.
Proof.
  induction l as [|x l IH]; cbn; [reflexivity|]. now rewrite map_app, IH.
Qed.

Lemma flat_map_map {A B C} (g : A -> B) (f : B -> list C) (l : list A) :
  flat_map f (map g l) = flat_map (fun a => f (g a)) l.
Proof.
  induction l as [|x l IH]; cbn; [reflexivity|]. now rewrite IH.
Qed.

Lemma filter_map_same {A} (P : A -> bool) (g : A -> A) (l : list A) :
  (forall a, P (g a) = P a) -> filter P (map g l) = map g (filter P l).
Proof.
  intros H. induction l as [|x l IH]; cbn; [reflexivity|].
  rewrite H. destruct (P x); cbn; now rewrite IH.
Qed.

Lemma insert_by_number_map (g : Parts.row -> Parts.row) p l :
  (forall a, Parts.number (g a) = Parts.number a) ->
  Sql.insert_by_number (g p) (map g l) = map g (Sql.insert_by_number p l).
Proof.
  intros H. induction l as [|q l IH]; cbn; [reflexivity|].
  rewrite !H. destruct (Parts.number p <=? Parts.number q); cbn; [reflexivity|].
  now rewrite IH.
Qed.

Lemma order_by_number_map (g : Parts.row -> Parts.row) l :
  (forall a, Parts.number (g a) = Parts.number a) ->
  Sql.order_by_number (map g l) = map g (Sql.order_by_number l).
Proof.
  intros H. induction l as [|p l IH]; [reflexivity|].
  change (Sql.order_by_number (map g (p :: l)))
    with (Sql.insert_by_number (g p) (Sql.order_by_number (map g l))).
  rewrite IH. now apply insert_by_number_map.
Qed.

(** The join reads the users' ids and flags and nothing else. *)
Lemma left_join_users_flags d d' p :
  map (fun v => (Users.id v, Users.is_admin v)) (users d')
  = map (fun v => (Users.id v, Users.is_admin v)) (users d) ->
  Sql.left_join_users d' p = Sql.left_join_users d p.
Proof.
  intros H. unfold Sql.left_join_users.
  set (P := fun u => opt_eqb (Some (Users.id u)) (Parts.claimed_by p)).
  set (out := fun adm => PartRow.mk (of_Z (Parts.number p)) (Parts.claimed_by p)
                           (Parts.claimed_name p) adm).
  assert (map Users.is_admin (filter P (users d'))
          = map Users.is_admin (filter P (users d))) as E.
  { revert H. generalize (users d'). generalize (users d).
    induction l as [|x l IH]; intros l' H.
    - destruct l'; [reflexivity|discriminate].
    - destruct l' as [|y l']; [discriminate|].
      cbn [map] in H. injection H as Hid Hadm Hrest. cbn [filter].
      assert (P y = P x) as -> by (unfold P; now rewrite Hid).
      destruct (P x); cbn [map]; [rewrite Hadm; f_equal|]; now apply IH. }
  destruct (filter P (users d')) as [|a' r'], (filter P (users d)) as [|a r];
    try (cbn in E; discriminate); [reflexivity|].
  rewrite <- (map_map Users.is_admin (fun a => out (Some a)) (a' :: r')).
  rewrite <- (map_map Users.is_admin (fun a => out (Some a)) (a :: r)).
  now rewrite E.
Qed.

(** A snapshot after an update of the parts of one number, seen from the
    board: the rows of that number are the payload, the others are as
    they were. *)
Lemma snapshot_after_update d d' (weekId : jsstring) z f payload :
  NoDup (map Users.id (users d)) ->
  map (fun v => (Users.id v, Users.is_admin v)) (users d')
  = map (fun v => (Users.id v, Users.is_admin v)) (users d) ->
  parts d' = update_where (part_matches weekId (of_Z z)) f (parts d) ->
  (forall p, Parts.week_id (f p) = Parts.week_id p
             /\ Parts.number (f p) = Parts.number p) ->
  PartRow.number payload = of_Z z ->
  (forall p, part_matches weekId (of_Z z) p = true ->
             Sql.left_join_users d' (f p) = [payload]) ->
  map Board.received (Sql.parts_of_week weekId d')
  = Board.part_update (Board.received payload)
      (map Board.received (Sql.parts_of_week weekId d)).
Proof.
  intros Hnd Hflags Hparts Hf Hnum Hpay.
  set (g := fun p => if part_matches weekId (of_Z z) p then f p else p).
  assert (forall a, in_week weekId (g a) = in_week weekId a) as Hgw.
  { intros a. unfold g, in_week. destruct (part_matches _ _ a); [|reflexivity].
    now rewrite (proj1 (Hf a)). }
  assert (forall a, Parts.number (g a) = Parts.number a) as Hgn.
  { intros a. unfold g. destruct (part_matches _ _ a); [|reflexivity].
    apply (proj2 (Hf a)). }
  unfold Sql.parts_of_week, Board.part_update. rewrite Hparts.
  unfold update_where. fold g.
  rewrite (filter_map_same _ g _ Hgw), (order_by_number_map g _ Hgn), flat_map_map.
  rewrite map_map, !map_flat_map.
  apply flat_map_ext_in'. intros p Hp.
  apply (proj1 (order_by_number_In _ _)) in Hp. apply filter_In in Hp as [_ Hw].
  rewrite (left_join_users_one d p Hnd).
  cbn [map Board.received PartRow.number Board.number].
  rewrite Hnum, num_strict_eq_of_Z.
  assert (part_matches weekId (of_Z z) p = (Parts.number p =? z)) as Hm.
  { unfold part_matches, number_matches. unfold in_week in Hw.
    rewrite Hw, num_eqb_of_Z. cbn [andb]. apply Z.eqb_sym. }
  unfold g. rewrite Hm.
  destruct (Parts.number p =? z) eqn:E.
  - rewrite (Hpay p Hm). reflexivity.
  - rewrite (left_join_users_flags d d' p Hflags), (left_join_users_one d p Hnd).
    reflexivity.
Qed.

Lemma truthy_some (s : jsstring) : s <> [] -> truthy (Some s) = true.
Proof. destruct s; [contradiction|reflexivity]. Qed.

Section BoardAndServer.

Variable env : Env.
Variable gen_id : list jsstring -> jsstring.

(** X16. The live view equals a fresh snapshot. When a claim or a release
    of part [z] of a week answers 200, on a well-formed users table and
    with the admin flags of the users as they were, applying the broadcast
    payload to the snapshot of that week taken before the request, as the
    "part:update" handler of the board does, gives the snapshot of the week
    taken after it. *)
Theorem live_view_follows_store (d : Db) (now : Z) (r : Request)
    (caller weekId : jsstring) (z : Z) (payload : PartRow.t) (d' : Db) :
  users_ok d ->
  (r = ReleasePart caller weekId (of_Z z)
   \/ exists profile, r = ClaimPart caller weekId (of_Z z) profile) ->
  serve env gen_id now d r = (Ok (json (PartBody payload)), d') ->
  map (fun v => (Users.id v, Users.is_admin v)) (users d')
  = map (fun v => (Users.id v, Users.is_admin v)) (users d) ->
  map Board.received (Sql.parts_of_week weekId d')
  = Board.part_update (Board.received payload)
      (map Board.received (Sql.parts_of_week weekId d)).
Proof.
  intros (Hnd & _ & _) Hr Hrun Hflags.
  assert (NoDup (map Users.id (users d'))) as Hnd'.
  { replace (map Users.id (users d'))
      with (map fst (map (fun v => (Users.id v, Users.is_admin v)) (users d')))
      by (rewrite map_map; reflexivity).
    rewrite Hflags, map_map. exact Hnd. }
  assert (weekId <> []) as Hw.
  { intros ->. destruct Hr as [->|[profile ->]]; discriminate. }
  destruct Hr as [->|[profile ->]].
  - unfold serve in Hrun.
    rewrite (release_quiet env gen_id caller weekId (of_Z z) d now Hw eq_refl) in Hrun.
    destruct (Sql.users_by_id caller d) as [|u others]; [discriminate|].
    destruct (Sql.parts_by_key weekId (of_Z z) d) as [|row rest]; [discriminate|].
    destruct (_ || _); [discriminate|]. cbv zeta in Hrun.
    injection Hrun as <- <-.
    apply (snapshot_after_update d _ weekId z clear_part); try assumption.
    + reflexivity.
    + intros p. now split.
    + reflexivity.
    + intros p Hm. rewrite left_join_users_free by reflexivity.
      cbn [clear_part Parts.number Parts.claimed_name].
      unfold part_matches, number_matches in Hm. apply andb_true_iff in Hm as [_ Hm].
      rewrite num_eqb_of_Z in Hm. apply Z.eqb_eq in Hm. now subst.
  - destruct (resolve_caller_quiet env caller profile d [] now)
      as (o & d1 & Hres & Hwk & Hpt & _).
    unfold serve in Hrun.
    rewrite (claim_quiet env gen_id caller weekId (of_Z z) profile d now o d1 Hw eq_refl Hres)
      in Hrun.
    destruct o as [user|e]; [|discriminate].
    destruct (Sql.parts_by_key weekId (of_Z z) d1) as [|row rest]; [discriminate|].
    destruct (truthy (Parts.claimed_by row)); [discriminate|].
    destruct user as [u|]; [|discriminate]. cbv zeta in Hrun.
    injection Hrun as <- <-.
    pose proof (resolve_caller_stored env caller profile d now u d1 Hres) as Hin.
    apply (snapshot_after_update d _ weekId z
             (claim_part (Users.id u) (claimed_name_of profile u) now));
      try assumption.
    + cbn [apply_write parts]. now rewrite Hpt.
    + intros p. now split.
    + reflexivity.
    + intros p Hm. rewrite left_join_users_one by exact Hnd'.
      cbn [claim_part Parts.number Parts.claimed_by Parts.claimed_name].
      cbn [apply_write users] in Hnd' |- *.
      assert (Sql.users_by_id (Users.id u)
                (mkDb (users d1) (weeks d1)
                   (update_where (part_matches weekId (of_Z z))
                      (claim_part (Users.id u) (claimed_name_of profile u) now)
                      (parts d1))) = [u]) as ->.
      { unfold Sql.users_by_id. cbn [users]. now apply filter_unique_id. }
      cbn [hd_error option_map].
      unfold part_matches, number_matches in Hm. apply andb_true_iff in Hm as [_ Hm].
      rewrite num_eqb_of_Z in Hm. apply Z.eqb_eq in Hm. now subst.
Qed.

(** X17. The board's buttons and the server agree. On a view that shows
    the stored claimant of a part, for a signed-in user who has a row: a
    button that is not disabled sends a request the server answers with
    200 (a claim when the part is free, the holder's own release
    otherwise), as long as the profile sent along, if any, can be merged;
    a disabled button is one whose click would be refused with NOT_OWNER,
    the store untouched. *)
Theorem buttons_match_server (d : Db) (now : Z) (weekId userId : jsstring) (z : Z)
    (profile : option Profile.t) (u : Users.row) (others : list Users.row)
    (row : Parts.row) (rest : list Parts.row) (vp : Board.Part)
    (u1 : Users.row) (d1 : Db) :
  weekId <> [] -> userId <> [] ->
  Sql.users_by_id userId d = u :: others ->
  Sql.parts_by_key weekId (of_Z z) d = row :: rest ->
  Board.claimed_by vp = Parts.claimed_by row ->
  resolve_caller env userId
    (match profile with Some p => p | None => Profile.none end) (idle d now)
  = (Ok (Some u1), idle d1 now) ->
  exists r,
    Board.request_of userId (Board.toggle weekId userId profile (of_Z z) vp) = Some r
    /\ (Board.disabled userId vp = false -> succeeded (fst (serve env gen_id now d r)))
    /\ (Board.disabled userId vp = true ->
        serve env gen_id now d r = (Ok (fail 403 NOT_OWNER), d)).
Proof.
  intros Hw Hu Huser Hrow Hview Hres.
  assert (Users.id u = userId) as Hid
    by (apply filter_head in Huser as [_ H]; now apply eqb_eq).
  unfold Board.toggle, Board.disabled, Board.isMine, Board.isTaken.
  rewrite (truthy_some weekId Hw), (truthy_some userId Hu). cbn [negb]. rewrite Hview.
  destruct (truthy (Parts.claimed_by row)) eqn:T; cbn [negb andb].
  - eexists. split; [reflexivity|]. unfold serve.
    rewrite (release_quiet env gen_id userId weekId (of_Z z) d now Hw eq_refl).
    rewrite Huser, Hrow, T, Hid. cbn [negb orb].
    destruct (opt_eqb (Parts.claimed_by row) (Some userId)); cbn [negb andb].
    + split; [|discriminate]. intros _. cbv zeta. cbn [fst]. now eexists.
    + split; [discriminate|]. intros _. reflexivity.
  - eexists. split; [reflexivity|].
    split; [|discriminate]. intros _. unfold serve.
    rewrite (claim_quiet env gen_id userId weekId (of_Z z) _ d now _ d1 Hw eq_refl Hres).
    pose proof Hres as Hok. apply resolve_caller_ok in Hok as (_ & Hpt & _).
    assert (Sql.parts_by_key weekId (of_Z z) d1 = row :: rest) as ->
      by (unfold Sql.parts_by_key; rewrite Hpt; exact Hrow).
    rewrite T. cbv zeta. cbn [fst]. now eexists.
Qed.

(** X18. The "part:update" handler is local and idempotent: it changes
    only rows whose number is the payload's, keeps the number of rows, and
    an update delivered twice leaves the board as one delivery does. *)
Theorem part_update_is_idempotent (part : Board.Part) (prev : list Board.Part) :
  Board.part_update part (Board.part_update part prev) = Board.part_update part prev
  /\ List.length (Board.part_update part prev) = List.length prev
  /\ (forall e, In e prev ->
        Board.num_strict_eq (Board.number e) (Board.number part) = false ->
        In e (Board.part_update part prev))
  /\ (forall e', In e' (Board.part_update part prev) ->
        In e' prev \/ Board.claimed_by e' = Board.claimed_by part).
Proof.
  unfold Board.part_update. split; [|split; [|split]].
  - rewrite map_map. apply map_ext. intros e.
    destruct (Board.num_strict_eq (Board.number e) (Board.number part)) eqn:E.
    + cbn [Board.spread Board.number]. rewrite (num_strict_eq_self _ _ E).
      unfold Board.spread. cbn.
      destruct (Board.claimed_name part), (Board.claimed_is_admin part); reflexivity.
    + now rewrite E.
  - apply length_map.
  - intros e He Hn. apply in_map_iff. exists e. now rewrite Hn.
  - intros e' He'. apply in_map_iff in He' as [e [<- He]].
    destruct (Board.num_strict_eq (Board.number e) (Board.number part));
      [now right|now left].
Qed.

End BoardAndServer.

(* ================================================================== *)
(** ** The session token, from the browser to [verify] *)
(* ================================================================== *)

Lemma getItem_removeItem_same key l : Api.getItem key (Api.removeItem key l) = None.
Proof.
  unfold Api.getItem, Api.removeItem. induction l as [|[k v] l IH]; cbn; [reflexivity|].
  destruct (eqb k key) eqn:E; cbn; [exact IH|]. now rewrite E.
Qed.

Lemma getItem_removeItem_other key key' l :
  key' <> key -> Api.getItem key' (Api.removeItem key l) = Api.getItem key' l.
Proof.
  intros Hne. unfold Api.getItem, Api.removeItem.
  induction l as [|[k v] l IH]; cbn; [reflexivity|].
  destruct (eqb k key) eqn:E; cbn.
  - apply eqb_eq in E. subst k.
    assert (eqb key key' = false) as -> by (apply eqb_neq; congruence). exact IH.
  - destruct (eqb k key'); [reflexivity|exact IH].
Qed.

Lemma getItem_setItem_same key v l : Api.getItem key (Api.setItem key v l) = Some v.
Proof. unfold Api.getItem, Api.setItem. cbn. now rewrite eqb_refl. Qed.

Lemma getItem_setItem_other key key' v l :
  key' <> key -> Api.getItem key' (Api.setItem key v l) = Api.getItem key' l.
Proof.
  intros Hne. unfold Api.setItem.
  transitivity (Api.getItem key' (Api.removeItem key l));
    [|now apply getItem_removeItem_other].
  unfold Api.getItem at 1. cbn.
  assert (eqb key key' = false) as -> by (apply eqb_neq; congruence). reflexivity.
Qed.

(** X19. The session token in the browser's storage. With storage the
    page may use: a token that is not empty is read back as it was saved;
    saving null or the empty string removes it; [clearSession] removes the
    token, the user id and the admin mark; none of the three touches any
    other key, so the profile saved at login outlives a logout. With
    storage the page may not use, reading gives null and saving and
    clearing change nothing. *)
Theorem session_token_storage (s : Api.Storage) (token : jsstring) :
  (Api.usable s = true ->
     (token <> [] ->
        Api.getSessionToken (Api.setSessionToken (Some token) s) = Some token)
     /\ Api.getSessionToken (Api.setSessionToken None s) = None
     /\ Api.getSessionToken (Api.setSessionToken (Some []) s) = None
     /\ Api.getSessionToken (Api.clearSession s) = None
     /\ Api.getItem (str "khatma_myDbUserId") (Api.items (Api.clearSession s)) = None
     /\ Api.getItem (str "khatma_isAdmin") (Api.items (Api.clearSession s)) = None
     /\ Api.getItem (str "khatma_profile") (Api.items (Api.clearSession s))
        = Api.getItem (str "khatma_profile") (Api.items s)
     /\ (forall key t, key <> Api.TOKEN_KEY ->
           Api.getItem key (Api.items (Api.setSessionToken t s))
           = Api.getItem key (Api.items s)))
  /\ (Api.usable s = false ->
        Api.getSessionToken s = None
        /\ (forall t, Api.setSessionToken t s = s)
        /\ Api.clearSession s = s).
Proof.
  split.
  - intros Hu. unfold Api.getSessionToken, Api.clearSession, Api.setSessionToken.
    rewrite Hu. cbn [Api.usable Api.items].
    split; [|split; [|split; [|split; [|split; [|split; [|split]]]]]].
    + intros Ht. destruct token as [|c r]; [contradiction|].
      cbn [Api.usable Api.items]. apply getItem_setItem_same.
    + apply getItem_removeItem_same.
    + apply getItem_removeItem_same.
    + rewrite !getItem_removeItem_other by discriminate. apply getItem_removeItem_same.
    + rewrite getItem_removeItem_other by discriminate. apply getItem_removeItem_same.
    + apply getItem_removeItem_same.
    + now rewrite !getItem_removeItem_other by discriminate.
    + intros key t Hne. destruct t as [[|c r]|]; cbn [Api.items].
      * now apply getItem_removeItem_other.
      * now apply getItem_setItem_other.
      * now apply getItem_removeItem_other.
  - intros Hu. unfold Api.getSessionToken, Api.clearSession, Api.setSessionToken.
    rewrite Hu. repeat split. cbv zeta. now rewrite Hu.
Qed.

Lemma header_spread_last name v (h : Api.Headers) :
  Api.header name (Api.spread h [(name, v)]) = Some v.
Proof.
  unfold Api.spread, Api.header, Api.getItem. cbn [fold_left fst].
  destruct (existsb (fun x => eqb (fst x) name) h) eqn:E.
  - induction h as [|[k w] h IH]; cbn in *; [discriminate|].
    destruct (eqb k name) eqn:Ek; cbn.
    + now rewrite eqb_refl.
    + rewrite Ek. now apply IH.
  - induction h as [|[k w] h IH]; cbn in *; [now rewrite eqb_refl|].
    apply orb_false_iff in E as [Ek E]. rewrite Ek. now apply IH.
Qed.

Lemma starts_with_app (p s : jsstring) : Api.starts_with p (p ++ s) = true.
Proof.
  induction p as [|c p IH]; cbn; [reflexivity|]. now rewrite N.eqb_refl.
Qed.

Section TokenRoundTrip.

Variable jwt_verify : jsstring -> Outcome SessionPayload.

(** X20. From storage to [verify]. The Authorization header [authed]
    builds from a stored token is "Bearer " followed by the token, whatever
    headers the caller passed, and [verify] hands exactly that token to
    [jwt.verify]: the request goes on with the session it decodes, and is
    answered 401 BAD_TOKEN when it throws. A request with no Authorization
    header, or with one that does not start with "Bearer ", is answered
    401 NO_TOKEN, whatever [jwt.verify] would say. *)
Theorem stored_token_reaches_verify (s : Api.Storage) (init : option Api.Headers)
    (token : jsstring) :
  Api.getSessionToken s = Some token -> token <> [] ->
  Api.header (str "Authorization") (Api.authed_headers init s)
  = Some (Api.Bearer ++ token)
  /\ Api.verify jwt_verify (Api.header (str "Authorization") (Api.authed_headers init s))
     = match jwt_verify token with
       | Ok session => Api.Next session
       | Throw _ => Api.Refused 401 "BAD_TOKEN"
       end
  /\ Api.verify jwt_verify None = Api.Refused 401 "NO_TOKEN"
  /\ (forall h : jsstring,
        Api.starts_with Api.Bearer h = false ->
        Api.verify jwt_verify (Some h) = Api.Refused 401 "NO_TOKEN").
Proof.
  intros Hget Hne.
  assert (Api.header (str "Authorization") (Api.authed_headers init s)
          = Some (Api.Bearer ++ token)) as Hh.
  { unfold Api.authed_headers. rewrite Hget.
    destruct token as [|c r]; [contradiction|]. apply header_spread_last. }
  split; [exact Hh|]. split; [|split].
  - rewrite Hh. unfold Api.verify.
    change (or_else (Some (Api.Bearer ++ token)) (Some []))
      with (Some (Api.Bearer ++ token)).
    cbv beta iota zeta. rewrite starts_with_app. cbn [negb].
    change (skipn 7 (Api.Bearer ++ token)) with token. reflexivity.
  - reflexivity.
  - intros h Hs. unfold Api.verify.
    assert (match or_else (Some h) (Some []) with Some x => x | None => [] end = h) as ->
      by (destruct h; reflexivity).
    now rewrite Hs.
Qed.

End TokenRoundTrip.

(* ================================================================== *)
(** ** The board after a reset *)
(* ================================================================== *)

Lemma reservedCount_none (parts : list Board.Part) :
  (forall p, In p parts -> Board.claimed_by p = None) ->
  Board.reservedCount parts = 0.
Proof.
  intros H. unfold Board.reservedCount. generalize 0. revert H.
  induction parts as [|p parts IH]; intros H acc; cbn [fold_left]; [reflexivity|].
  rewrite (H p (or_introl eq_refl)). cbn [truthy]. apply IH.
  intros q Hq. apply H. now right.
Qed.

(** Whatever the log did before, after the bulk clear of a week its
    snapshot shows no claimant. *)
Lemma snapshot_after_clear (id : jsstring) us ws ps row :
  In row (Sql.parts_of_week id (mkDb us ws (update_where (in_week id) clear_part ps))) ->
  PartRow.claimed_by row = None.
Proof.
  intros H. apply parts_of_week_row in H as (p & Hp & Hw & Hby & _).
  cbn [parts] in Hp. apply update_where_In in Hp as [q [_ ->]].
  rewrite Hby. destruct (in_week id q) eqn:E; [reflexivity|].
  congruence.
Qed.

Section BoardReset.

Variable env : Env.
Variable gen_id : list jsstring -> jsstring.

(** X21. A reset empties the boards of its week and of no other. When a
    reset answers 200 with the week [id] and its rows, the rows are the
    snapshot of the week after the reset; a board that loaded this week
    replaces its parts by them and counts 0 reserved parts; a board that
    loaded another week keeps what it shows. *)
Theorem reset_empties_the_board (d : Db) (now : Z) (caller weekKey : jsstring)
    (profile : Profile.t) (id : jsstring) (rows : list PartRow.t) (d' : Db) :
  serve env gen_id now d (ResetWeek caller weekKey profile)
  = (Ok (json (ResetBody id rows)), d') ->
  rows = Sql.parts_of_week id d'
  /\ (forall prev,
        Board.week_reset id id (map Board.received rows) prev = map Board.received rows
        /\ Board.reservedCount
             (Board.week_reset id id (map Board.received rows) prev) = 0)
  /\ (forall other prev,
        other <> id ->
        Board.week_reset other id (map Board.received rows) prev = prev).
Proof.
  intros Hrun.
  assert (weekKey <> []) as Hw by (intros ->; discriminate).
  destruct (resolve_caller_quiet env caller profile d [] now)
    as (o & d1 & Hres & _).
  unfold serve in Hrun.
  rewrite (reset_quiet env gen_id caller weekKey profile d now o d1 Hw Hres) in Hrun.
  destruct o as [[u|]|e]; try discriminate.
  destruct (negb (Users.is_admin u)); [discriminate|]. cbv zeta in Hrun.
  assert (rows = Sql.parts_of_week id d'
          /\ forall row, In row rows -> PartRow.claimed_by row = None) as [Hrows Hfree].
  { destruct (Sql.weeks_by_key weekKey d1) as [|k ks];
      injection Hrun as <- <- <-; (split; [reflexivity|]);
      cbn [fold_left apply_write users weeks parts];
      intros row; apply snapshot_after_clear. }
  split; [exact Hrows|]. split.
  - intros prev. unfold Board.week_reset. rewrite eqb_refl. split; [reflexivity|].
    apply reservedCount_none. intros p Hp. apply in_map_iff in Hp as [row [<- Hrow]].
    cbn [Board.received Board.claimed_by]. now apply Hfree.
  - intros other prev Hne. unfold Board.week_reset.
    assert (eqb id other = false) as -> by (apply eqb_neq; congruence). reflexivity.
Qed.

End BoardReset.

(* ================================================================== *)
(** ** The earlier build: users made on first use *)
(* ================================================================== *)

Lemma filter_unique_uid (l : list Users.row) u :
  NoDup (map Users.firebase_uid l) -> In u l ->
  filter (fun v => eqb (Users.firebase_uid v) (Users.firebase_uid u)) l = [u].
Proof.
  induction l as [|x l IH]; intros Hnd Hin; [destruct Hin|].
  cbn in Hnd. inversion Hnd as [|? ? Hx Hl]; subst. cbn [filter].
  destruct Hin as [->|Hin].
  - rewrite eqb_refl. f_equal. apply filter_none. intros v Hv.
    apply eqb_neq. intros E. apply Hx. rewrite <- E. now apply in_map.
  - destruct (eqb (Users.firebase_uid x) (Users.firebase_uid u)) eqn:E.
    + apply eqb_eq in E. exfalso. apply Hx. rewrite E. now apply in_map.
    + now apply IH.
Qed.

Section LegacyUsers.

Variable ADMIN_UIDS : option jsstring.
Variable gen_id : list jsstring -> jsstring.
Variable refused : Users.row -> Db -> bool.

Hypothesis gen_id_fresh : forall l, ~ In (gen_id l) l.

(** X22. [ensureUser] of the earlier build is get-or-create by uid and
    never erases. On a table with distinct ids and distinct uids, and
    when no other constraint refuses the row: an unseen uid adds one row,
    with a new id, the trimmed name and phone (null when absent or blank)
    and the admin flag of a uid listed in ADMIN_UIDS; a known uid keeps
    its id, takes the name and the phone sent unless they are absent or
    blank, and stays an admin if it was one or if the uid is listed. Ids
    and uids stay distinct, weeks and parts are untouched. *)
Theorem legacy_ensureUser_spec (d : Db) (now : Z) (uid : jsstring) (profile : Profile.t) :
  NoDup (map Users.id (users d)) ->
  NoDup (map Users.firebase_uid (users d)) ->
  let name := or_null (option_map trim (Profile.name profile)) in
  let phone := or_null (option_map trim (Profile.phone profile)) in
  let listed := existsb (eqb uid) (Legacy.adminUids ADMIN_UIDS) in
  let result := Legacy.ensureUser ADMIN_UIDS gen_id refused uid profile (idle d now) in
  (forall u, (forall v, In v (users d) -> Users.firebase_uid v <> uid) ->
     u = Users.mk (gen_id (map Users.id (users d))) uid name phone listed ->
     refused u d = false ->
     result = (Ok (Some u), idle (mkDb (users d ++ [u]) (weeks d) (parts d)) now))
  /\ (forall old u,
        In old (users d) -> Users.firebase_uid old = uid ->
        u = Users.mk (Users.id old) uid
              (Legacy.coalesce name (Users.name old))
              (Legacy.coalesce phone (Users.phone old))
              (Users.is_admin old || listed) ->
        refused u d = false ->
        result =
        (Ok (Some u),
         idle (mkDb (map (fun v => if eqb (Users.firebase_uid v) uid then u else v)
                          (users d))
                    (weeks d) (parts d)) now)
        /\ (name = None -> Users.name u = Users.name old)
        /\ (phone = None -> Users.phone u = Users.phone old)
        /\ (Users.is_admin old = true -> Users.is_admin u = true))
  /\ (forall u w, result = (Ok (Some u), w) ->
        tx w = [] /\ weeks (db w) = weeks d /\ parts (db w) = parts d
        /\ NoDup (map Users.id (users (db w)))
        /\ NoDup (map Users.firebase_uid (users (db w)))
        /\ In u (users (db w)) /\ Users.firebase_uid u = uid).
Proof.
  intros Hid Huid. cbv zeta.
  unfold Legacy.ensureUser, idle. unfold bind. rewrite pool_query_quiet.
  unfold Legacy.upsert_user.
  set (name := or_null (option_map trim (Profile.name profile))).
  set (phone := or_null (option_map trim (Profile.phone profile))).
  set (listed := existsb (eqb uid) (Legacy.adminUids ADMIN_UIDS)).
  split; [|split].
  - intros u Hnew -> Href.
    assert (existsb (fun v => eqb (Users.firebase_uid v) uid) (users d) = false) as ->.
    { destruct (existsb _ (users d)) eqn:E; [|reflexivity].
      apply existsb_exists in E as [v [Hv E]]. apply eqb_eq in E.
      now apply Hnew in Hv. }
    now rewrite Href.
  - intros old u Hold Hu -> Href.
    assert (existsb (fun v => eqb (Users.firebase_uid v) uid) (users d) = true) as ->.
    { apply existsb_exists. exists old. split; [exact Hold|]. now apply eqb_eq. }
    subst uid. rewrite (filter_unique_uid _ _ Huid Hold). cbn [existsb map hd_error].
    rewrite Href. cbn [orb].
    split; [|split; [|split]].
    + unfold ret, idle. cbn [hd_error]. f_equal. f_equal. f_equal.
      apply map_ext_in. intros v Hv.
      destruct (eqb (Users.firebase_uid v) (Users.firebase_uid old)) eqn:E;
        [|reflexivity].
      apply eqb_eq in E.
      now rewrite (NoDup_map_same Users.firebase_uid (users d) v old Huid Hv Hold E).
    + intros ->. reflexivity.
    + intros ->. reflexivity.
    + intros ->. reflexivity.
  - intros u w.
    destruct (existsb (fun v => eqb (Users.firebase_uid v) uid) (users d)) eqn:E.
    + destruct (existsb _ (filter _ (users d))); [discriminate|].
      apply existsb_exists in E as [old [Hold E]]. apply eqb_eq in E. subst uid.
      rewrite (filter_unique_uid _ _ Huid Hold). unfold ret. cbn [map hd_error].
      intros H. injection H as <- <-. cbn [tx db users weeks parts].
      split; [reflexivity|]. split; [reflexivity|]. split; [reflexivity|].
      split; [|split; [|split]].
      * rewrite map_map. erewrite map_ext; [exact Hid|].
        intros v. now destruct (eqb (Users.firebase_uid v) (Users.firebase_uid old)).
      * rewrite map_map. erewrite map_ext; [exact Huid|].
        intros v. now destruct (eqb (Users.firebase_uid v) (Users.firebase_uid old)).
      * apply in_map_iff. exists old. now rewrite eqb_refl.
      * reflexivity.
    + destruct (refused _ d); [discriminate|]. unfold ret. cbn [hd_error].
      intros H. injection H as <- <-. cbn [tx db users weeks parts].
      split; [reflexivity|]. split; [reflexivity|]. split; [reflexivity|].
      split; [|split; [|split]].
      * rewrite map_app. cbn [map Users.id].
        apply NoDup_app; [exact Hid|repeat constructor; intros []|].
        intros x Hx [<-|[]]. now apply (gen_id_fresh (map Users.id (users d))).
      * rewrite map_app. cbn [map Users.firebase_uid].
        apply NoDup_app; [exact Huid|repeat constructor; intros []|].
        intros x Hx [<-|[]]. apply in_map_iff in Hx as [v [Hv Hin]].
        assert (existsb (fun v0 => eqb (Users.firebase_uid v0) uid) (users d) = true)
          as T by (apply existsb_exists; exists v; split; [exact Hin|now apply eqb_eq]).
        congruence.
      * apply in_or_app. right. now left.
      * reflexivity.
Qed.

End LegacyUsers.

(* ================================================================== *)
(** ** What a failed request has changed *)
(* ================================================================== *)

Section AllOrNothing.

Variable env : Env.
Variable gen_id : list jsstring -> jsstring.
Variable d0 : Db.

Lemma untouched_any L w : during d0 L w -> untouched d0 w.
Proof. intros (Hc & Hw & Hp & _). now repeat split. Qed.

Lemma ROLLBACK_untouched :
  hoare (untouched d0) ROLLBACK (fun _ => untouched d0) (untouched d0).
Proof.
  intros w (Hc & Hw & Hp & _). unfold ROLLBACK, hazard.
  destruct (sched w) as [|[|f|] s] eqn:E; cbn.
  - unfold untouched, during. cbn. rewrite E. now repeat split.
  - apply calm_tail in Hc. unfold untouched, during. cbn. now repeat split.
  - now apply calm_concurrent in Hc.
  - apply calm_tail in Hc. unfold untouched, during. cbn. now repeat split.
Qed.

Lemma rollback_respond_untouched (r : Response) :
  hoare (untouched d0) (ROLLBACK ;; ret r) (answered_or_untouched d0) (untouched d0).
Proof.
  eapply hoare_bind; [apply ROLLBACK_untouched|]. intros done w H. now right.
Qed.

(** From the COMMIT on nothing can fail: the response is the success. *)
Lemma commit_then_respond (m : M Response) :
  (forall w, exists b w', m w = (Ok (json b), w')) ->
  hoare (untouched d0) (COMMIT ;; m) (answered_or_untouched d0) (untouched d0).
Proof.
  intros Hm w (Hc & Hw & Hp & _). unfold COMMIT, bind, hazard.
  destruct (sched w) as [|[|f|] s] eqn:E; cbn.
  - match goal with |- context [m ?x] => destruct (Hm x) as (b & w' & ->) end.
    left. now exists b.
  - match goal with |- context [m ?x] => destruct (Hm x) as (b & w' & ->) end.
    left. now exists b.
  - now apply calm_concurrent in Hc.
  - apply calm_tail in Hc. unfold untouched, during. cbn. now repeat split.
Qed.

Lemma post_claim_all_or_nothing caller weekId n profile :
  hoare (untouched d0) (post_claim env caller weekId n profile)
        (answered_or_untouched d0) (untouched d0).
Proof.
  unfold post_claim.
  destruct (_ || _); [intros w H; now right|].
  apply hoare_try_catch with (X := untouched d0);
    [|intros e; apply rollback_respond_untouched].
  eapply hoare_bind; [apply resolve_caller_during; auto|]. intros user.
  eapply hoare_bind; [apply BEGIN_during; auto|]. intros done.
  eapply hoare_bind; [apply client_select_during; auto|].
  intros [|row rest]; [apply rollback_respond_untouched|].
  destruct (truthy _); [apply rollback_respond_untouched|].
  destruct user as [u|]; [|intros w H; exact H].
  cbn [field]. unfold bind at 1 2 3. unfold ret at 1 2. unfold now at 1.
  intros w H.
  assert (hoare (untouched d0)
            (client_write (UpdateClaim weekId n (Users.id u)
                             (or_null (or_else (option_map trim (Profile.name profile))
                                               (Users.name u))) (clock w)))
            (fun _ => untouched d0) (untouched d0)) as Hwrite.
  { eapply hoare_weaken.
    - apply (client_write_during d0 (untouched d0) _ (fun _ => True)).
      intros w0 H0. exact H0.
    - intros w0 H0. exact H0.
    - intros a w0 H0. now apply untouched_any in H0.
    - intros w0 H0. exact H0. }
  pose proof (Hwrite w H) as Hw. unfold bind at 1.
  destruct (client_write _ w) as [[done1|e] w1]; [|exact Hw].
  refine (commit_then_respond _ _ w1 Hw).
  intros w2. unfold bind, ret, broadcastPartUpdate, emit. do 2 eexists. reflexivity.
Qed.

Lemma post_release_all_or_nothing caller weekId n :
  hoare (untouched d0) (post_release caller weekId n)
        (answered_or_untouched d0) (untouched d0).
Proof.
  unfold post_release.
  destruct (_ || _); [intros w H; now right|].
  apply hoare_try_catch with (X := untouched d0);
    [|intros e; apply rollback_respond_untouched].
  eapply hoare_bind; [apply getUserById_during; auto|]. intros user.
  eapply hoare_bind; [apply BEGIN_during; auto|]. intros done.
  eapply hoare_bind; [apply client_select_during; auto|].
  intros [|row rest]; [apply rollback_respond_untouched|].
  destruct (_ || _); [apply rollback_respond_untouched|].
  eapply hoare_bind with (Q := fun _ => untouched d0).
  { eapply hoare_weaken.
    - apply (client_write_during d0 (untouched d0) _ (fun _ => True)).
      intros w0 H0. exact H0.
    - intros w0 H0. exact H0.
    - intros a w0 H0. now apply untouched_any in H0.
    - intros w0 H0. exact H0. }
  intros done1. apply commit_then_respond.
  intros w2. unfold bind, ret, broadcastPartUpdate, emit. do 2 eexists. reflexivity.
Qed.

End AllOrNothing.

Section FailedRequests.

Variable env : Env.
Variable gen_id : list jsstring -> jsstring.

(** X23. Claim and release are all or nothing. Whichever statements of a
    claim or a release fail, as long as no other connection commits in
    between, a request that is not answered 200 has changed no week and no
    part; the same holds of a login, a profile sync and an admin
    toggle. *)
Theorem failed_request_changes_no_part (s : list Hazard) (now : Z) (d : Db) (r : Request) :
  calm s ->
  (forall key, r <> GetWeek key) ->
  (forall caller key profile, r <> ResetWeek caller key profile) ->
  succeeded (fst (serve_under env gen_id s now d r))
  \/ (weeks (snd (serve_under env gen_id s now d r)) = weeks d
      /\ parts (snd (serve_under env gen_id s now d r)) = parts d).
Proof.
  intros Hs Hget Hreset. unfold serve_under.
  assert (untouched d (mkWorld d [] s [] now)) as Hpre by (now repeat split).
  set (Good := fun d' : Db => weeks d' = weeks d /\ parts d' = parts d).
  assert (forall a b : Db, weeks b = weeks a -> parts b = parts a -> Good a -> Good b)
    as Hwp by (intros a b Hw Hp [H1 H2]; split; congruence).
  assert (Good d) as Hstart by (now split).
  assert (during d (eq []) (mkWorld d [] s [] now)) as Hpre' by (now repeat split).
  assert (forall m : M Response,
            hoare (during d (eq [])) m (fun _ => after Good) (after Good) ->
            succeeded (fst (let (o, w) := m (mkWorld d [] s [] now) in (o, db w)))
            \/ (weeks (snd (let (o, w) := m (mkWorld d [] s [] now) in (o, db w))) = weeks d
                /\ parts (snd (let (o, w) := m (mkWorld d [] s [] now) in (o, db w)))
                   = parts d)) as Husers.
  { intros m Hm. specialize (Hm _ Hpre').
    destruct (m (mkWorld d [] s [] now)) as [[a|e] w']; cbn [snd]; right;
      now destruct Hm as (_ & Hg & _). }
  assert (forall m : M Response,
            hoare (untouched d) m (answered_or_untouched d) (untouched d) ->
            succeeded (fst (let (o, w) := m (mkWorld d [] s [] now) in (o, db w)))
            \/ (weeks (snd (let (o, w) := m (mkWorld d [] s [] now) in (o, db w))) = weeks d
                /\ parts (snd (let (o, w) := m (mkWorld d [] s [] now) in (o, db w)))
                   = parts d)) as Hparts.
  { intros m Hm. specialize (Hm _ Hpre).
    destruct (m (mkWorld d [] s [] now)) as [[a|e] w']; cbn [fst snd].
    - destruct Hm as [Hok|(_ & Hw & Hp & _)]; [now left|right; now split].
    - right. now destruct Hm as (_ & Hw & Hp & _). }
  destruct r as [name phone authKey|caller profile|weekKey|caller weekId n profile
                |caller weekId n|caller weekKey profile
                |caller target makeAdmin weekId partNumber];
    cbn [handle].
  - apply Husers. now apply post_auth_login_keeps.
  - apply Husers. now apply post_profile_keeps.
  - now destruct (Hget weekKey).
  - apply Hparts, post_claim_all_or_nothing.
  - apply Hparts, post_release_all_or_nothing.
  - now destruct (Hreset caller weekKey profile).
  - apply Husers. now apply patch_admin_keeps.
Qed.

(** X24. A reset can be committed and still fail. When every statement
    of an admin's reset of an existing week goes through up to the COMMIT
    and the snapshot query after it is lost, the answer is RESET_FAILED and
    nothing is broadcast, yet the week is reset in the store: every part of
    it is free. *)
Theorem reset_can_fail_after_commit (d : Db) (now : Z) (caller weekKey : jsstring)
    (u : Users.row) (others : list Users.row) (k : Weeks.row) (ks : list Weeks.row) :
  weekKey <> [] ->
  Sql.users_by_id caller d = u :: others -> Users.is_admin u = true ->
  Sql.weeks_by_key weekKey d = k :: ks ->
  let request := ResetWeek caller weekKey Profile.none in
  let w' := snd (handle env gen_id request (mkWorld d [] lost_at_snapshot [] now)) in
  serve_under env gen_id lost_at_snapshot now d request
  = (Ok (fail 500 RESET_FAILED), apply_write d (UpdateReset (Weeks.id k)))
  /\ emits (trace w') = []
  /\ tx w' = []
  /\ (forall p, In p (parts (db w')) -> in_week (Weeks.id k) p = true -> free p).
Proof.
  intros Hw Hu Hadm Hk. cbv zeta.
  assert (handle env gen_id (ResetWeek caller weekKey Profile.none)
            (mkWorld d [] lost_at_snapshot [] now)
          = (Ok (fail 500 RESET_FAILED),
             mkWorld (apply_write d (UpdateReset (Weeks.id k))) [] []
                     [ObsBegin; ObsCommit; ObsRollback] now)) as Hrun.
  { unfold handle, post_reset. rewrite (truthy_some weekKey Hw). cbn [negb].
    unfold try_catch, resolve_caller, getUserById, getWeek, fetchParts, BEGIN, COMMIT,
      ROLLBACK, client_select, client_write, pool_query, field, bind, ret, throw,
      emit, hazard, lost_at_snapshot.
    cbn -[Sql.users_by_id Sql.weeks_by_key Sql.parts_of_week apply_write].
    rewrite Hu.
    cbn -[Sql.users_by_id Sql.weeks_by_key Sql.parts_of_week apply_write].
    rewrite Hadm.
    cbn -[Sql.users_by_id Sql.weeks_by_key Sql.parts_of_week apply_write].
    unfold view.
    cbn -[Sql.users_by_id Sql.weeks_by_key Sql.parts_of_week apply_write].
    rewrite Hk.
    cbn -[Sql.users_by_id Sql.weeks_by_key Sql.parts_of_week apply_write].
    reflexivity. }
  unfold serve_under. rewrite Hrun. cbn [snd fst db trace tx emits].
  split; [reflexivity|]. split; [reflexivity|]. split; [reflexivity|].
  intros p Hp Hin. cbn [apply_write parts] in Hp.
  apply update_where_In in Hp as [q [_ ->]].
  destruct (in_week (Weeks.id k) q) eqn:E; [now repeat split|]. congruence.
Qed.

End FailedRequests.

(* ================================================================== *)
(** ** The properties on the sample data *)
(* ================================================================== *)

Import Sample Scene.

Lemma sample_gen_id_fresh (l : list jsstring) : ~ In (Sample.gen_id l) l.
Proof.
  intros H. unfold Sample.gen_id in H.
  assert (Forall (fun k => (k <= list_max (map (@List.length N) l))%nat)
                 (map (@List.length N) l)) as Hmax
    by (apply list_max_le; apply Nat.le_refl).
  rewrite Forall_forall in Hmax.
  specialize (Hmax _ (in_map (@List.length N) _ _ H)).
  rewrite repeat_length in Hmax. lia.
Qed.

(** C1, counterexample. A user whose name is null (the login trims a blank
    name to nothing) claims a part: the part has a claimant and a claim
    time, and no claimant name. *)
Lemma nameless_claim_splits_fields :
  exists p, In p (parts db_blank) /\ ~ claim_fields_together p.
Proof.
  exists (Parts.mk i1 5 (Some i1) None (Some 3)). split.
  - vm_compute. do 4 right. left. reflexivity.
  - intros [[_ H] _]. cbn in H. specialize (H eq_refl). discriminate.
Qed.

Lemma claim_fields_stay_consistent_witness :
  Forall (fun x => calm (fst (fst x))) story_faulty
  /\ Forall claim_fields_consistent (parts empty_db)
  /\ Forall claim_fields_consistent
       (parts (serve_all_under env gen_id empty_db story_faulty)).
Proof.
  assert (Forall (fun x => calm (fst (fst x))) story_faulty) as Hcalm
    by (repeat constructor).
  assert (Forall claim_fields_consistent (parts empty_db)) as H by constructor.
  split; [exact Hcalm|]. split; [exact H|].
  exact (claim_fields_stay_consistent env gen_id empty_db story_faulty Hcalm H).
Defined.

(** C2, counterexample. The second user sends the profile name " Zed "
    along with two claims. Part 5 is Ali's: the answer is ALREADY_CLAIMED,
    and yet the store is not the one before, the user's name is now the one
    of the profile. Part 7 is free: the name the claim records is "Zed",
    not the name that was supplied. *)
Lemma refused_claim_renames_caller :
  let refused := serve env gen_id 9 db_two (ClaimPart i2 i1 five zed) in
  let granted := serve env gen_id 9 db_two (ClaimPart i2 i1 seven zed) in
  fst refused = Ok (fail 409 ALREADY_CLAIMED)
  /\ snd refused <> db_two
  /\ map Users.name (users db_two) = [Some (str "Ali"); None]
  /\ map Users.name (users (snd refused)) = [Some (str "Ali"); Some (str "Zed")]
  /\ Profile.name zed = Some (str " Zed ")
  /\ map Parts.claimed_name (Sql.parts_by_key i1 seven (snd granted))
     = [Some (str "Zed")].
Proof.
  cbv zeta. split; [vm_compute; reflexivity|].
  split; [|repeat split; vm_compute; reflexivity].
  intros H. apply (f_equal (fun d => map Users.name (users d))) in H.
  vm_compute in H. discriminate.
Qed.

Lemma claim_spec_witness :
  i1 <> [] /\ isNaN seven = false
  /\ resolve_caller env i2 zed (idle db_two 9) = (Ok (Some user_zed), idle db_two_zed 9)
  /\ fst (serve env gen_id 9 db_two (ClaimPart i2 i1 five zed))
     = Ok (fail 409 ALREADY_CLAIMED)
  /\ fst (serve env gen_id 9 db_two (ClaimPart i2 i1 seven zed))
     = Ok (json (PartBody (PartRow.mk seven (Some i2) (Some (str "Zed")) (Some false)))).
Proof.
  assert (i1 <> []) as H1 by discriminate.
  assert (isNaN seven = false) as H2 by reflexivity.
  assert (isNaN five = false) as H2' by reflexivity.
  assert (resolve_caller env i2 zed (idle db_two 9)
          = (Ok (Some user_zed), idle db_two_zed 9)) as H3
    by (vm_compute; reflexivity).
  split; [exact H1|]. split; [exact H2|]. split; [exact H3|]. split.
  - destruct (claim_spec env gen_id db_two 9 i2 i1 five zed user_zed db_two_zed
                         H1 H2' H3) as (_ & _ & _ & _ & Htaken & _).
    rewrite (Htaken (Parts.mk i1 5 (Some i1) (Some (str "Ali")) (Some 4)) []);
      reflexivity.
  - destruct (claim_spec env gen_id db_two 9 i2 i1 seven zed user_zed db_two_zed
                         H1 H2 H3) as (_ & _ & _ & _ & _ & Hfree).
    destruct (Hfree (Parts.mk i1 7 None None None) [] eq_refl eq_refl)
      as (d' & nm & -> & Hnm & _).
    rewrite (Hnm (str " Zed ") eq_refl); [reflexivity|discriminate].
Defined.



(** C4, counterexample. The second user is no admin. Resetting the week
    with the admin name in the profile of the request makes that user an
    admin first: the reset succeeds and Ali's part 5 is free again. *)
Lemma plain_user_resets_by_profile :
  let result := serve env gen_id 9 db_two (ResetWeek i2 W1 boss) in
  map Users.is_admin (Sql.users_by_id i2 db_two) = [false]
  /\ fst result <> Ok (fail 403 NOT_ADMIN)
  /\ succeeded (fst result)
  /\ parts (snd result) <> parts db_two
  /\ map Users.is_admin (Sql.users_by_id i2 (snd result)) = [true].
Proof.
  cbv zeta. split; [reflexivity|]. split; [vm_compute; discriminate|].
  split; [eexists; vm_compute; reflexivity|]. split; [|vm_compute; reflexivity].
  intros H. apply (f_equal (fun l => nth_error l 4)) in H.
  vm_compute in H. discriminate.
Qed.

Lemma reset_spec_witness :
  W1 <> []
  /\ resolve_caller env i1 Profile.none (idle db_admin 9)
     = (Ok (Some user_admin), idle db_admin 9)
  /\ resolve_caller env i2 Profile.none (idle db_admin 9)
     = (Ok (Some user_ali_2), idle db_admin 9)
  /\ serve env gen_id 9 db_admin (ResetWeek i2 W1 Profile.none)
     = (Ok (fail 403 NOT_ADMIN), db_admin)
  /\ exists d' snapshot,
       serve env gen_id 9 db_admin (ResetWeek i1 W1 Profile.none)
       = (Ok (json (ResetBody i1 snapshot)), d')
       /\ (forall p, In p (parts d') -> in_week i1 p = true -> free p)
       /\ (forall row, In row snapshot ->
             PartRow.claimed_by row = None /\ PartRow.claimed_name row = None).
Proof.
  assert (W1 <> []) as H1 by discriminate.
  assert (resolve_caller env i1 Profile.none (idle db_admin 9)
          = (Ok (Some user_admin), idle db_admin 9)) as H2 by reflexivity.
  assert (resolve_caller env i2 Profile.none (idle db_admin 9)
          = (Ok (Some user_ali_2), idle db_admin 9)) as H3 by reflexivity.
  split; [exact H1|]. split; [exact H2|]. split; [exact H3|]. split.
  - destruct (reset_spec env gen_id db_admin 9 i2 W1 Profile.none user_ali_2 db_admin
                         H1 H3) as (_ & _ & _ & Hplain & _).
    apply Hplain. reflexivity.
  - destruct (reset_spec env gen_id db_admin 9 i1 W1 Profile.none user_admin db_admin
                         H1 H2) as (_ & _ & _ & _ & Hadmin).
    destruct (Hadmin eq_refl (Weeks.mk i1 W1) [] eq_refl)
      as (d' & snapshot & Hrun & _ & _ & _ & Hfree & _ & _ & Hrows).
    exists d', snapshot. split; [exact Hrun|]. split; [exact Hfree|exact Hrows].
Defined.

(** The flag a reset checks is the one read before BEGIN. The admin "i"
    resets the week; between the read of the caller's row and BEGIN another
    connection takes the flag away. The reset succeeds all the same. *)
Lemma reset_checks_flag_read_before_begin :
  let revoke := fun d =>
    snd (serve env gen_id 8 d (SetAdmin i1 i1 (Some false) None None)) in
  let run := handle env gen_id (ResetWeek i1 W1 Profile.none)
                    (mkWorld db_admin [] [Quiet; Concurrent revoke] [] 9) in
  map Users.is_admin (Sql.users_by_id i1 (revoke db_admin)) = [false]
  /\ succeeded (fst run)
  /\ map Users.is_admin (Sql.users_by_id i1 (db (snd run))) = [false]
  /\ Forall free (parts (db (snd run))).
Proof.
  cbv zeta. split; [vm_compute; reflexivity|].
  split; [eexists; vm_compute; reflexivity|].
  split; [vm_compute; reflexivity|].
  vm_compute. repeat constructor.
Qed.

(** C5, counterexample. Two lookups of the unseen key "W1" race: the other
    one commits the week before this one's insert reaches the store. The
    insert fails the uniqueness constraint, nothing looks the week up
    again, and the caller gets WEEK_FETCH_FAILED although the week is
    there. *)
Lemma lost_race_is_an_error :
  let run := handle env gen_id (GetWeek W1)
                    (overtaken_at_insert other_lookup empty_db 2) in
  Sql.weeks_by_key W1 empty_db = []
  /\ Sql.weeks_by_key W1 (db (snd run)) = [Weeks.mk i1 W1]
  /\ fst run = Ok (fail 500 WEEK_FETCH_FAILED)
  /\ ~ succeeded (fst run).
Proof.
  cbv zeta. split; [reflexivity|]. split; [vm_compute; reflexivity|].
  split; [vm_compute; reflexivity|].
  intros [b H]. vm_compute in H. discriminate.
Qed.

Lemma resolve_week_spec_witness :
  W1 <> []
  /\ fst (serve env gen_id 2 empty_db (GetWeek W1))
     = Ok (json (WeekBody i1 W1 (map free_row generate_series_1_30)))
  /\ handle env gen_id (GetWeek W1) (overtaken_at_insert other_lookup empty_db 2)
     = (Ok (fail 500 WEEK_FETCH_FAILED),
        mkWorld (other_lookup empty_db) [] [] [ObsBegin; ObsRollback] 2).
Proof.
  assert (W1 <> []) as H1 by discriminate.
  destruct (resolve_week_spec env gen_id empty_db 2 W1 H1) as (_ & Hnew & Hrace).
  split; [exact H1|]. split.
  - destruct (Hnew eq_refl) as [-> _]. reflexivity.
  - apply Hrace; [reflexivity|]. vm_compute. discriminate.
Defined.

(** A week lookup that loses its connection after the insert of the week
    and before the insert of its parts: both are rolled back, the store has
    no week. *)
Lemma interrupted_lookup_creates_nothing :
  serve_under env gen_id [Quiet; Quiet; Quiet; Quiet; Fault] 3 empty_db (GetWeek W1)
  = (Ok (fail 500 WEEK_FETCH_FAILED), empty_db).
Proof. vm_compute. reflexivity. Qed.


(** C7, counterexample. The user "ii" of [db_admin] is no admin and sends
    a profile. After the update has read the row, another connection
    commits the admin's grant: the user is an admin in the store. The
    update statement then writes the flag computed from the row read
    before: the answer is 200, and the user is no admin any more. *)
Lemma concurrent_grant_is_overwritten :
  let result :=
    serve_under env gen_id overtaken_at_update 9 db_admin (PostProfile i2 zed) in
  map Users.is_admin (Sql.users_by_id i2 db_admin) = [false]
  /\ map Users.is_admin (Sql.users_by_id i2 (grant db_admin)) = [true]
  /\ (exists s, fst result = Ok (json (ProfileBody (mkToken s 9) s))
                /\ isAdmin s = false)
  /\ (exists rows,
        Sql.update_user i2 (Some (str "Zed")) (Some (str "+0502")) false (grant db_admin)
        = Ok (rows, snd result))
  /\ map Users.is_admin (Sql.users_by_id i2 (snd result)) = [false].
Proof.
  cbv zeta. split; [reflexivity|]. split; [reflexivity|]. split; [|split].
  - eexists. split; vm_compute; reflexivity.
  - eexists. vm_compute. reflexivity.
  - vm_compute. reflexivity.
Qed.

Lemma computeAdminFlag_monotone_witness :
  calm [Quiet; Fault]
  /\ NoDup (map Users.id (users db_admin))
  /\ In user_admin (users db_admin)
  /\ Users.is_admin user_admin = true
  /\ Forall (fun u => Users.id u = i1 -> Users.is_admin u = true)
            (users (snd (serve_under env gen_id [] 9 db_admin (PostProfile i1 zed))))
  /\ Forall (fun u => Users.id u = i1 -> Users.is_admin u = true)
            (users (snd (serve_under env gen_id [Quiet; Fault] 9 db_admin
                           (PostProfile i1 zed)))).
Proof.
  assert (calm [Quiet; Fault]) as H0 by (repeat constructor).
  assert (NoDup (map Users.id (users db_admin))) as H1.
  { vm_compute. repeat constructor; cbn; intuition discriminate. }
  assert (In user_admin (users db_admin)) as H2 by (now left).
  destruct (computeAdminFlag_monotone env gen_id) as (_ & _ & _ & _ & _ & Hkeep).
  split; [exact H0|]. split; [exact H1|]. split; [exact H2|]. split; [reflexivity|].
  split; apply Forall_forall; intros u' Hin Hid.
  - exact (Hkeep [] db_admin 9 i1 zed user_admin u' (Forall_nil _) H1 H2 eq_refl
             Hin Hid).
  - exact (Hkeep [Quiet; Fault] db_admin 9 i1 zed user_admin u' H0 H1 H2 eq_refl
             Hin Hid).
Defined.

Lemma broadcast_only_after_commit_witness :
  mutating (ClaimPart i2 i1 five Profile.none) = true
  /\ emits (trace (snd (handle env gen_id (ClaimPart i2 i1 five Profile.none)
                               (idle db_two 9)))) = []
  /\ mutating (ReleasePart i1 i1 five) = true
  /\ committed_then_emitted []
       (trace (snd (handle env gen_id (ReleasePart i1 i1 five) (idle db_two 9)))).
Proof.
  split; [reflexivity|]. split; [|split; [reflexivity|]].
  - destruct (broadcast_only_after_commit env gen_id
                (ClaimPart i2 i1 five Profile.none) (idle db_two 9) eq_refl)
      as [Hfail _].
    apply Hfail. intros [b Hb]. vm_compute in Hb. discriminate.
  - destruct (broadcast_only_after_commit env gen_id
                (ReleasePart i1 i1 five) (idle db_two 9) eq_refl)
      as [_ Hsent].
    apply Hsent. vm_compute. discriminate.
Defined.

Lemma reset_creates_week_witness :
  (forall l, ~ In (gen_id l) l)
  /\ W2 <> []
  /\ resolve_caller env i1 Profile.none (idle db_admin 9)
     = (Ok (Some user_admin), idle db_admin 9)
  /\ Users.is_admin user_admin = true
  /\ Sql.weeks_by_key W2 db_admin = []
  /\ (forall p, In p (parts db_admin) ->
                In (Parts.week_id p) (map Weeks.id (weeks db_admin)))
  /\ List.length (parts db_admin) = 30%nat
  /\ List.length (parts (snd (serve env gen_id 9 db_admin (ResetWeek i1 W2 Profile.none))))
     = 60%nat
  /\ exists rows,
       fst (serve env gen_id 9 db_admin (ResetWeek i1 W2 Profile.none))
       = Ok (json (ResetBody i2 rows))
       /\ List.length rows = 30%nat
       /\ nth_error rows 0 = Some (PartRow.mk (of_Z 1) None None None)
       /\ nth_error rows 29 = Some (PartRow.mk (of_Z 30) None None None).
Proof.
  assert (W2 <> []) as H1 by discriminate.
  assert (resolve_caller env i1 Profile.none (idle db_admin 9)
          = (Ok (Some user_admin), idle db_admin 9)) as H2 by reflexivity.
  assert (forall p, In p (parts db_admin) ->
                    In (Parts.week_id p) (map Weeks.id (weeks db_admin))) as H3.
  { destruct (serve_all_complete env gen_id sample_gen_id_fresh empty_db story_admin
                                  empty_db_complete) as (_ & _ & Hown).
    exact Hown. }
  split; [exact sample_gen_id_fresh|]. split; [exact H1|]. split; [exact H2|].
  split; [reflexivity|]. split; [reflexivity|]. split; [exact H3|].
  split; [vm_compute; reflexivity|]. split; [vm_compute; reflexivity|].
  destruct (reset_creates_week env gen_id sample_gen_id_fresh db_admin 9 i1 W2
              Profile.none user_admin db_admin H1 H2 eq_refl eq_refl H3)
    as (d' & rows & created & -> & Hlen & Hnth & _).
  exists rows. split; [reflexivity|]. split; [exact Hlen|]. split.
  - apply (Hnth 0%nat). lia.
  - apply (Hnth 29%nat). lia.
Defined.

(** C10, counterexample. The part number 2.5 passes validation. The column
    [number] holds integers and the store cannot read 2.5 as one: the
    lookup of the claim and of the release fails, and the answer is the
    error CLAIM_FAILED and RELEASE_FAILED, not PART_NOT_FOUND. *)
Lemma fraction_is_refused_by_the_store :
  let claim :=
    serve_under env gen_id (until_lookup 2 integer_column two_and_a_half) 9 db_two
      (ClaimPart i2 i1 two_and_a_half Profile.none) in
  let release :=
    serve_under env gen_id (until_lookup 2 integer_column two_and_a_half) 9 db_two
      (ReleasePart i1 i1 two_and_a_half) in
  isNaN two_and_a_half = false
  /\ integer_column two_and_a_half = false
  /\ until_lookup 2 integer_column two_and_a_half = [Quiet; Quiet; Fault]
  /\ claim = (Ok (fail 500 CLAIM_FAILED), db_two)
  /\ fst claim <> Ok (fail 404 PART_NOT_FOUND)
  /\ release = (Ok (fail 500 RELEASE_FAILED), db_two)
  /\ fst release <> Ok (fail 404 PART_NOT_FOUND).
Proof.
  cbv zeta. repeat split; try (vm_compute; reflexivity); vm_compute; discriminate.
Qed.

Lemma part_number_validation_witness :
  i1 <> []
  /\ isNaN two_and_a_half = false /\ integer_column two_and_a_half = false
  /\ isNaN (of_Z 31) = false /\ integer_column (of_Z 31) = true
  /\ (forall p, In p (parts db_two) -> 1 <= Parts.number p <= 30)
  /\ serve env gen_id 9 db_two (ClaimPart i2 i1 NaN Profile.none)
     = (Ok (fail 400 BAD_REQUEST), db_two)
  /\ serve_under env gen_id (until_lookup 2 integer_column two_and_a_half) 9 db_two
       (ClaimPart i2 i1 two_and_a_half Profile.none)
     = (Ok (fail 500 CLAIM_FAILED), db_two)
  /\ serve_under env gen_id (until_lookup 2 integer_column (of_Z 31)) 9 db_two
       (ClaimPart i2 i1 (of_Z 31) Profile.none)
     = (Ok (fail 404 PART_NOT_FOUND), db_two)
  /\ serve_under env gen_id (until_lookup 2 integer_column (of_Z 31)) 9 db_two
       (ReleasePart i1 i1 (of_Z 31))
     = (Ok (fail 404 PART_NOT_FOUND), db_two).
Proof.
  assert (i1 <> []) as H1 by discriminate.
  assert (forall p, In p (parts db_two) -> 1 <= Parts.number p <= 30) as H2.
  { intros p. apply complete_numbers_in_range.
    exact (serve_all_complete env gen_id sample_gen_id_fresh empty_db story_two
                               empty_db_complete). }
  split; [exact H1|]. split; [reflexivity|]. split; [reflexivity|].
  split; [reflexivity|]. split; [reflexivity|]. split; [exact H2|].
  split; [|split; [|split]].
  - destruct (part_number_validation env gen_id integer_column db_two 9 i2 i1 NaN
                Profile.none H1) as (Hnan & _).
    destruct (Hnan eq_refl (idle db_two 9)) as [Hclaim _].
    unfold serve. now rewrite Hclaim.
  - destruct (part_number_validation env gen_id integer_column db_two 9 i2 i1
                two_and_a_half Profile.none H1) as (_ & _ & Hrefused & _).
    destruct (Hrefused eq_refl eq_refl) as [Hclaim _].
    apply (Hclaim (Some (Users.mk i2 (str "key-1") None (Some (str "+0501")) false))).
    reflexivity.
  - destruct (part_number_validation env gen_id integer_column db_two 9 i2 i1
                (of_Z 31) Profile.none H1) as (_ & _ & _ & Hnone & Hout).
    assert (Sql.parts_by_key i1 (of_Z 31) db_two = []) as H3
      by (apply Hout; [exact H2|lia]).
    destruct (Hnone eq_refl eq_refl H3) as [Hclaim _].
    apply (Hclaim (Some (Users.mk i2 (str "key-1") None (Some (str "+0501")) false))).
    reflexivity.
  - destruct (part_number_validation env gen_id integer_column db_two 9 i1 i1
                (of_Z 31) Profile.none H1) as (_ & _ & _ & Hnone & Hout).
    assert (Sql.parts_by_key i1 (of_Z 31) db_two = []) as H3
      by (apply Hout; [exact H2|lia]).
    destruct (Hnone eq_refl eq_refl H3) as [_ Hrelease].
    apply (Hrelease user_ali []). reflexivity.
Defined.

(* ================================================================== *)
(** ** More properties on the sample data *)
(* ================================================================== *)

Lemma sample_gen_id_not_empty (l : list jsstring) : Sample.gen_id l <> [].
Proof. unfold Sample.gen_id. cbn [repeat]. discriminate. Qed.

Lemma serve_all_users_ok env gen_id d rs :
  (forall l, ~ In (gen_id l) l) -> (forall l, gen_id l <> []) ->
  users_ok d -> users_ok (serve_all env gen_id d rs).
Proof.
  intros Hfresh Hne. revert d. induction rs as [|[now r] rs IH]; intros d Hd; cbn;
    [exact Hd|].
  apply IH. now apply serve_users_ok.
Qed.

Lemma db_two_users_ok : users_ok Sample.db_two.
Proof.
  apply serve_all_users_ok;
    [apply sample_gen_id_fresh|apply sample_gen_id_not_empty|apply users_ok_empty].
Qed.

Lemma db_admin_users_ok : users_ok Sample.db_admin.
Proof.
  apply serve_all_users_ok;
    [apply sample_gen_id_fresh|apply sample_gen_id_not_empty|apply users_ok_empty].
Qed.

Lemma db_two_complete : weeks_complete Sample.db_two.
Proof.
  apply serve_all_complete; [apply sample_gen_id_fresh|apply empty_db_complete].
Qed.

Lemma db_admin_complete : weeks_complete Sample.db_admin.
Proof.
  apply serve_all_complete; [apply sample_gen_id_fresh|apply empty_db_complete].
Qed.

Lemma users_stay_ok_witness :
  users_ok empty_db
  /\ Forall (fun x => respects users_ok (fst (fst x))) Sample.story_faulty
  /\ users_ok (serve_all_under Sample.env Sample.gen_id empty_db Sample.story_faulty).
Proof.
  assert (Forall (fun x => respects users_ok (fst (fst x))) Sample.story_faulty) as Hs
    by (repeat constructor).
  split; [apply users_ok_empty|]. split; [exact Hs|].
  exact (users_stay_ok Sample.env Sample.gen_id sample_gen_id_fresh
           sample_gen_id_not_empty empty_db Sample.story_faulty users_ok_empty Hs).
Defined.

Lemma login_get_or_create_witness :
  users_ok Sample.db_two /\ Tour.omar <> [] /\ str "0599" <> []
  /\ fst (serve Sample.env Sample.gen_id 9 Sample.db_two Tour.login_omar)
     = Ok (json (LoginBody (mkToken Tour.session_omar 9) Tour.session_omar))
  /\ exists u d',
       serve Sample.env Sample.gen_id 9 Sample.db_two Sample.login_ali
       = (Ok (json (LoginBody (mkToken (session_of u) 9) (session_of u))), d')
       /\ Users.id u = Sample.i1
       /\ map Users.id (users d') = map Users.id (users Sample.db_two).
Proof.
  assert (Tour.omar <> []) as H1 by discriminate.
  assert (str "0599" <> []) as H2 by discriminate.
  assert (str "Ali" <> []) as H3 by discriminate.
  assert (str "0502" <> []) as H4 by discriminate.
  split; [exact db_two_users_ok|]. split; [exact H1|]. split; [exact H2|]. split.
  - destruct (login_get_or_create Sample.env Sample.gen_id sample_gen_id_fresh
                Sample.db_two 9 Tour.omar (str "0599") (str "key-9")
                db_two_users_ok H1 H2) as (pn & Hpn & Hnew & _).
    vm_compute in Hpn. injection Hpn as <-.
    destruct (Hnew eq_refl) as [Hres _]. unfold Tour.login_omar.
    rewrite Hres. reflexivity.
  - destruct (login_get_or_create Sample.env Sample.gen_id sample_gen_id_fresh
                Sample.db_two 9 (str "Ali") (str "0502") (str "key-2")
                db_two_users_ok H3 H4) as (pn & Hpn & _ & Hknown).
    vm_compute in Hpn. injection Hpn as <-.
    destruct (Hknown Scene.user_ali [] eq_refl)
      as (u & d' & Hres & Hid & _ & _ & _ & _ & _ & _ & Hids & _).
    exists u, d'. split; [exact Hres|]. split; [exact Hid|exact Hids].
Defined.

Lemma login_twice_witness :
  users_ok Sample.db_two /\ Tour.omar <> [] /\ str "0599" <> []
  /\ (let first := serve Sample.env Sample.gen_id 9 Sample.db_two Tour.login_omar in
      let second := serve Sample.env Sample.gen_id 10 (snd first) Tour.login_omar_again in
      snd second = snd first
      /\ exists s,
           fst first = Ok (json (LoginBody (mkToken s 9) s))
           /\ fst second = Ok (json (LoginBody (mkToken s 10) s))).
Proof.
  assert (Tour.omar <> []) as H1 by discriminate.
  assert (str "0599" <> []) as H2 by discriminate.
  split; [exact db_two_users_ok|]. split; [exact H1|]. split; [exact H2|].
  exact (login_twice Sample.env Sample.gen_id sample_gen_id_fresh
           sample_gen_id_not_empty Sample.db_two 9 10 Tour.omar (str "0599")
           (str "key-9") (str "key-10") db_two_users_ok H1 H2).
Defined.

Lemma profile_sync_spec_witness :
  users_ok Sample.db_two
  /\ serve Sample.env Sample.gen_id 9 Sample.db_two (PostProfile (str "nobody") Scene.zed)
     = (Ok (fail 500 PROFILE_FAILED), Sample.db_two)
  /\ fst (serve Sample.env Sample.gen_id 9 Sample.db_two (PostProfile Sample.i2 Scene.zed))
     = Ok (json (ProfileBody (mkToken (session_of Scene.user_zed) 9)
                             (session_of Scene.user_zed)))
  /\ serve Sample.env Sample.gen_id 9 Sample.db_two
       (PostProfile Sample.i2 Tour.phone_of_ali)
     = (Ok (fail 500 PROFILE_FAILED), Sample.db_two).
Proof.
  split; [exact db_two_users_ok|].
  split; [|split].
  - destruct (profile_sync_spec Sample.env Sample.gen_id Sample.db_two 9 (str "nobody")
                Scene.zed db_two_users_ok) as [Hnone _].
    apply Hnone. reflexivity.
  - destruct (profile_sync_spec Sample.env Sample.gen_id Sample.db_two 9 Sample.i2
                Scene.zed db_two_users_ok) as [_ Hsome].
    destruct (Hsome Tour.user_blank) as (_ & _ & _ & _ & _ & Hfree);
      [vm_compute; right; left; reflexivity|reflexivity|].
    rewrite (Hfree eq_refl). reflexivity.
  - destruct (profile_sync_spec Sample.env Sample.gen_id Sample.db_two 9 Sample.i2
                Tour.phone_of_ali db_two_users_ok) as [_ Hsome].
    destruct (Hsome Tour.user_blank) as (_ & _ & _ & _ & Htaken & _);
      [vm_compute; right; left; reflexivity|reflexivity|].
    apply Htaken. reflexivity.
Defined.

Lemma profile_sync_twice_witness :
  users_ok Sample.db_two
  /\ (let first :=
        serve Sample.env Sample.gen_id 9 Sample.db_two (PostProfile Sample.i2 Scene.zed) in
      let second :=
        serve Sample.env Sample.gen_id 10 (snd first) (PostProfile Sample.i2 Scene.zed) in
      snd second = snd first
      /\ ((exists s,
              fst first = Ok (json (ProfileBody (mkToken s 9) s))
              /\ fst second = Ok (json (ProfileBody (mkToken s 10) s)))
          \/ (fst first = Ok (fail 500 PROFILE_FAILED)
              /\ fst second = Ok (fail 500 PROFILE_FAILED)))).
Proof.
  split; [exact db_two_users_ok|].
  exact (profile_sync_twice Sample.env Sample.gen_id Sample.db_two 9 10 Sample.i2
           Scene.zed db_two_users_ok).
Defined.

Lemma login_grants_admin_witness :
  users_ok Sample.db_two /\ Tour.omar <> [] /\ Tour.admin_phone_typed <> []
  /\ In builtin_admin_phones (split_comma builtin_admin_phones)
  /\ normalizePhone (Some Tour.admin_phone_typed) = Some builtin_admin_phones
  /\ exists u d',
       serve Sample.env Sample.gen_id 9 Sample.db_two
         (Login (Some Tour.omar) (Some Tour.admin_phone_typed) (str "key-9"))
       = (Ok (json (LoginBody (mkToken (session_of u) 9) (session_of u))), d')
       /\ Users.is_admin u = true.
Proof.
  assert (Tour.omar <> []) as H1 by discriminate.
  assert (Tour.admin_phone_typed <> []) as H2 by discriminate.
  assert (In builtin_admin_phones (split_comma builtin_admin_phones)) as H3
    by (left; reflexivity).
  assert (normalizePhone (Some Tour.admin_phone_typed) = Some builtin_admin_phones) as H4
    by (vm_compute; reflexivity).
  split; [exact db_two_users_ok|]. split; [exact H1|]. split; [exact H2|].
  split; [exact H3|]. split; [exact H4|].
  destruct (login_grants_admin Sample.env Sample.gen_id Sample.db_two 9 Tour.omar
              Tour.admin_phone_typed (str "key-9") db_two_users_ok H1 H2)
    as (u & d' & Hres & _ & _ & Hadm).
  - left. exists builtin_admin_phones, builtin_admin_phones.
    split; [reflexivity|]. split; [exact H3|]. split; [discriminate|].
    rewrite H4. vm_compute. reflexivity.
  - exists u, d'. split; [exact Hres|exact Hadm].
Defined.

Lemma snapshot_shape_witness :
  NoDup (map Users.id (users Sample.db_two))
  /\ List.length (Sql.parts_of_week Sample.i1 Sample.db_two) = 30%nat.
Proof.
  assert (NoDup (map Users.id (users Sample.db_two))) as Hnd
    by (destruct db_two_users_ok as [H _]; exact H).
  split; [exact Hnd|].
  destruct (snapshot_shape Sample.db_two Sample.i1 Hnd) as (ps & Hperm & _ & Heq).
  rewrite Heq, length_map, (Permutation_length Hperm). reflexivity.
Defined.

Lemma week_fetch_has_thirty_rows_witness :
  weeks_complete Sample.db_two
  /\ NoDup (map Users.id (users Sample.db_two))
  /\ Scene.W2 <> []
  /\ exists id key rows d',
       serve Sample.env Sample.gen_id 9 Sample.db_two (GetWeek Scene.W2)
       = (Ok (json (WeekBody id key rows)), d')
       /\ List.length rows = 30%nat.
Proof.
  assert (NoDup (map Users.id (users Sample.db_two))) as Hnd
    by (destruct db_two_users_ok as [H _]; exact H).
  assert (Scene.W2 <> []) as Hw by discriminate.
  split; [exact db_two_complete|]. split; [exact Hnd|]. split; [exact Hw|].
  destruct (week_fetch_has_thirty_rows Sample.env Sample.gen_id sample_gen_id_fresh
              Sample.db_two 9 Scene.W2 db_two_complete Hnd Hw)
    as (id & key & rows & d' & Hres & _ & Hlen & _).
  exists id, key, rows, d'. split; [exact Hres|exact Hlen].
Defined.

Lemma held_part_stays_held_witness :
  weeks_complete Sample.db_admin
  /\ In Tour.part5_of_plain (parts Sample.db_admin)
  /\ In Tour.part5_of_plain
        (parts (snd (serve Sample.env Sample.gen_id 9 Sample.db_admin
                       (ClaimPart Sample.i1 Sample.i1 Sample.five Profile.none))))
  /\ In Tour.part5_of_plain
        (parts (snd (serve Sample.env Sample.gen_id 9 Sample.db_admin
                       (ReleasePart Sample.i1 Sample.i1 Sample.five)))).
Proof.
  assert (In Tour.part5_of_plain (parts Sample.db_admin)) as Hin
    by (vm_compute; do 4 right; left; reflexivity).
  assert (Sample.i2 <> []) as Hne by discriminate.
  split; [exact db_admin_complete|]. split; [exact Hin|]. split.
  - apply (held_part_stays_held Sample.env Sample.gen_id sample_gen_id_fresh
             Sample.db_admin 9 _ Tour.part5_of_plain Sample.i2 db_admin_complete
             Hin eq_refl Hne).
    + intros n H. discriminate H.
    + intros caller key profile k H. discriminate H.
  - apply (held_part_stays_held Sample.env Sample.gen_id sample_gen_id_fresh
             Sample.db_admin 9 _ Tour.part5_of_plain Sample.i2 db_admin_complete
             Hin eq_refl Hne).
    + intros n H. discriminate H.
    + intros caller key profile k H. discriminate H.
Defined.

Lemma claim_then_release_restores_witness :
  Sample.i1 <> [] /\ isNaN Scene.seven = false /\ Sample.i2 <> []
  /\ resolve_caller Sample.env Sample.i2 Profile.none (idle Sample.db_two 9)
     = (Ok (Some Tour.user_blank), idle Sample.db_two 9)
  /\ Sql.parts_by_key Sample.i1 Scene.seven Sample.db_two = [Tour.part7_free]
  /\ snd (serve Sample.env Sample.gen_id 10
            (snd (serve Sample.env Sample.gen_id 9 Sample.db_two
                    (ClaimPart Sample.i2 Sample.i1 Scene.seven Profile.none)))
            (ReleasePart Sample.i2 Sample.i1 Scene.seven))
     = Sample.db_two.
Proof.
  assert (Sample.i1 <> []) as H1 by discriminate.
  assert (Sample.i2 <> []) as H2 by discriminate.
  assert (resolve_caller Sample.env Sample.i2 Profile.none (idle Sample.db_two 9)
          = (Ok (Some Tour.user_blank), idle Sample.db_two 9)) as H3
    by (vm_compute; reflexivity).
  assert (Sql.parts_by_key Sample.i1 Scene.seven Sample.db_two = [Tour.part7_free]) as H4
    by (vm_compute; reflexivity).
  split; [exact H1|]. split; [reflexivity|]. split; [exact H2|]. split; [exact H3|].
  split; [exact H4|].
  destruct (claim_then_release_restores Sample.env Sample.gen_id Sample.db_two 9 10
              Sample.i2 Sample.i1 Scene.seven Profile.none Tour.user_blank Sample.db_two
              H1 eq_refl H2 H3) as (payload & d' & Hclaim & _ & Hrelease & _).
  - rewrite H4. discriminate.
  - intros p Hp Hm.
    assert (In p (Sql.parts_by_key Sample.i1 Scene.seven Sample.db_two)) as Hin
      by (apply filter_In; now split).
    rewrite H4 in Hin. destruct Hin as [<-|[]]. now repeat split.
  - rewrite Hclaim. cbn [snd]. rewrite Hrelease. reflexivity.
Defined.

Lemma released_part_can_be_claimed_witness :
  Sample.i1 <> [] /\ isNaN Sample.five = false /\ Sample.i2 <> []
  /\ Sql.users_by_id Sample.i1 Sample.db_two = [Scene.user_ali]
  /\ Sql.users_by_id Sample.i2 Sample.db_two = [Tour.user_blank]
  /\ Sql.parts_by_key Sample.i1 Sample.five Sample.db_two = [Tour.part5_of_ali]
  /\ fst (serve Sample.env Sample.gen_id 10
            (snd (serve Sample.env Sample.gen_id 9 Sample.db_two
                    (ReleasePart Sample.i1 Sample.i1 Sample.five)))
            (ClaimPart Sample.i2 Sample.i1 Sample.five Profile.none))
     = Ok (json (PartBody (PartRow.mk Sample.five (Some Sample.i2) None (Some false)))).
Proof.
  assert (Sample.i1 <> []) as H1 by discriminate.
  assert (Sample.i2 <> []) as H2 by discriminate.
  assert (Sql.users_by_id Sample.i1 Sample.db_two = [Scene.user_ali]) as H3
    by reflexivity.
  assert (Sql.users_by_id Sample.i2 Sample.db_two = [Tour.user_blank]) as H4
    by reflexivity.
  assert (Sql.parts_by_key Sample.i1 Sample.five Sample.db_two = [Tour.part5_of_ali])
    as H5 by (vm_compute; reflexivity).
  split; [exact H1|]. split; [reflexivity|]. split; [exact H2|]. split; [exact H3|].
  split; [exact H4|]. split; [exact H5|].
  destruct (released_part_can_be_claimed Sample.env Sample.gen_id Sample.db_two 9 10
              Sample.i1 Sample.i2 Sample.i1 Sample.five Scene.user_ali Tour.user_blank
              [] [] Tour.part5_of_ali [] H1 eq_refl H1 H2 H3 H4 H5 eq_refl)
    as (d' & d'' & nm & Hrelease & Hclaim & -> & _).
  rewrite Hrelease. cbn [snd]. rewrite Hclaim. reflexivity.
Defined.

Lemma form_login_is_stored_verbatim_witness :
  users_ok Sample.db_two
  /\ LoginForm.submit Tour.typed_name Tour.typed_phone
     = LoginForm.Posted Tour.omar Tour.sent_phone
  /\ exists u d',
       serve Sample.env Sample.gen_id 9 Sample.db_two
         (Login (Some Tour.omar) (Some Tour.sent_phone) (str "key-9"))
       = (Ok (json (LoginBody (mkToken (session_of u) 9) (session_of u))), d')
       /\ Users.name u = Some Tour.omar /\ Users.phone u = Some Tour.sent_phone
       /\ serve Sample.env Sample.gen_id 10 d'
            (PostProfile (Users.id u) (LoginForm.profile Tour.omar Tour.sent_phone))
          = (Ok (json (ProfileBody (mkToken (session_of u) 10) (session_of u))), d').
Proof.
  assert (LoginForm.submit Tour.typed_name Tour.typed_phone
          = LoginForm.Posted Tour.omar Tour.sent_phone) as Hsub
    by (vm_compute; reflexivity).
  split; [exact db_two_users_ok|]. split; [exact Hsub|].
  destruct (form_login_is_stored_verbatim Sample.env Sample.gen_id sample_gen_id_fresh
              sample_gen_id_not_empty Sample.db_two 9 Tour.typed_name Tour.typed_phone
              (str "key-9") Tour.omar Tour.sent_phone db_two_users_ok Hsub)
    as (_ & _ & _ & u & d' & Hres & Hname & Hphone & Hsync).
  exists u, d'. split; [exact Hres|]. split; [exact Hname|]. split; [exact Hphone|].
  apply Hsync.
Defined.

Lemma live_view_follows_store_witness :
  users_ok Sample.db_two
  /\ serve Sample.env Sample.gen_id 9 Sample.db_two Tour.zed_claims_seven
     = (Ok (json (PartBody Tour.payload_seven)), Tour.db_seven)
  /\ map (fun v => (Users.id v, Users.is_admin v)) (users Tour.db_seven)
     = map (fun v => (Users.id v, Users.is_admin v)) (users Sample.db_two)
  /\ map Board.received (Sql.parts_of_week Sample.i1 Tour.db_seven)
     = Board.part_update (Board.received Tour.payload_seven)
         (map Board.received (Sql.parts_of_week Sample.i1 Sample.db_two)).
Proof.
  assert (serve Sample.env Sample.gen_id 9 Sample.db_two Tour.zed_claims_seven
          = (Ok (json (PartBody Tour.payload_seven)), Tour.db_seven)) as Hrun
    by (vm_compute; reflexivity).
  assert (map (fun v => (Users.id v, Users.is_admin v)) (users Tour.db_seven)
          = map (fun v => (Users.id v, Users.is_admin v)) (users Sample.db_two)) as Hflags
    by (vm_compute; reflexivity).
  split; [exact db_two_users_ok|]. split; [exact Hrun|]. split; [exact Hflags|].
  apply (live_view_follows_store Sample.env Sample.gen_id Sample.db_two 9
           Tour.zed_claims_seven Sample.i2 Sample.i1 7 Tour.payload_seven Tour.db_seven
           db_two_users_ok); [|exact Hrun|exact Hflags].
  right. exists Scene.zed. reflexivity.
Defined.

Lemma buttons_match_server_witness :
  Sample.i1 <> [] /\ Sample.i2 <> []
  /\ Sql.users_by_id Sample.i2 Sample.db_two = [Tour.user_blank]
  /\ Sql.parts_by_key Sample.i1 (of_Z 5) Sample.db_two = [Tour.part5_of_ali]
  /\ Board.disabled Sample.i2
       (Board.received (PartRow.mk (of_Z 5) (Some Sample.i1) (Some (str "Ali")) (Some false)))
     = true
  /\ exists r,
       Board.request_of Sample.i2
         (Board.toggle Sample.i1 Sample.i2 None (of_Z 5)
            (Board.received
               (PartRow.mk (of_Z 5) (Some Sample.i1) (Some (str "Ali")) (Some false))))
       = Some r
       /\ serve Sample.env Sample.gen_id 9 Sample.db_two r
          = (Ok (fail 403 NOT_OWNER), Sample.db_two).
Proof.
  assert (Sample.i1 <> []) as H1 by discriminate.
  assert (Sample.i2 <> []) as H2 by discriminate.
  assert (Sql.users_by_id Sample.i2 Sample.db_two = [Tour.user_blank]) as H3
    by reflexivity.
  assert (Sql.parts_by_key Sample.i1 (of_Z 5) Sample.db_two = [Tour.part5_of_ali]) as H4
    by (vm_compute; reflexivity).
  split; [exact H1|]. split; [exact H2|]. split; [exact H3|]. split; [exact H4|].
  split; [reflexivity|].
  destruct (buttons_match_server Sample.env Sample.gen_id Sample.db_two 9 Sample.i1
              Sample.i2 5 None Tour.user_blank [] Tour.part5_of_ali []
              (Board.received
                 (PartRow.mk (of_Z 5) (Some Sample.i1) (Some (str "Ali")) (Some false)))
              Tour.user_blank Sample.db_two H1 H2 H3 H4 eq_refl)
    as (r & Hreq & _ & Hdis).
  - vm_compute. reflexivity.
  - exists r. split; [exact Hreq|]. apply Hdis. reflexivity.
Defined.

Lemma stored_token_reaches_verify_witness :
  Api.getSessionToken Tour.storage = Some Tour.token /\ Tour.token <> []
  /\ Api.verify Tour.jwt_verify
       (Api.header (str "Authorization") (Api.authed_headers None Tour.storage))
     = Api.Next Tour.session_ali.
Proof.
  assert (Api.getSessionToken Tour.storage = Some Tour.token) as H1 by reflexivity.
  assert (Tour.token <> []) as H2 by discriminate.
  split; [exact H1|]. split; [exact H2|].
  destruct (stored_token_reaches_verify Tour.jwt_verify Tour.storage None Tour.token H1 H2)
    as (_ & Hv & _).
  rewrite Hv. reflexivity.
Defined.

Lemma reset_empties_the_board_witness :
  serve Sample.env Sample.gen_id 9 Sample.db_admin Tour.admin_resets
  = (Ok (json (ResetBody Sample.i1 (Sql.parts_of_week Sample.i1 Tour.db_reset))),
     Tour.db_reset)
  /\ Board.reservedCount
       (map Board.received (Sql.parts_of_week Sample.i1 Sample.db_admin)) = 1
  /\ Board.reservedCount
       (Board.week_reset Sample.i1 Sample.i1
          (map Board.received (Sql.parts_of_week Sample.i1 Tour.db_reset))
          (map Board.received (Sql.parts_of_week Sample.i1 Sample.db_admin))) = 0.
Proof.
  assert (serve Sample.env Sample.gen_id 9 Sample.db_admin Tour.admin_resets
          = (Ok (json (ResetBody Sample.i1 (Sql.parts_of_week Sample.i1 Tour.db_reset))),
             Tour.db_reset)) as Hrun
    by (vm_compute; reflexivity).
  split; [exact Hrun|]. split; [vm_compute; reflexivity|].
  destruct (reset_empties_the_board Sample.env Sample.gen_id Sample.db_admin 9 Sample.i1
              Sample.W1 Profile.none Sample.i1
              (Sql.parts_of_week Sample.i1 Tour.db_reset) Tour.db_reset Hrun)
    as (_ & Hsame & _).
  apply Hsame.
Defined.

Lemma legacy_ensureUser_spec_witness :
  NoDup (map Users.id (users Sample.db_two))
  /\ NoDup (map Users.firebase_uid (users Sample.db_two))
  /\ fst (Legacy.ensureUser Tour.admin_uids Sample.gen_id Tour.no_other_constraint
            (str "key-1") Scene.zed (idle Sample.db_two 9))
     = Ok (Some Tour.user_zed_admin).
Proof.
  assert (NoDup (map Users.id (users Sample.db_two))) as Hid
    by (destruct db_two_users_ok as [H _]; exact H).
  assert (NoDup (map Users.firebase_uid (users Sample.db_two))) as Huid.
  { vm_compute. repeat constructor; cbn; intuition discriminate. }
  split; [exact Hid|]. split; [exact Huid|].
  destruct (legacy_ensureUser_spec Tour.admin_uids Sample.gen_id Tour.no_other_constraint
              sample_gen_id_fresh Sample.db_two 9 (str "key-1") Scene.zed Hid Huid)
    as (_ & Hknown & _).
  destruct (Hknown Tour.user_blank Tour.user_zed_admin) as (Hres & _).
  - vm_compute. right. left. reflexivity.
  - reflexivity.
  - vm_compute. reflexivity.
  - reflexivity.
  - rewrite Hres. reflexivity.
Defined.

Lemma failed_request_changes_no_part_witness :
  calm [Quiet; Quiet; Quiet; Fault]
  /\ serve_under Sample.env Sample.gen_id [Quiet; Quiet; Quiet; Fault] 9 Sample.db_two
       (ClaimPart Sample.i2 Sample.i1 Scene.seven Profile.none)
     = (Ok (fail 500 CLAIM_FAILED), Sample.db_two)
  /\ (succeeded
        (fst (serve_under Sample.env Sample.gen_id [Quiet; Quiet; Quiet; Fault] 9
                Sample.db_two (ClaimPart Sample.i2 Sample.i1 Scene.seven Profile.none)))
      \/ (weeks (snd (serve_under Sample.env Sample.gen_id [Quiet; Quiet; Quiet; Fault] 9
                        Sample.db_two
                        (ClaimPart Sample.i2 Sample.i1 Scene.seven Profile.none)))
          = weeks Sample.db_two
          /\ parts (snd (serve_under Sample.env Sample.gen_id [Quiet; Quiet; Quiet; Fault] 9
                           Sample.db_two
                           (ClaimPart Sample.i2 Sample.i1 Scene.seven Profile.none)))
             = parts Sample.db_two)).
Proof.
  assert (calm [Quiet; Quiet; Quiet; Fault]) as Hs by (repeat constructor).
  split; [exact Hs|]. split; [vm_compute; reflexivity|].
  apply (failed_request_changes_no_part Sample.env Sample.gen_id
           [Quiet; Quiet; Quiet; Fault] 9 Sample.db_two
           (ClaimPart Sample.i2 Sample.i1 Scene.seven Profile.none) Hs).
  - intros key H. discriminate H.
  - intros caller key profile H. discriminate H.
Defined.

Lemma reset_can_fail_after_commit_witness :
  Sample.W1 <> []
  /\ Sql.users_by_id Sample.i1 Sample.db_admin = [Scene.user_admin]
  /\ Sql.weeks_by_key Sample.W1 Sample.db_admin = [Weeks.mk Sample.i1 Sample.W1]
  /\ Sql.parts_by_key Sample.i1 Sample.five Sample.db_admin = [Tour.part5_of_plain]
  /\ fst (serve_under Sample.env Sample.gen_id lost_at_snapshot 9 Sample.db_admin
            Tour.admin_resets)
     = Ok (fail 500 RESET_FAILED)
  /\ Sql.parts_by_key Sample.i1 Sample.five
       (snd (serve_under Sample.env Sample.gen_id lost_at_snapshot 9 Sample.db_admin
               Tour.admin_resets))
     = [Parts.mk Sample.i1 5 None None None].
Proof.
  assert (Sample.W1 <> []) as H1 by discriminate.
  assert (Sql.users_by_id Sample.i1 Sample.db_admin = [Scene.user_admin]) as H2
    by reflexivity.
  assert (Sql.weeks_by_key Sample.W1 Sample.db_admin = [Weeks.mk Sample.i1 Sample.W1])
    as H3 by (vm_compute; reflexivity).
  split; [exact H1|]. split; [exact H2|]. split; [exact H3|].
  split; [vm_compute; reflexivity|].
  destruct (reset_can_fail_after_commit Sample.env Sample.gen_id Sample.db_admin 9
              Sample.i1 Sample.W1 Scene.user_admin [] (Weeks.mk Sample.i1 Sample.W1) []
              H1 H2 eq_refl H3) as (Hrun & _).
  unfold Tour.admin_resets. rewrite Hrun. split; vm_compute; reflexivity.
Defined.
